(** * MRMSIMU: merging the TAZ, meso and micro layers of a network

    A shallow embedding of [src/src/connector_utils.py] and of the driver
    [src/main.py].  Tables are pandas data frames: a list of column names and
    a list of rows, each row a finite map from column name to cell.  Python
    exceptions are values of an error monad; the frames that
    [merge_network_layers] and [reindex_nodes] receive are references into a
    store, because the first one updates them in place.  The modules [scc]
    and [network_io] embed [src/scc.py] and the column check of
    [src/src/network_io.py].

    What the model leaves out:
    - reading and writing the CSV files (steps 1 and 7 of [main]) and the
      computation of the components by networkx (step 2), which is a
      parameter of the module [scc]: [main] starts from the five frames in
      memory, the meso nodes with their [scc_id];
    - the arithmetic of float64, which the class [Float64] keeps abstract;
    - the dtype of a column: an integer cell stays an integer where pandas
      would hand it on as the float of the same value (a row of [iterrows]
      over a frame that also has float columns), and [==] compares an integer
      with a float through [of_int];
    - the width of the integers: an integer cell holds a [Z], where the
      int64 of numpy wraps around at 2^63 and the float64 that stands for an
      integer is exact below 2^53 only; what is proved of ids is proved of
      the code for tables whose ids stay below 2^53 after the shifts;
    - the row index of a frame: every frame the pipeline builds or filters is
      read by position or by content only;
    - the order in which a Python [set] is listed, for which the model takes
      the order of first occurrence. *)

From Stdlib Require Import ZArith Lia.
From stdpp Require Import gmap strings list fin_maps pretty sorting.

Local Open Scope string_scope.
Local Open Scope list_scope.
Local Open Scope Z_scope.

(** ** Exceptions *)

Inductive exn :=
  | KeyError (key : string)
  | IndexError
  | TypeError
  | ReferenceError.

Inductive result (A : Type) :=
  | Ok (a : A)
  | Raise (e : exn).
Arguments Ok {A} a.
Arguments Raise {A} e.

Global Instance result_ret : MRet result := λ A a, Ok a.
Global Instance result_bind : MBind result := λ A B f m,
  match m with Ok a => f a | Raise e => Raise e end.
Global Instance result_fmap : FMap result := λ A B f m,
  match m with Ok a => Ok (f a) | Raise e => Raise e end.

Definition is_ok {A} (m : result A) : bool :=
  match m with Ok _ => true | Raise _ => false end.

Fixpoint mapM_result {A B} (f : A → result B) (l : list A) : result (list B) :=
  match l with
  | [] => Ok []
  | a :: l => b ← f a; bs ← mapM_result f l; Ok (b :: bs)
  end.

(** ** Cells

    [num] stands for numpy's float64 without its NaN; the missing value has a
    constructor of its own.  The arithmetic of float64 is kept abstract. *)

Class Float64 (num : Type) := {
  of_int : Z → num;
  fadd : num → num → num;
  fsub : num → num → num;
  fpow2 : num → num;
  fsqrt : num → num;
  feqb : num → num → bool;
  fle : num → num → bool;
  fmt : num → string;
}.

(** Exact integer arithmetic is an instance: used to run the pipeline on
    concrete tables. *)
Global Instance Float64_Z : Float64 Z := {|
  of_int z := z;
  fadd := Z.add;
  fsub := Z.sub;
  fpow2 z := z * z;
  fsqrt := Z.sqrt;
  feqb := Z.eqb;
  fle := Z.leb;
  fmt := pretty;
|}.

Section Pipeline.
Context {num : Type} `{F64 : Float64 num}.

Inductive value :=
  | VInt (z : Z)
  | VNum (x : num)
  | VStr (s : string)
  | NaN.

Definition as_num (v : value) : option num :=
  match v with
  | VInt z => Some (of_int z)
  | VNum x => Some x
  | _ => None
  end.

(** [a == b] *)
Definition veqb (a b : value) : bool :=
  match a, b with
  | VInt x, VInt y => x =? y
  | VStr s, VStr t => String.eqb s t
  | VInt x, VNum y => feqb (of_int x) y
  | VNum x, VInt y => feqb x (of_int y)
  | VNum x, VNum y => feqb x y
  | _, _ => false
  end.

(** [a <= b] on numbers *)
Definition vleb (a b : value) : bool :=
  match a, b with
  | VInt x, VInt y => x <=? y
  | VInt x, VNum y => fle (of_int x) y
  | VNum x, VInt y => fle x (of_int y)
  | VNum x, VNum y => fle x y
  | _, _ => false
  end.

(** [a + b]; a missing operand gives a missing result *)
Definition vadd (a b : value) : result value :=
  match a, b with
  | VInt x, VInt y => Ok (VInt (x + y))
  | VInt x, VNum y => Ok (VNum (fadd (of_int x) y))
  | VNum x, VInt y => Ok (VNum (fadd x (of_int y)))
  | VNum x, VNum y => Ok (VNum (fadd x y))
  | VStr s, VStr t => Ok (VStr (s +:+ t))
  | VStr _, _ | _, VStr _ => Raise TypeError
  | NaN, _ | _, NaN => Ok NaN
  end.

(** [a - b] *)
Definition vsub (a b : value) : result value :=
  match a, b with
  | VInt x, VInt y => Ok (VInt (x - y))
  | VInt x, VNum y => Ok (VNum (fsub (of_int x) y))
  | VNum x, VInt y => Ok (VNum (fsub x (of_int y)))
  | VNum x, VNum y => Ok (VNum (fsub x y))
  | VStr _, _ | _, VStr _ => Raise TypeError
  | NaN, _ | _, NaN => Ok NaN
  end.

(** [a ** 2] *)
Definition vpow2 (a : value) : result value :=
  match a with
  | VInt x => Ok (VInt (x * x))
  | VNum x => Ok (VNum (fpow2 x))
  | VStr _ => Raise TypeError
  | NaN => Ok NaN
  end.

(** [np.sqrt(a)] *)
Definition vsqrt (a : value) : result value :=
  match a with
  | VInt x => Ok (VNum (fsqrt (of_int x)))
  | VNum x => Ok (VNum (fsqrt x))
  | VStr _ => Raise TypeError
  | NaN => Ok NaN
  end.

(** [f"{a}"] *)
Definition vfmt (a : value) : string :=
  match a with
  | VInt x => pretty x
  | VNum x => fmt x
  | VStr s => s
  | NaN => "nan"
  end.

(** ** Data frames *)

Record DataFrame := mkDF {
  columns : list string;
  rows : list (gmap string value);
}.

(** A Python dict with string keys, in insertion order. *)
Definition dict := list (string * value).

Definition dict_set (k : string) (v : value) (d : dict) : dict :=
  if bool_decide (k ∈ d.*1)
  then map (λ kv, if bool_decide (kv.1 = k) then (k, v) else kv) d
  else d ++ [(k, v)].

(** The cell of row [r] in column [c]; a column the row has no entry for
    holds the missing value. *)
Definition cell (r : gmap string value) (c : string) : value :=
  default NaN (r !! c).

Definition column (df : DataFrame) (c : string) : list value :=
  (λ r, cell r c) <$> rows df.

Definition has_column (df : DataFrame) (c : string) : bool :=
  bool_decide (c ∈ columns df).

(** [df[c]] *)
Definition getcol (df : DataFrame) (c : string) : result (list value) :=
  if has_column df c then Ok (column df c) else Raise (KeyError c).

(** [row[c]] for a row that [df.iterrows()] yields *)
Definition getitem (df : DataFrame) (r : gmap string value) (c : string)
  : result value :=
  if has_column df c then Ok (cell r c) else Raise (KeyError c).

(** [len(df)] *)
Definition len (df : DataFrame) : Z := Z.of_nat (length (rows df)).

(** [df[df[c] == v]] *)
Definition where_eq (df : DataFrame) (c : string) (v : value) : result DataFrame :=
  if has_column df c
  then Ok (mkDF (columns df) (filter (λ r, veqb (cell r c) v = true) (rows df)))
  else Raise (KeyError c).

Definition is_nan (v : value) : bool :=
  match v with NaN => true | _ => false end.

(** [df[df[c].isin(vs)]]; for [isin] a missing value matches a missing one *)
Definition isin (vs : list value) (v : value) : bool :=
  existsb (λ w, veqb v w || (is_nan v && is_nan w)) vs.

Definition where_isin (df : DataFrame) (c : string) (vs : list value)
  : result DataFrame :=
  if has_column df c
  then Ok (mkDF (columns df) (filter (λ r, isin vs (cell r c) = true) (rows df)))
  else Raise (KeyError c).

(** [df.iloc[0]] *)
Definition iloc0 (df : DataFrame) : result (gmap string value) :=
  match rows df with
  | r :: _ => Ok r
  | [] => Raise IndexError
  end.

(** [df[c].max()]: missing cells are skipped, and the maximum of no cell at
    all is the missing value.  A string raises here: every maximum the
    pipeline takes is added to an integer next, where Python raises
    [TypeError] for a string. *)
Definition vmax (acc v : value) : result value :=
  match v, acc with
  | VStr _, _ => Raise TypeError
  | NaN, _ => Ok acc
  | _, NaN => Ok v
  | _, _ => Ok (if vleb v acc then acc else v)
  end.

Fixpoint max_of (acc : value) (vs : list value) : result value :=
  match vs with
  | [] => Ok acc
  | v :: vs => acc' ← vmax acc v; max_of acc' vs
  end.

Definition col_max (df : DataFrame) (c : string) : result value :=
  vs ← getcol df c; max_of NaN vs.

(** [df[c] = v], a scalar broadcast to every row *)
Definition df_setitem (df : DataFrame) (c : string) (v : value) : DataFrame :=
  mkDF (if has_column df c then columns df else columns df ++ [c])
       ((λ r, <[c := v]> r) <$> rows df).

(** [df[c] += v] *)
Definition df_iadd (df : DataFrame) (c : string) (v : value) : result DataFrame :=
  if has_column df c
  then rs ← mapM_result (λ r, w ← vadd (cell r c) v; Ok (<[c := w]> r)) (rows df);
       Ok (mkDF (columns df) rs)
  else Raise (KeyError c).

(** [pd.DataFrame(records)] for a list of dicts: the columns are the keys in
    the order in which they first appear; no record, no column. *)
Definition union_keys (ks : list string) (d : dict) : list string :=
  ks ++ filter (λ k, k ∉ ks) (remove_dups d.*1).

Definition pd_DataFrame (records : list dict) : DataFrame :=
  mkDF (foldl union_keys [] records) (list_to_map <$> records).

(** [pd.concat(dfs, ignore_index=True)] *)
Definition pd_concat (dfs : list DataFrame) : DataFrame :=
  mkDF (foldl (λ ks df, ks ++ filter (λ k, k ∉ ks) (columns df)) [] dfs)
       (dfs ≫= rows).

(** [df[cs]] for a list of columns *)
Definition project (df : DataFrame) (cs : list string) : result DataFrame :=
  match filter (λ c, c ∉ columns df) cs with
  | [] => Ok (mkDF cs ((λ r, filter (λ kv, kv.1 ∈ cs) r) <$> rows df))
  | c :: _ => Raise (KeyError c)
  end.

(** [df[c] = vs] for a column of values, one per row *)
Definition df_setcol (df : DataFrame) (c : string) (vs : list value) : DataFrame :=
  mkDF (if has_column df c then columns df else columns df ++ [c])
       (zip_with (λ r v, <[c := v]> r) (rows df) vs).

(** [row.to_dict()] *)
Definition to_dict (df : DataFrame) (r : gmap string value) : dict :=
  (λ c, (c, cell r c)) <$> columns df.

(** ** Sorting

    Insertion from the right: an element is placed before the first one it
    is less than or equal to, so equal elements keep their order. *)

Fixpoint insert_sorted {A} (le : A → A → bool) (x : A) (l : list A) : list A :=
  match l with
  | [] => [x]
  | y :: l' => if le x y then x :: l else y :: insert_sorted le x l'
  end.

Definition stable_sort {A} (le : A → A → bool) : list A → list A :=
  foldr (insert_sorted le) [].

(** The order of [sort_values]: ascending, missing values last. *)
Definition na_last_le (a b : value) : bool :=
  match a, b with
  | _, NaN => true
  | NaN, _ => false
  | _, _ => vleb a b
  end.

Fixpoint rows_le (by_ : list string) (r1 r2 : gmap string value) : bool :=
  match by_ with
  | [] => true
  | c :: by' =>
      if na_last_le (cell r1 c) (cell r2 c)
      then if na_last_le (cell r2 c) (cell r1 c) then rows_le by' r1 r2 else true
      else false
  end.

(** [df.sort_values(by).reset_index(drop=True)] *)
Definition sort_values (df : DataFrame) (by_ : list string) : result DataFrame :=
  match filter (λ c, c ∉ columns df) by_ with
  | [] => Ok (mkDF (columns df) (stable_sort (rows_le by_) (rows df)))
  | c :: _ => Raise (KeyError c)
  end.

(** [df.nsmallest(n, c)] with the default [keep='first']: the rows with a
    value in [c] in ascending order, equal values in row order, then the rows
    with a missing value; the first [n] of them. *)
Definition nsmallest (n : Z) (c : string) (df : DataFrame) : result DataFrame :=
  if has_column df c
  then Ok (mkDF (columns df)
            (take (Z.to_nat n)
               (stable_sort (λ r1 r2, vleb (cell r1 c) (cell r2 c))
                  (filter (λ r, is_nan (cell r c) = false) (rows df))
                ++ filter (λ r, is_nan (cell r c) = true) (rows df))))
  else Raise (KeyError c).

(** ** [find_nearest_scc_nodes] *)

(** [np.sqrt((xs - tx) ** 2 + (ys - ty) ** 2)] for one row *)
Definition distance (taz_x taz_y : value) (r : gmap string value) : result value :=
  dx ← vsub (cell r "x_coord") taz_x;
  dx2 ← vpow2 dx;
  dy ← vsub (cell r "y_coord") taz_y;
  dy2 ← vpow2 dy;
  s ← vadd dx2 dy2;
  vsqrt s.

(** The same for the whole column, in the order in which numpy evaluates the
    expression. *)
Definition distances (df taz_df : DataFrame) (taz : gmap string value)
  : result (list value) :=
  xs ← getcol df "x_coord";
  taz_x ← getitem taz_df taz "x_coord";
  dx ← mapM_result (λ x, vsub x taz_x) xs;
  dx2 ← mapM_result vpow2 dx;
  ys ← getcol df "y_coord";
  taz_y ← getitem taz_df taz "y_coord";
  dy ← mapM_result (λ y, vsub y taz_y) ys;
  dy2 ← mapM_result vpow2 dy;
  s ← mapM_result (λ ab, vadd ab.1 ab.2) (zip dx2 dy2);
  mapM_result vsqrt s.

(** [f'candidate_node_id_{i + 1}'] *)
Definition candidate_column (i : nat) : string :=
  "candidate_node_id_" +:+ pretty (Z.of_nat i + 1).

Definition add_candidates (row : dict) (node_ids : list value) : dict :=
  foldl (λ row inode, dict_set (candidate_column inode.1) inode.2 row)
        row (imap pair node_ids).

(** The loop over the TAZ rows; [largest_scc_nodes] is one frame whose
    [distance] column every iteration overwrites. *)
Fixpoint nearest_loop (taz_df : DataFrame) (num_candidates : Z)
    (tazs : list (gmap string value)) (largest_scc_nodes : DataFrame)
  : result (list dict) :=
  match tazs with
  | [] => Ok []
  | taz :: tazs =>
      d ← distances largest_scc_nodes taz_df taz;
      let largest_scc_nodes := df_setcol largest_scc_nodes "distance" d in
      nearest ← nsmallest num_candidates "distance" largest_scc_nodes;
      node_ids ← getcol nearest "node_id";
      let row := add_candidates (to_dict taz_df taz) node_ids in
      result ← nearest_loop taz_df num_candidates tazs largest_scc_nodes;
      Ok (row :: result)
  end.

Definition find_nearest_scc_nodes (taz_df meso_nodes : DataFrame)
    (num_candidates : Z) : result DataFrame :=
  largest_scc_nodes ← where_eq meso_nodes "scc_id" (VInt 0);
  result ← nearest_loop taz_df num_candidates (rows taz_df) largest_scc_nodes;
  Ok (pd_DataFrame result).

(** ** [find_start_micro_nodes] *)

(** [set(xs)]: Python's set keeps one of several equal elements; the order of
    the model is the order of first occurrence, Python promises none. *)
Definition py_set (vs : list value) : list value :=
  foldl (λ acc v, if existsb (veqb v) acc then acc else acc ++ [v]) [] vs.

(** [a - b] on sets *)
Definition set_difference (a b : list value) : list value :=
  filter (λ v, existsb (veqb v) b = false) a.

Definition find_start_micro_nodes (meso_node_id : value)
    (meso_links micro_links : DataFrame) : result (list value) :=
  outgoing ← where_eq meso_links "from_node_id" meso_node_id;
  meso_link_ids ← getcol outgoing "link_id";
  micro_subset ← where_isin micro_links "meso_link_id" meso_link_ids;
  from_nodes ← py_set <$> getcol micro_subset "from_node_id";
  to_nodes ← py_set <$> getcol micro_subset "to_node_id";
  Ok (set_difference from_nodes to_nodes).

(** ** [map_taz_to_micro_nodes] *)

Definition map_taz_to_micro_nodes (taz_candidates meso_links micro_links
    micro_nodes : DataFrame) (candidate_col : string) : result DataFrame :=
  results ← mapM_result (λ row,
      taz_id ← getitem taz_candidates row "TAZ_clean";
      meso_node_id ← getitem taz_candidates row candidate_col;
      start_nodes ← find_start_micro_nodes meso_node_id meso_links micro_links;
      coords ← where_isin micro_nodes "node_id" start_nodes;
      mapM_result (λ node,
          node_id ← getitem coords node "node_id";
          x ← getitem coords node "x_coord";
          y ← getitem coords node "y_coord";
          Ok [("taz_id", taz_id); ("micro_node_id", node_id);
              ("x_coord", x); ("y_coord", y)])
        (rows coords))
    (rows taz_candidates);
  Ok (pd_DataFrame (concat results)).

(** ** [compute_shifts] *)

Definition compute_shifts (taz_df meso_nodes : DataFrame)
  : result (value * value * value) :=
  max_taz_id ← col_max taz_df "TAZ_clean";
  node_shift_meso ← vadd max_taz_id (VInt 1);
  max_meso ← col_max meso_nodes "node_id";
  node_shift_micro ← vadd node_shift_meso max_meso;
  let link_shift_meso := VInt (len taz_df * 2 + 1) in
  Ok (node_shift_meso, node_shift_micro, link_shift_meso).

(** ** [create_taz_nodes] *)

Definition create_taz_nodes (taz_df : DataFrame) (taz_id_col : string)
  : result DataFrame :=
  _ ← getcol taz_df taz_id_col;
  _ ← getcol taz_df "x_coord";
  _ ← getcol taz_df "y_coord";
  Ok (mkDF ["node_id"; "x"; "y"; "zone_id"; "layer"]
        ((λ r, list_to_map [("node_id", cell r taz_id_col);
                            ("x", cell r "x_coord");
                            ("y", cell r "y_coord");
                            ("zone_id", cell r taz_id_col);
                            ("layer", VStr "taz")]) <$> rows taz_df)).

(** ** The connector generators *)

(** [f"LINESTRING ({x1} {y1}, {x2} {y2})"] *)
Definition linestring (x1 y1 x2 y2 : value) : string :=
  "LINESTRING (" +:+ vfmt x1 +:+ " " +:+ vfmt y1 +:+ ", "
    +:+ vfmt x2 +:+ " " +:+ vfmt y2 +:+ ")".

Definition connector (link_id from_id to_id : value) (layer geom : string) : dict :=
  [("link_id", link_id);
   ("from_node_id", from_id);
   ("to_node_id", to_id);
   ("dir_flag", VInt 1);
   ("length", VInt 100);
   ("lanes", VInt 1);
   ("free_speed", VInt 120);
   ("capacity", VInt 100000);
   ("link_type_name", VStr "connector");
   ("link_type", VInt 0);
   ("layer", VStr layer);
   ("geometry", VStr geom);
   ("allowed_uses", VStr "auto");
   ("from_biway", VInt 1);
   ("is_link", VInt 0)].

(** The two links of one iteration, in the order of the inner loop. *)
Definition connector_pair (link_id : Z) (taz_id node_id taz_x taz_y mx my : value)
    (layer : string) : list dict :=
  [connector (VInt link_id) taz_id node_id layer (linestring taz_x taz_y mx my);
   connector (VInt (link_id + 1)) node_id taz_id layer (linestring mx my taz_x taz_y)].

Fixpoint meso_connector_loop (taz_df meso_nodes : DataFrame)
    (candidate_col taz_id_col : string) (node_shift_meso : value)
    (tazs : list (gmap string value)) (link_id : Z) : result (list dict) :=
  match tazs with
  | [] => Ok []
  | row :: tazs =>
      taz_id ← getitem taz_df row taz_id_col;
      taz_x ← getitem taz_df row "x_coord";
      taz_y ← getitem taz_df row "y_coord";
      candidate ← getitem taz_df row candidate_col;
      meso_node_id ← vadd candidate node_shift_meso;
      found ← where_eq meso_nodes "node_id" meso_node_id;
      node ← iloc0 found;
      mx ← getitem found node "x_coord";
      my ← getitem found node "y_coord";
      connectors ← meso_connector_loop taz_df meso_nodes candidate_col taz_id_col
                     node_shift_meso tazs (link_id + 2);
      Ok (connector_pair link_id taz_id meso_node_id taz_x taz_y mx my "meso"
            ++ connectors)
  end.

Definition generate_meso_connectors (taz_df meso_nodes : DataFrame)
    (candidate_col taz_id_col : string) (node_shift_meso : value)
  : result DataFrame :=
  connectors ← meso_connector_loop taz_df meso_nodes candidate_col taz_id_col
                 node_shift_meso (rows taz_df) 1;
  Ok (pd_DataFrame connectors).

Fixpoint micro_connector_loop (taz_df taz_micro_map : DataFrame)
    (taz_id_col : string) (node_shift_micro : value)
    (pairs : list (gmap string value)) (link_id : Z) (used_nodes : list value)
  : result (list dict) :=
  match pairs with
  | [] => Ok []
  | row :: pairs =>
      taz_id ← getitem taz_micro_map row "taz_id";
      raw_id ← getitem taz_micro_map row "micro_node_id";
      micro_node_id ← vadd raw_id node_shift_micro;
      if existsb (veqb micro_node_id) used_nodes
      then micro_connector_loop taz_df taz_micro_map taz_id_col node_shift_micro
             pairs link_id used_nodes
      else
        found ← where_eq taz_df taz_id_col taz_id;
        taz_row ← iloc0 found;
        taz_x ← getitem found taz_row "x_coord";
        taz_y ← getitem found taz_row "y_coord";
        mx ← getitem taz_micro_map row "x_coord";
        my ← getitem taz_micro_map row "y_coord";
        connectors ← micro_connector_loop taz_df taz_micro_map taz_id_col
                       node_shift_micro pairs (link_id + 2)
                       (micro_node_id :: used_nodes);
        Ok (connector_pair link_id taz_id micro_node_id taz_x taz_y mx my "micro"
              ++ connectors)
  end.

(** The [micro_nodes] parameter of the source is not used by its body. *)
Definition generate_micro_connectors (taz_df taz_micro_map micro_nodes : DataFrame)
    (taz_id_col : string) (node_shift_micro : value) (link_id : Z)
  : result DataFrame :=
  connectors ← micro_connector_loop taz_df taz_micro_map taz_id_col
                 node_shift_micro (rows taz_micro_map) link_id [];
  Ok (pd_DataFrame connectors).

(** ** The store

    A frame that a function receives is a reference: [df[c] = v] and
    [df[c] += v] update the caller's object.  [ReferenceError] is the lookup
    of a reference that was never allocated; no run of the program does it. *)

Definition ref := nat.
Definition store := list DataFrame.
Definition ST (A : Type) : Type := store → result (A * store).

Global Instance ST_ret : MRet ST := λ A a σ, Ok (a, σ).
Global Instance ST_bind : MBind ST := λ A B f m σ,
  match m σ with Ok (a, σ') => f a σ' | Raise e => Raise e end.

Definition lift {A} (m : result A) : ST A :=
  λ σ, match m with Ok a => Ok (a, σ) | Raise e => Raise e end.

Definition deref (r : ref) : ST DataFrame :=
  λ σ, match σ !! r with Some df => Ok (df, σ) | None => Raise ReferenceError end.

Definition alloc (df : DataFrame) : ST ref :=
  λ σ, Ok (length σ, σ ++ [df]).

Definition assign (r : ref) (df : DataFrame) : ST unit :=
  λ σ, Ok (tt, <[r := df]> σ).

(** [df.copy()] *)
Definition copy (r : ref) : ST ref :=
  df ← deref r; alloc df.

(** [df[c] = v] *)
Definition setitem (r : ref) (c : string) (v : value) : ST unit :=
  df ← deref r; assign r (df_setitem df c v).

(** [df[c] += v] *)
Definition iadd (r : ref) (c : string) (v : value) : ST unit :=
  df ← deref r; df' ← lift (df_iadd df c v); assign r df'.

Fixpoint for_ {A} (l : list A) (body : A → ST unit) : ST unit :=
  match l with
  | [] => mret tt
  | a :: l => body a;; for_ l body
  end.

(** ** [reindex_nodes] *)

Definition reindex_nodes (meso_nodes micro_nodes : ref)
    (node_shift_meso node_shift_micro link_shift_meso : value) : ST (ref * ref) :=
  meso_nodes ← copy meso_nodes;
  micro_nodes ← copy micro_nodes;
  iadd meso_nodes "node_id" node_shift_meso;;
  iadd micro_nodes "node_id" node_shift_micro;;
  iadd micro_nodes "meso_link_id" link_shift_meso;;
  setitem meso_nodes "zone_id" (VStr "");;
  setitem micro_nodes "zone_id" (VStr "");;
  mret (meso_nodes, micro_nodes).

(** ** [prepare_and_generate_connectors] *)

Record prepared := mkPrepared {
  updated_meso_nodes : ref;
  updated_micro_nodes : ref;
  taz_nodes : ref;
  meso_connectors_df : ref;
  micro_connectors_df : ref;
  node_shift_meso : value;
  node_shift_micro : value;
  link_shift_meso : value;
}.

Definition prepare_and_generate_connectors (taz_df meso_nodes micro_nodes
    taz_micro_map : ref) (candidate_col taz_id_col : string) : ST prepared :=
  taz ← deref taz_df;
  meso ← deref meso_nodes;
  shifts ← lift (compute_shifts taz meso);
  let '(node_shift_meso, node_shift_micro, link_shift_meso) := shifts in
  updated ← reindex_nodes meso_nodes micro_nodes
              node_shift_meso node_shift_micro link_shift_meso;
  let '(updated_meso_nodes, updated_micro_nodes) := updated in
  taz_nodes ← lift (create_taz_nodes taz taz_id_col) ≫= alloc;
  updated_meso ← deref updated_meso_nodes;
  meso_connectors_df ←
    lift (generate_meso_connectors taz updated_meso candidate_col taz_id_col
            node_shift_meso) ≫= alloc;
  pairs ← deref taz_micro_map;
  micro ← deref micro_nodes;
  micro_connectors_df ←
    lift (generate_micro_connectors taz pairs micro taz_id_col
            node_shift_micro 1) ≫= alloc;
  mret (mkPrepared updated_meso_nodes updated_micro_nodes taz_nodes
          meso_connectors_df micro_connectors_df
          node_shift_meso node_shift_micro link_shift_meso).

(** ** [merge_network_layers] *)

Definition ordered_cols : list string :=
  ["link_id"; "from_node_id"; "to_node_id"; "link_type"; "layer"].

Definition merge_network_layers (meso_links meso_connector_links
    micro_links micro_connector_links meso_nodes micro_nodes taz_nodes : ref)
    (node_shift_meso node_shift_micro link_shift_meso : value)
  : ST (DataFrame * DataFrame) :=
  for_ [(meso_nodes, "meso"); (micro_nodes, "micro"); (taz_nodes, "taz")]
    (λ df_layer, setitem df_layer.1 "layer" (VStr df_layer.2));;
  for_ [(meso_links, "meso"); (micro_links, "micro")]
    (λ df_layer, setitem df_layer.1 "layer" (VStr df_layer.2));;

  iadd meso_links "from_node_id" node_shift_meso;;
  iadd meso_links "to_node_id" node_shift_meso;;
  iadd meso_links "link_id" link_shift_meso;;

  iadd micro_links "from_node_id" node_shift_micro;;
  iadd micro_links "to_node_id" node_shift_micro;;
  iadd micro_links "meso_link_id" link_shift_meso;;

  link_shift_connector_micro ← (deref meso_links ≫= λ df, lift (col_max df "link_id"));
  iadd micro_connector_links "link_id" link_shift_connector_micro;;
  max_connector ← (deref micro_connector_links ≫= λ df, lift (col_max df "link_id"));
  link_shift_micro ← lift (vadd max_connector (VInt 1));
  iadd micro_links "link_id" link_shift_micro;;

  taz ← deref taz_nodes;
  meso ← deref meso_nodes;
  micro ← deref micro_nodes;
  final_nodes ← lift (project (pd_concat [taz; meso; micro])
                        ["node_id"; "x"; "y"; "zone_id"; "layer"]
                      ≫= λ df, sort_values df ["node_id"]);

  meso_connectors ← deref meso_connector_links;
  mesol ← deref meso_links;
  micro_connectors ← deref micro_connector_links;
  microl ← deref micro_links;
  let final_links :=
    pd_concat [meso_connectors; mesol; micro_connectors; microl] in
  let extra_cols := filter (λ col, col ∉ ordered_cols) (columns final_links) in
  final_links ← lift (project final_links (ordered_cols ++ extra_cols)
                        ≫= λ df, sort_values df ["from_node_id"; "to_node_id"]);

  mret (final_links, final_nodes).

(** ** [main], from step 3 on

    The five frames are those that the loader returned and [meso_nodes] is
    the one annotated with [scc_id] by step 2. *)

Definition main (taz_df meso_nodes meso_links micro_nodes micro_links : ref)
  : ST (DataFrame * DataFrame) :=
  taz ← deref taz_df;
  meso ← deref meso_nodes;
  taz_with_candidates ← lift (find_nearest_scc_nodes taz meso 1) ≫= alloc;
  candidates ← deref taz_with_candidates;
  mesol ← deref meso_links;
  microl ← deref micro_links;
  micro ← deref micro_nodes;
  taz_micro_map ←
    lift (map_taz_to_micro_nodes candidates mesol microl micro
            "candidate_node_id_1") ≫= alloc;
  p ← prepare_and_generate_connectors taz_with_candidates meso_nodes micro_nodes
        taz_micro_map "candidate_node_id_1" "TAZ_clean";
  merge_network_layers meso_links (meso_connectors_df p)
    micro_links (micro_connectors_df p)
    (updated_meso_nodes p) (updated_micro_nodes p) (taz_nodes p)
    (node_shift_meso p) (node_shift_micro p) (link_shift_meso p).

End Pipeline.

Arguments main {num F64} (taz_df meso_nodes meso_links micro_nodes micro_links)%_nat.
Arguments merge_network_layers {num F64}
  (meso_links meso_connector_links micro_links micro_connector_links
   meso_nodes micro_nodes taz_nodes)%_nat
  node_shift_meso node_shift_micro link_shift_meso.
Arguments reindex_nodes {num F64} (meso_nodes micro_nodes)%_nat
  node_shift_meso node_shift_micro link_shift_meso.
Arguments prepare_and_generate_connectors {num F64}
  (taz_df meso_nodes micro_nodes taz_micro_map)%_nat candidate_col taz_id_col.


(** * [src/scc.py]: the component index of the meso nodes

    The components themselves are computed by networkx; the class [Networkx]
    stands for that call.  What the repository's code does with the
    components is modelled: the order by size, the numbering, the lookup of
    every node and the value for a node that is in no component.  Writing
    the annotated table to a CSV file and the message printed are left out. *)

(** [nx.strongly_connected_components(G)] for the graph with the given
    edges, in the order in which networkx yields the components. *)
Class Networkx (num : Type) := {
  strongly_connected_components :
    list (@value num * @value num) → list (list (@value num));
}.

Module scc.
Section scc.
Context {num : Type} `{F64 : Float64 num} `{NX : Networkx num}.

(** A Python dict from node ids to component indices, in insertion order;
    two keys are the same key when they are equal by [==]. *)
Definition node_dict := list (@value num * Z).

Definition node_dict_set (k : @value num) (i : Z) (d : node_dict) : node_dict :=
  if existsb (λ kv, veqb kv.1 k) d
  then map (λ kv, if veqb kv.1 k then (kv.1, i) else kv) d
  else d ++ [(k, i)].

Definition node_dict_get (d : node_dict) (k : @value num) : option Z :=
  snd <$> find (λ kv, veqb kv.1 k) d.

(** The loop that builds [G]: one edge for every link. *)
Definition add_edges (links_df : @DataFrame num)
  : result (list (@value num * @value num)) :=
  mapM_result (λ row,
      u ← getitem links_df row "from_node_id";
      v ← getitem links_df row "to_node_id";
      Ok (u, v))
    (rows links_df).

(** [sorted(sccs, key=len, reverse=True)]: Python's sort is stable, also in
    reverse. *)
Definition sorted_by_len (sccs : list (list (@value num))) : list (list (@value num)) :=
  stable_sort (λ a b, (length b <=? length a)%nat) sccs.

(** [{node_id: idx for idx, scc in enumerate(sccs) for node_id in scc}] *)
Definition enumerate_nodes (sccs : list (list (@value num))) : node_dict :=
  foldl (λ d idx_scc,
           foldl (λ d node_id, node_dict_set node_id (Z.of_nat idx_scc.1) d)
                 d idx_scc.2)
        [] (imap pair sccs).

Definition compute_scc_id_mapping (links_df : @DataFrame num) : result node_dict :=
  G ← add_edges links_df;
  let sccs := sorted_by_len (strongly_connected_components G) in
  Ok (enumerate_nodes sccs).

(** [.map(node_to_scc).fillna(-1).astype(int)] for one cell *)
Definition scc_id_of (node_to_scc : node_dict) (node_id : @value num) : @value num :=
  VInt (default (-1) (node_dict_get node_to_scc node_id)).

(** The frame returned is the copy that the function takes and writes the
    new column to; [nodes_df] itself is not written to. *)
Definition annotate_nodes_with_scc (nodes_df : @DataFrame num)
    (node_to_scc : node_dict) : result (@DataFrame num) :=
  node_ids ← getcol nodes_df "node_id";
  Ok (df_setcol nodes_df "scc_id" (scc_id_of node_to_scc <$> node_ids)).

Definition assign_and_export_scc (meso_links meso_nodes : @DataFrame num)
  : result (@DataFrame num) :=
  node_to_scc ← compute_scc_id_mapping meso_links;
  annotate_nodes_with_scc meso_nodes node_to_scc.

End scc.
End scc.

(** A table of components for graphs of integer nodes, to run [scc.py] on
    examples: the classes of mutual reachability, in the order in which
    their first node appears in the edges. *)
Module Networkx_Z.

Definition nodes_of (G : list (@value Z * @value Z)) : list (@value Z) :=
  py_set (G ≫= λ e, [e.1; e.2]).

Definition successors (G : list (@value Z * @value Z)) (u : @value Z) : list (@value Z) :=
  (filter (λ e, veqb e.1 u = true) G).*2.

Fixpoint reachable (G : list (@value Z * @value Z)) (fuel : nat)
    (seen : list (@value Z)) : list (@value Z) :=
  match fuel with
  | O => seen
  | S fuel => reachable G fuel (py_set (seen ++ (seen ≫= successors G)))
  end.

Definition reaches (G : list (@value Z * @value Z)) (u v : @value Z) : bool :=
  existsb (veqb v) (reachable G (length (nodes_of G)) [u]).

Definition components (G : list (@value Z * @value Z)) : list (list (@value Z)) :=
  foldl (λ sccs u,
           if existsb (existsb (veqb u)) sccs then sccs
           else sccs ++ [filter (λ v, reaches G u v && reaches G v u = true)
                           (nodes_of G)])
        [] (nodes_of G).

End Networkx_Z.

Global Instance Networkx_Z_instance : Networkx Z := {|
  strongly_connected_components := Networkx_Z.components;
|}.

(** * [src/src/network_io.py]: the check of the columns

    [pd.read_csv] is left out: the function below starts from the four
    frames that were read. *)

Module network_io.

(** The exception of [_validate_columns], with its message. *)
Inductive load_result (A : Type) :=
  | Loaded (a : A)
  | ValueError (msg : string).
Arguments Loaded {A} a.
Arguments ValueError {A} msg.

(** [f"{missing}"] for a list of column names: Python writes a string
    between single quotes when it holds none. *)
Definition repr (cols : list string) : string :=
  "[" +:+ String.concat ", " ((λ col, "'" +:+ col +:+ "'") <$> cols) +:+ "]".

Section network_io.
Context {num : Type}.

Definition validate_columns (df : @DataFrame num) (required_cols : list string)
    (name : string) : load_result unit :=
  let missing := filter (λ col, col ∉ columns df) required_cols in
  match missing with
  | [] => Loaded tt
  | _ => ValueError (name +:+ " is missing required columns: " +:+ repr missing)
  end.

(** The dict that the loader returns. *)
Record layers := mkLayers {
  meso_nodes : @DataFrame num;
  meso_links : @DataFrame num;
  micro_nodes : @DataFrame num;
  micro_links : @DataFrame num;
}.

Definition then_ {A} (check : load_result unit) (k : load_result A) : load_result A :=
  match check with
  | Loaded _ => k
  | ValueError msg => ValueError msg
  end.

Definition load_node_link_layers (meso_nodes meso_links micro_nodes micro_links
    : @DataFrame num) : load_result layers :=
  then_ (validate_columns meso_nodes ["node_id"; "x_coord"; "y_coord"]
           "Meso Node CSV")
  (then_ (validate_columns meso_links ["link_id"; "from_node_id"; "to_node_id"]
            "Meso Link CSV")
  (then_ (validate_columns micro_nodes
            ["node_id"; "x_coord"; "y_coord"; "meso_link_id"; "lane_no"]
            "Micro Node CSV")
  (then_ (validate_columns micro_links
            ["link_id"; "from_node_id"; "to_node_id"; "meso_link_id"; "lane_no"]
            "Micro Link CSV")
     (Loaded (mkLayers meso_nodes meso_links micro_nodes micro_links))))).

End network_io.
End network_io.
(** * Specifications *)

Section Specifications.
Context {num : Type} `{F64 : Float64 num}.
Local Abbreviation Row := (gmap string (@value num)).
Local Abbreviation Value := (@value num).
Local Abbreviation Frame := (@DataFrame num).

(** A forward link and its reverse: endpoints exchanged, the same two points
    in the opposite order, the same length. *)
Definition reverse_pair (fwd bwd : Row) : Prop :=
  cell fwd "from_node_id" = cell bwd "to_node_id" ∧
  cell fwd "to_node_id" = cell bwd "from_node_id" ∧
  cell fwd "length" = cell bwd "length" ∧
  ∃ x1 y1 x2 y2,
    cell fwd "geometry" = VStr (linestring x1 y1 x2 y2) ∧
    cell bwd "geometry" = VStr (linestring x2 y2 x1 y1).

Inductive paired : list Row → Prop :=
  | paired_nil : paired []
  | paired_cons fwd bwd l :
      reverse_pair fwd bwd → paired l → paired (fwd :: bwd :: l).

(** What one run of either connector loop emits: the pairs of its [n]
    iterations, numbered from [link_id] on. *)
Definition numbered_pairs (link_id : Z) (n : nat) (l : list (@dict num)) : Prop :=
  paired (rows (pd_DataFrame l)) ∧
  column (pd_DataFrame l) "link_id" = VInt <$> seqZ link_id (2 * Z.of_nat n).

(** The order of a stable sort on the elements with their positions: before
    means not greater, and earlier in the list when neither is greater. *)
Definition before {A} (le : A → A → bool) (p q : nat * A) : Prop :=
  le p.2 q.2 = true ∧ (le q.2 p.2 = true → (p.1 < q.1)%nat).

(** Row [i] is nearer than row [j], or as near and earlier in the table;
    [ds] holds the distance of every row. *)
Definition nearer (ds : list num) (i j : nat) : Prop :=
  ∃ di dj, ds !! i = Some di ∧ ds !! j = Some dj ∧
           fle di dj = true ∧ (fle dj di = true → (i < j)%nat).

(** [picks] are the positions of the [k] nearest rows, nearest first. *)
Definition k_nearest (ds : list num) (k : nat) (picks : list nat) : Prop :=
  length picks = min k (length ds) ∧
  NoDup picks ∧
  (∀ i, i ∈ picks → (i < length ds)%nat) ∧
  (∀ a b i j, picks !! a = Some i → picks !! b = Some j → (a < b)%nat →
              nearer ds i j) ∧
  (∀ i j, i ∈ picks → j ∉ picks → (j < length ds)%nat → nearer ds i j).

Definition is_number (v : Value) : bool :=
  match v with VInt _ | VNum _ => true | _ => false end.

(** The rows of the frame that [find_nearest_scc_nodes] works on are the
    rows of the largest component with a [distance] cell written over. *)
Definition same_but_distance (rs0 rs : list Row) : Prop :=
  Forall2 (λ r0 r, ∀ c, c ≠ "distance" → cell r c = cell r0 c) rs0 rs.

(** The [node_id] cells of the rows at the positions [picks]. *)
Definition node_ids_at (rs : list Row) (picks : list nat) : list Value :=
  (λ i, from_option (λ r, cell r "node_id") NaN (rs !! i)) <$> picks.

(** Every id of the first block is smaller than every id of the second. *)
Definition below (l1 l2 : list Z) : Prop :=
  ∀ x y, x ∈ l1 → y ∈ l2 → x < y.

(** A micro link that divides a meso link leaving [meso_node_id]: both tests
    are the ones of the code, [==] on the meso link's start and [isin] on the
    micro link's back-reference. *)
Definition outgoing_micro_link (meso_node_id : Value) (meso_links micro_links : Frame)
    (r : Row) : Prop :=
  r ∈ rows micro_links ∧
  ∃ l, l ∈ rows meso_links ∧
       veqb (cell l "from_node_id") meso_node_id = true ∧
       isin [cell l "link_id"] (cell r "meso_link_id") = true.

(** What [find_start_micro_nodes] returns when it returns. *)
Definition start_micro_nodes (meso_node_id : Value) (meso_links micro_links : Frame)
  : list Value :=
  let meso_link_ids :=
    (λ r, cell r "link_id")
      <$> filter (λ r, veqb (cell r "from_node_id") meso_node_id = true)
            (rows meso_links) in
  let micro_subset :=
    filter (λ r, isin meso_link_ids (cell r "meso_link_id") = true)
      (rows micro_links) in
  set_difference (py_set ((λ r, cell r "from_node_id") <$> micro_subset))
                 (py_set ((λ r, cell r "to_node_id") <$> micro_subset)).

(** The rows that one TAZ row contributes to the map. *)
Definition micro_map_rows (taz_id : Value) (coords : list Row) : list (@dict num) :=
  (λ node, [("taz_id", taz_id); ("micro_node_id", cell node "node_id");
            ("x_coord", cell node "x_coord"); ("y_coord", cell node "y_coord")])
    <$> coords.

(** The run of [main] on the store that holds the five loaded frames at the
    references 0 to 4, as equations between the frames it goes through.  The
    frames allocated on the way are, in this order: the TAZ rows with their
    candidates (5), the TAZ-to-micro map (6), the copies that
    [reindex_nodes] takes (7, 8), the TAZ nodes (9) and the two connector
    frames (10, 11). *)
Inductive main_run (taz meso mesol micro microl : Frame)
  : Frame → Frame → @store num → Prop :=
  | MainRun cands tmap s1 s2 ls meso1 micro1 micro2 upd_meso upd_micro
      tn mc uc nodes_meso nodes_micro nodes_taz
      mesol1 mesol2 mesol3 microl1 microl2 microl3 microl4
      shift_connector uc' max_connector shift_micro
      final_nodes final_links all_links :
      (* steps 3 and 4 *)
      find_nearest_scc_nodes taz meso 1 = Ok cands →
      map_taz_to_micro_nodes cands mesol microl micro "candidate_node_id_1"
        = Ok tmap →
      (* prepare_and_generate_connectors *)
      compute_shifts cands meso = Ok (s1, s2, ls) →
      df_iadd meso "node_id" s1 = Ok meso1 →
      df_iadd micro "node_id" s2 = Ok micro1 →
      df_iadd micro1 "meso_link_id" ls = Ok micro2 →
      upd_meso = df_setitem meso1 "zone_id" (VStr "") →
      upd_micro = df_setitem micro2 "zone_id" (VStr "") →
      create_taz_nodes cands "TAZ_clean" = Ok tn →
      generate_meso_connectors cands upd_meso "candidate_node_id_1" "TAZ_clean" s1
        = Ok mc →
      generate_micro_connectors cands tmap micro "TAZ_clean" s2 1 = Ok uc →
      (* merge_network_layers *)
      nodes_meso = df_setitem upd_meso "layer" (VStr "meso") →
      nodes_micro = df_setitem upd_micro "layer" (VStr "micro") →
      nodes_taz = df_setitem tn "layer" (VStr "taz") →
      df_iadd (df_setitem mesol "layer" (VStr "meso")) "from_node_id" s1
        = Ok mesol1 →
      df_iadd mesol1 "to_node_id" s1 = Ok mesol2 →
      df_iadd mesol2 "link_id" ls = Ok mesol3 →
      df_iadd (df_setitem microl "layer" (VStr "micro")) "from_node_id" s2
        = Ok microl1 →
      df_iadd microl1 "to_node_id" s2 = Ok microl2 →
      df_iadd microl2 "meso_link_id" ls = Ok microl3 →
      col_max mesol3 "link_id" = Ok shift_connector →
      df_iadd uc "link_id" shift_connector = Ok uc' →
      col_max uc' "link_id" = Ok max_connector →
      vadd max_connector (VInt 1) = Ok shift_micro →
      df_iadd microl3 "link_id" shift_micro = Ok microl4 →
      project (pd_concat [nodes_taz; nodes_meso; nodes_micro])
          ["node_id"; "x"; "y"; "zone_id"; "layer"]
        ≫= (λ df, sort_values df ["node_id"]) = Ok final_nodes →
      all_links = pd_concat [mc; mesol3; uc'; microl4] →
      project all_links
          (ordered_cols ++ filter (λ col, col ∉ ordered_cols) (columns all_links))
        ≫= (λ df, sort_values df ["from_node_id"; "to_node_id"]) = Ok final_links →
      main_run taz meso mesol micro microl final_links final_nodes
        [taz; meso; mesol3; micro; microl4; cands; tmap;
         nodes_meso; nodes_micro; nodes_taz; mc; uc'].

End Specifications.


(** * Specifications of the connector frames and of the final tables *)

Section Specifications2.
Context {num : Type} `{F64 : Float64 num}.
Local Abbreviation Row := (gmap string (@value num)).
Local Abbreviation Value := (@value num).
Local Abbreviation Frame := (@DataFrame num).

(** The first row of [rs] whose [node_id] is [id] by [==]. *)
Definition first_with_id (rs : list Row) (id : Value) : option Row :=
  filter (λ r, veqb (cell r "node_id") id = true) rs !! 0%nat.

(** The first row of the TAZ table whose id is [taz_id] by [==]. *)
Definition first_taz (taz_df : Frame) (taz_id_col : string) (taz_id : Value)
  : option Row :=
  filter (λ r, veqb (cell r taz_id_col) taz_id = true) (rows taz_df) !! 0%nat.

(** The order of the final link table on the endpoints of two links: by
    [from_node_id], and by [to_node_id] between links that leave the same
    node. *)
Definition lex_le (p q : Z * Z) : Prop :=
  p.1 < q.1 ∨ (p.1 = q.1 ∧ p.2 ≤ q.2).

Definition is_int (v : Value) : bool :=
  match v with VInt _ => true | _ => false end.

(** No node is in two components. *)
Definition pairwise_disjoint (sccs : list (list Value)) : Prop :=
  ∀ (i j : nat) ci cj v,
    sccs !! i = Some ci → sccs !! j = Some cj → v ∈ ci → v ∈ cj → i = j.

(** Every key of the dict is an integer. *)
Definition int_keys (d : list (Value * Z)) : Prop :=
  Forall (λ kv : Value * Z, ∃ n, kv.1 = VInt n) d.

End Specifications2.
(** * Example networks

    Float64 cells are run with the integer instance.  The first network is
    the scenario of the specification: three meso nodes on a cycle and one
    isolated meso node, one TAZ at the origin whose nearest node is node 1,
    and the meso link out of node 1 divided into two micro links. *)

Module Examples.

Definition frame (cols : list string) (cells : list (list (@value Z)))
  : @DataFrame Z :=
  mkDF cols ((λ r, list_to_map (zip cols r)) <$> cells).

Definition taz_cols := ["TAZ_clean"; "x_coord"; "y_coord"].
Definition meso_node_cols := ["node_id"; "x_coord"; "y_coord"; "scc_id"].
Definition meso_link_cols := ["link_id"; "from_node_id"; "to_node_id"].
Definition micro_node_cols :=
  ["node_id"; "x_coord"; "y_coord"; "meso_link_id"; "lane_no"].
Definition micro_link_cols :=
  ["link_id"; "from_node_id"; "to_node_id"; "meso_link_id"; "lane_no"].

Definition taz_df := frame taz_cols [[VInt 1; VNum 0; VNum 0]].

Definition meso_nodes := frame meso_node_cols
  [[VInt 1; VNum 1; VNum 0; VInt 0];
   [VInt 2; VNum 5; VNum 0; VInt 0];
   [VInt 3; VNum 5; VNum 5; VInt 0];
   [VInt 4; VNum 9; VNum 9; VInt (-1)]].

Definition meso_links := frame meso_link_cols
  [[VInt 1; VInt 1; VInt 2];
   [VInt 2; VInt 2; VInt 3];
   [VInt 3; VInt 3; VInt 1]].

Definition micro_nodes := frame micro_node_cols
  [[VInt 1; VNum 1; VNum 0; VInt 1; VInt 1];
   [VInt 2; VNum 3; VNum 0; VInt 1; VInt 1];
   [VInt 3; VNum 5; VNum 0; VInt 1; VInt 1]].

Definition micro_links := frame micro_link_cols
  [[VInt 1; VInt 1; VInt 2; VInt 1; VInt 1];
   [VInt 2; VInt 2; VInt 3; VInt 1; VInt 1]].

Definition loaded : @store Z :=
  [taz_df; meso_nodes; meso_links; micro_nodes; micro_links].

(** The micro nodes are numbered from 0. *)
Definition micro_nodes_from_0 := frame micro_node_cols
  [[VInt 0; VNum 1; VNum 0; VInt 1; VInt 1];
   [VInt 1; VNum 3; VNum 0; VInt 1; VInt 1];
   [VInt 2; VNum 5; VNum 0; VInt 1; VInt 1]].

Definition micro_links_from_0 := frame micro_link_cols
  [[VInt 1; VInt 0; VInt 1; VInt 1; VInt 1];
   [VInt 2; VInt 1; VInt 2; VInt 1; VInt 1]].

(** No meso node is in component 0. *)
Definition meso_nodes_no_core := frame meso_node_cols
  [[VInt 1; VNum 1; VNum 0; VInt (-1)];
   [VInt 2; VNum 5; VNum 0; VInt (-1)]].

(** The columns of a frame, cell by cell. *)
Definition cells_of (cols : list string) (df : @DataFrame Z)
  : list (list (@value Z)) :=
  (λ r, (λ c, cell r c) <$> cols) <$> rows df.

(** The ids of the final table, by the kind of link. *)
Definition link_ids_where (keep : gmap string (@value Z) → bool)
    (df : @DataFrame Z) : list (@value Z) :=
  (λ r, cell r "link_id") <$> filter (λ r, keep r = true) (rows df).

Definition meso_connector (r : gmap string (@value Z)) : bool :=
  veqb (cell r "layer") (VStr "meso")
  && veqb (cell r "link_type_name") (VStr "connector").

Definition meso_link (r : gmap string (@value Z)) : bool :=
  veqb (cell r "layer") (VStr "meso")
  && negb (veqb (cell r "link_type_name") (VStr "connector")).

(** The frames that the connector generators receive in the run of the
    first network. *)
Definition candidates_1 : @DataFrame Z :=
  frame (taz_cols ++ ["candidate_node_id_1"]) [[VInt 1; VNum 0; VNum 0; VInt 1]].
Definition updated_meso_1 : @DataFrame Z :=
  frame (meso_node_cols ++ ["zone_id"])
    [[VInt 3; VNum 1; VNum 0; VInt 0; VStr ""];
     [VInt 4; VNum 5; VNum 0; VInt 0; VStr ""];
     [VInt 5; VNum 5; VNum 5; VInt 0; VStr ""];
     [VInt 6; VNum 9; VNum 9; VInt (-1); VStr ""]].
Definition taz_micro_map_1 : @DataFrame Z :=
  frame ["taz_id"; "micro_node_id"; "x_coord"; "y_coord"]
    [[VInt 1; VInt 1; VNum 1; VNum 0]].

End Examples.


(** * More example tables *)

Module MoreExamples.
Import Examples.

(** A TAZ table without rows. *)
Definition no_taz := frame taz_cols [].

(** Two TAZs with their candidates. *)
Definition two_candidates : @DataFrame Z :=
  frame (taz_cols ++ ["candidate_node_id_1"])
    [[VInt 1; VNum 0; VNum 0; VInt 1]; [VInt 2; VNum 4; VNum 0; VInt 2]].

(** A map that lists micro node 1 for both TAZs. *)
Definition shared_map : @DataFrame Z :=
  frame ["taz_id"; "micro_node_id"; "x_coord"; "y_coord"]
    [[VInt 1; VInt 1; VNum 1; VNum 0];
     [VInt 2; VInt 1; VNum 1; VNum 0];
     [VInt 2; VInt 2; VNum 3; VNum 0]].

(** A candidate that is no meso node. *)
Definition lost_candidate : @DataFrame Z :=
  frame (taz_cols ++ ["candidate_node_id_1"]) [[VInt 1; VNum 0; VNum 0; VInt 9]].

(** The meso nodes as the loader reads them, before step 2. *)
Definition meso_nodes_read := frame ["node_id"; "x_coord"; "y_coord"]
  [[VInt 1; VNum 1; VNum 0];
   [VInt 2; VNum 5; VNum 0];
   [VInt 3; VNum 5; VNum 5];
   [VInt 4; VNum 9; VNum 9]].

(** Meso links with two cycles: 5 -> 6 -> 5, which is listed first, and
    1 -> 2 -> 3 -> 1, joined by the link 3 -> 5. *)
Definition two_cycles := frame meso_link_cols
  [[VInt 1; VInt 5; VInt 6];
   [VInt 2; VInt 6; VInt 5];
   [VInt 3; VInt 1; VInt 2];
   [VInt 4; VInt 2; VInt 3];
   [VInt 5; VInt 3; VInt 1];
   [VInt 6; VInt 3; VInt 5]].

(** A meso link table without rows. *)
Definition no_links := frame meso_link_cols [].

(** A meso link table that lacks [to_node_id]. *)
Definition meso_links_short := frame ["link_id"; "from_node_id"]
  [[VInt 1; VInt 1]].

End MoreExamples.
(** * Properties *)

Section Properties.
Context {num : Type} `{F64 : Float64 num}.
Local Abbreviation Row := (gmap string (@value num)).
Local Abbreviation Value := (@value num).
Local Abbreviation Frame := (@DataFrame num).
Implicit Types (df : Frame) (r : Row) (v w : Value) (c : string).

(** ** The error monad *)

Lemma bind_Ok {A B} (m : result A) (f : A → result B) b :
  m ≫= f = Ok b ↔ ∃ a, m = Ok a ∧ f a = Ok b.
Proof.
  destruct m as [a|e]; simpl; split.
  - intros Hf. by exists a.
  - by intros (a' & [= <-] & Hf).
  - done.
  - by intros (a' & ? & _).
Qed.

Lemma fmap_Ok {A B} (m : result A) (f : A → B) b :
  f <$> m = Ok b ↔ ∃ a, m = Ok a ∧ b = f a.
Proof.
  destruct m as [a|e]; simpl; split.
  - intros [= <-]. by exists a.
  - by intros (a' & [= <-] & ->).
  - done.
  - by intros (a' & ? & _).
Qed.

(** Splits a hypothesis [x ← m; k = Ok b] into the steps that returned. *)
Ltac inv_ok H :=
  repeat match type of H with
  | Ok _ = Ok _ => injection H as H; subst
  | Raise _ = Ok _ => discriminate H
  | mret _ = Ok _ => injection H as H; subst
  | (_ ≫= _) = Ok _ =>
      let a := fresh "a" in let Ha := fresh "Hstep" in
      apply bind_Ok in H as (a & Ha & H)
  | (let '(_, _) := ?p in _) = Ok _ => destruct p
  | (if ?b then _ else _) = Ok _ =>
      let Hb := fresh "Hif" in destruct b eqn:Hb; [|try discriminate H]
  end.

Lemma mapM_result_Ok {A B} (f : A → result B) l bs :
  mapM_result f l = Ok bs ↔ Forall2 (λ a b, f a = Ok b) l bs.
Proof.
  revert bs. induction l as [|a l IH]; intros bs; simpl.
  - split; [intros [= <-]; constructor | by inversion 1].
  - rewrite bind_Ok. split.
    + intros (b & Hb & H). apply bind_Ok in H as (bs' & Hbs & [= <-]).
      constructor; [done | by apply IH].
    + inversion 1 as [|? b ? bs' Hb Hbs]; subst. exists b. split; [done|].
      apply bind_Ok. exists bs'. split; [by apply IH | done].
Qed.

(** ** Columns of the frames that the operations build *)

Lemma column_length df c : length (column df c) = length (rows df).
Proof. unfold column. by rewrite length_fmap. Qed.

Lemma getcol_Ok df c vs :
  getcol df c = Ok vs ↔ c ∈ columns df ∧ vs = column df c.
Proof.
  unfold getcol, has_column. case_bool_decide; split.
  - by intros [= <-].
  - by intros [_ ->].
  - done.
  - by intros [? _].
Qed.

Lemma getitem_Ok df r c v :
  getitem df r c = Ok v ↔ c ∈ columns df ∧ v = cell r c.
Proof.
  unfold getitem, has_column. case_bool_decide; split.
  - by intros [= <-].
  - by intros [_ ->].
  - done.
  - by intros [? _].
Qed.

Lemma where_eq_Ok df c v df' :
  where_eq df c v = Ok df' ↔
  c ∈ columns df ∧
  df' = mkDF (columns df) (filter (λ r, veqb (cell r c) v = true) (rows df)).
Proof.
  unfold where_eq, has_column. case_bool_decide; split.
  - by intros [= <-].
  - by intros [_ ->].
  - done.
  - by intros [? _].
Qed.

Lemma where_isin_Ok df c vs df' :
  where_isin df c vs = Ok df' ↔
  c ∈ columns df ∧
  df' = mkDF (columns df) (filter (λ r, isin vs (cell r c) = true) (rows df)).
Proof.
  unfold where_isin, has_column. case_bool_decide; split.
  - by intros [= <-].
  - by intros [_ ->].
  - done.
  - by intros [? _].
Qed.

Lemma iloc0_Ok df r : iloc0 df = Ok r ↔ rows df !! 0%nat = Some r.
Proof.
  unfold iloc0. destruct (rows df); simpl; split; try done; by intros [= <-].
Qed.

Lemma cell_insert r c c' v :
  cell (<[c := v]> r) c' = if decide (c = c') then v else cell r c'.
Proof.
  unfold cell. rewrite lookup_insert. by case_decide.
Qed.

Lemma column_df_setitem df c c' v :
  column (df_setitem df c v) c'
  = if decide (c = c') then (λ _, v) <$> rows df else column df c'.
Proof.
  unfold column, df_setitem. simpl. rewrite <-list_fmap_compose.
  case_decide as Hc.
  - apply list_fmap_ext. intros _ r _. simpl. rewrite cell_insert.
    by rewrite decide_True.
  - apply list_fmap_ext. intros _ r _. simpl. rewrite cell_insert.
    by rewrite decide_False.
Qed.

Lemma column_df_setitem_ne df c c' v :
  c ≠ c' → column (df_setitem df c v) c' = column df c'.
Proof. intros. rewrite column_df_setitem. by rewrite decide_False. Qed.

Lemma df_iadd_Ok df c v df' :
  df_iadd df c v = Ok df' ↔
  c ∈ columns df ∧ columns df' = columns df ∧
  Forall2 (λ r r', ∃ w, vadd (cell r c) v = Ok w ∧ r' = <[c := w]> r)
    (rows df) (rows df').
Proof.
  unfold df_iadd, has_column. case_bool_decide as Hc.
  - rewrite bind_Ok. split.
    + intros (rs & Hrs & [= <-]). split; [done|]. split; [done|]. simpl.
      apply mapM_result_Ok in Hrs. eapply Forall2_impl; [done|].
      intros r r' (w & Hw & [= <-])%bind_Ok. by exists w.
    + intros (_ & Hcols & Hrows). exists (rows df'). split.
      * apply mapM_result_Ok. eapply Forall2_impl; [done|].
        intros r r' (w & Hw & ->). apply bind_Ok. by exists w.
      * destruct df'. simpl in *. by subst.
  - split; [done | by intros [? _]].
Qed.

Lemma df_iadd_column_ne df c c' v df' :
  df_iadd df c v = Ok df' → c ≠ c' → column df' c' = column df c'.
Proof.
  intros (_ & _ & Hrows)%df_iadd_Ok Hne. unfold column.
  induction Hrows as [|r r' rs rs' (w & _ & ->) _ IH]; [done|].
  rewrite !fmap_cons, IH. f_equal. rewrite cell_insert. by rewrite decide_False.
Qed.

Lemma df_iadd_column df c v df' :
  df_iadd df c v = Ok df' →
  Forall2 (λ a b, vadd a v = Ok b) (column df c) (column df' c).
Proof.
  intros (_ & _ & Hrows)%df_iadd_Ok. unfold column.
  induction Hrows as [|r r' rs rs' (w & Hw & ->) _ IH]; [constructor|].
  rewrite !fmap_cons. constructor; [|done].
  rewrite cell_insert. by rewrite decide_True.
Qed.

Lemma df_iadd_length df c v df' :
  df_iadd df c v = Ok df' → length (rows df') = length (rows df).
Proof. intros (_ & _ & Hrows)%df_iadd_Ok. symmetry. by eapply Forall2_length. Qed.

(** Integer columns *)

Lemma vadd_int_column (zs : list Z) s (ws : list Value) :
  Forall2 (λ a b, vadd a (VInt s) = Ok b) (VInt <$> zs) ws →
  ws = VInt <$> ((λ z, z + s) <$> zs).
Proof.
  revert ws. induction zs as [|z zs IH]; intros ws;
    inversion 1 as [|???? Hz Hzs]; subst; [done|].
  simpl in Hz. injection Hz as <-. rewrite !fmap_cons. f_equal. by apply IH.
Qed.

Lemma df_iadd_int df c s df' zs :
  df_iadd df c (VInt s) = Ok df' →
  column df c = VInt <$> zs →
  column df' c = VInt <$> ((λ z, z + s) <$> zs).
Proof.
  intros Hadd%df_iadd_column Hzs. rewrite Hzs in Hadd.
  by apply vadd_int_column.
Qed.

(** The maximum of an integer column. *)
Lemma max_of_int (zs : list Z) (acc m : Value) :
  max_of acc (VInt <$> zs) = Ok m →
  match acc with
  | NaN =>
      match zs with
      | [] => m = NaN
      | _ => ∃ z, m = VInt z ∧ z ∈ zs ∧ ∀ y, y ∈ zs → y ≤ z
      end
  | VInt a =>
      ∃ z, m = VInt z ∧ (z = a ∨ z ∈ zs) ∧ a ≤ z ∧ ∀ y, y ∈ zs → y ≤ z
  | _ => True
  end.
Proof.
  revert acc. induction zs as [|z zs IH]; intros acc H.
  - injection H as <-. destruct acc as [a| | |]; try done.
    exists a. repeat split; [by left | lia |]. by intros y ?%elem_of_nil.
  - rewrite fmap_cons in H. simpl in H. apply bind_Ok in H as (acc' & Hacc & H).
    destruct acc as [a| | |]; try done.
    + simpl in Hacc. injection Hacc as <-.
      destruct (z <=? a) eqn:Hza; apply IH in H as (m' & -> & Hin & Hle & Hall);
        exists m'; (split; [done|]).
      * apply Z.leb_le in Hza. repeat split.
        -- destruct Hin; [by left | right; by right].
        -- done.
        -- intros y [->|?]%elem_of_cons; [lia | by apply Hall].
      * apply Z.leb_gt in Hza. repeat split.
        -- right. destruct Hin as [->|?]; [left | by right].
        -- lia.
        -- intros y [->|?]%elem_of_cons; [lia | by apply Hall].
    + simpl in Hacc. injection Hacc as <-.
      apply IH in H as (m' & -> & Hin & Hle & Hall). exists m'.
      repeat split.
      * destruct Hin as [->|?]; [left | by right].
      * intros y [->|?]%elem_of_cons; [lia | by apply Hall].
Qed.

Lemma col_max_int df c zs m :
  col_max df c = Ok m →
  column df c = VInt <$> zs →
  zs ≠ [] →
  ∃ z, m = VInt z ∧ z ∈ zs ∧ ∀ y, y ∈ zs → y ≤ z.
Proof.
  intros (vs & [_ ->]%getcol_Ok & H)%bind_Ok Hzs Hne. rewrite Hzs in H.
  apply max_of_int in H. by destruct zs.
Qed.

Lemma rows_pd_concat (dfs : list Frame) : rows (pd_concat dfs) = dfs ≫= rows.
Proof. done. Qed.

Lemma column_pd_concat (dfs : list Frame) c :
  column (pd_concat dfs) c = dfs ≫= (λ df, column df c).
Proof.
  unfold column. rewrite rows_pd_concat.
  induction dfs as [|df dfs IH]; [done|].
  rewrite !bind_cons, fmap_app. by f_equal.
Qed.

Lemma cell_filter_keys r (cs : list string) c :
  cell (filter (λ kv, kv.1 ∈ cs) r) c = if decide (c ∈ cs) then cell r c else NaN.
Proof.
  unfold cell. rewrite map_lookup_filter. destruct (r !! c) as [v|]; simpl.
  - case_decide.
    + by rewrite option_guard_True.
    + by rewrite option_guard_False.
  - by case_decide.
Qed.

Lemma project_Ok df cs df' :
  project df cs = Ok df' ↔
  cs ⊆ columns df ∧
  df' = mkDF cs ((λ r, filter (λ kv, kv.1 ∈ cs) r) <$> rows df).
Proof.
  unfold project. destruct (filter _ cs) as [|c l] eqn:Hf.
  - split.
    + intros [= <-]. split; [|done]. intros c Hc.
      destruct (decide (c ∈ columns df)) as [|Hn]; [done|].
      assert (c ∈ filter (λ c, c ∉ columns df) cs) as Hin
        by by apply list_elem_of_filter.
      rewrite Hf in Hin. by apply elem_of_nil in Hin.
    + by intros [_ ->].
  - split; [done|]. intros [Hsub _].
    assert (c ∈ filter (λ c, c ∉ columns df) cs) as [Hn Hc]%list_elem_of_filter
      by (rewrite Hf; left).
    destruct Hn. by apply Hsub.
Qed.

Lemma project_column df cs df' c :
  project df cs = Ok df' → c ∈ cs → column df' c = column df c.
Proof.
  intros [_ ->]%project_Ok Hc. unfold column. simpl.
  rewrite <-list_fmap_compose. apply list_fmap_ext. intros _ r _. simpl.
  rewrite cell_filter_keys. by rewrite decide_True.
Qed.

Lemma project_column_missing df cs df' c :
  project df cs = Ok df' → c ∉ cs → column df' c = (λ _, NaN) <$> rows df.
Proof.
  intros [_ ->]%project_Ok Hc. unfold column. simpl.
  rewrite <-list_fmap_compose. apply list_fmap_ext. intros _ r _. simpl.
  rewrite cell_filter_keys. by rewrite decide_False.
Qed.

(** Sorting permutes *)

Lemma insert_sorted_Permutation {A} (le : A → A → bool) x l :
  insert_sorted le x l ≡ₚ x :: l.
Proof.
  induction l as [|y l IH]; simpl; [done|].
  destruct (le x y); [done|]. rewrite IH. apply Permutation_swap.
Qed.

Lemma stable_sort_Permutation {A} (le : A → A → bool) l :
  stable_sort le l ≡ₚ l.
Proof.
  induction l as [|x l IH]; simpl; [done|].
  by rewrite insert_sorted_Permutation, IH.
Qed.

Lemma sort_values_Ok df by_ df' :
  sort_values df by_ = Ok df' ↔
  by_ ⊆ columns df ∧
  df' = mkDF (columns df) (stable_sort (rows_le by_) (rows df)).
Proof.
  unfold sort_values. destruct (filter _ by_) as [|c l] eqn:Hf.
  - split.
    + intros [= <-]. split; [|done]. intros c Hc.
      destruct (decide (c ∈ columns df)) as [|Hn]; [done|].
      assert (c ∈ filter (λ c, c ∉ columns df) by_) as Hin
        by by apply list_elem_of_filter.
      rewrite Hf in Hin. by apply elem_of_nil in Hin.
    + by intros [_ ->].
  - split; [done|]. intros [Hsub _].
    assert (c ∈ filter (λ c, c ∉ columns df) by_) as [Hn Hc]%list_elem_of_filter
      by (rewrite Hf; left).
    destruct Hn. by apply Hsub.
Qed.

Lemma sort_values_column df by_ df' c :
  sort_values df by_ = Ok df' → column df' c ≡ₚ column df c.
Proof.
  intros [_ ->]%sort_values_Ok. unfold column. simpl.
  by rewrite stable_sort_Permutation.
Qed.

(** The last two steps of [merge_network_layers] for either table. *)
Lemma project_sort_column (dfs : list Frame) cs by_ final c :
  project (pd_concat dfs) cs ≫= (λ df, sort_values df by_) = Ok final →
  c ∈ cs →
  column final c ≡ₚ dfs ≫= (λ df, column df c).
Proof.
  intros (df & Hp & Hs)%bind_Ok Hc.
  rewrite (sort_values_column _ _ _ _ Hs), (project_column _ _ _ _ Hp Hc).
  by rewrite column_pd_concat.
Qed.

(** ** The connector generators *)

Lemma rows_pd_DataFrame (records : list (@dict num)) :
  rows (pd_DataFrame records) = list_to_map <$> records.
Proof. done. Qed.

Lemma connector_pair_reverse link_id (taz_id node_id taz_x taz_y mx my : @value num) layer :
  ∃ fwd bwd,
    list_to_map <$> connector_pair link_id taz_id node_id taz_x taz_y mx my layer
      = [fwd; bwd] ∧
    reverse_pair fwd bwd ∧
    cell fwd "link_id" = VInt link_id ∧ cell bwd "link_id" = VInt (link_id + 1).
Proof.
  eexists _, _. split; [reflexivity|].
  split; [|by vm_compute].
  repeat split; try by vm_compute.
  exists taz_x, taz_y, mx, my. by vm_compute.
Qed.

Lemma paired_even (l : list Row) : paired l → Nat.Even (length l).
Proof.
  induction 1 as [|fwd bwd l _ _ [k Hk]]; [by exists 0%nat|].
  exists (S k). simpl. lia.
Qed.

Lemma paired_app (l1 l2 : list Row) : paired l1 → paired l2 → paired (l1 ++ l2).
Proof. induction 1; simpl; [done|]. intros. constructor; auto. Qed.

Lemma numbered_pairs_nil link_id : numbered_pairs link_id 0 [].
Proof. split; [constructor | done]. Qed.

Lemma numbered_pairs_cons link_id n (taz_id node_id taz_x taz_y mx my : Value) layer l :
  numbered_pairs (link_id + 2) n l →
  numbered_pairs link_id (S n)
    (connector_pair link_id taz_id node_id taz_x taz_y mx my layer ++ l).
Proof.
  intros [Hp Hn].
  destruct (connector_pair_reverse link_id taz_id node_id taz_x taz_y mx my layer)
    as (fwd & bwd & Hfb & Hrev & Hf & Hb).
  unfold numbered_pairs, column in *. rewrite rows_pd_DataFrame in *.
  rewrite fmap_app, Hfb. split; [by constructor|].
  replace (2 * Z.of_nat (S n)) with (Z.succ (Z.succ (2 * Z.of_nat n))) by lia.
  rewrite !seqZ_cons by lia. rewrite !Z.pred_succ, !fmap_cons.
  rewrite (fmap_app _ [fwd; bwd]), !fmap_cons, fmap_nil, Hf, Hb, Hn.
  simpl. repeat f_equal; lia.
Qed.

Lemma meso_connector_loop_numbered taz_df meso_nodes candidate_col taz_id_col
    (shift : Value) tazs link_id l :
  meso_connector_loop taz_df meso_nodes candidate_col taz_id_col shift tazs link_id
    = Ok l →
  numbered_pairs link_id (length tazs) l.
Proof.
  revert link_id l. induction tazs as [|row tazs IH]; intros link_id l H.
  - injection H as <-. apply numbered_pairs_nil.
  - cbn [meso_connector_loop] in H. inv_ok H.
    apply (numbered_pairs_cons link_id (length tazs) _ _ _ _ _ _ "meso").
    by apply IH.
Qed.

Lemma micro_connector_loop_numbered taz_df taz_micro_map taz_id_col
    (shift : Value) pairs link_id used l :
  micro_connector_loop taz_df taz_micro_map taz_id_col shift pairs link_id used
    = Ok l →
  ∃ n, numbered_pairs link_id n l.
Proof.
  revert link_id used l. induction pairs as [|row pairs IH]; intros link_id used l H.
  - injection H as <-. exists 0%nat. apply numbered_pairs_nil.
  - cbn [micro_connector_loop] in H. inv_ok H.
    + by eapply IH.
    + destruct (IH _ _ _ Hstep8) as [n Hn]. exists (S n).
      by apply (numbered_pairs_cons link_id n _ _ _ _ _ _ "micro").
Qed.

(** C8: a frame that [generate_meso_connectors] or
    [generate_micro_connectors] returns has an even number of rows, and its
    rows are consecutive forward/reverse pairs: the endpoints of the two
    links are exchanged, the geometry of the second is the line of the first
    between the same two points in the opposite order, and the lengths are
    equal. *)
Theorem connectors_are_reverse_pairs (df : Frame) :
  (∃ taz_df meso_nodes candidate_col taz_id_col shift,
      generate_meso_connectors taz_df meso_nodes candidate_col taz_id_col shift
        = Ok df) ∨
  (∃ taz_df taz_micro_map micro_nodes taz_id_col shift link_id,
      generate_micro_connectors taz_df taz_micro_map micro_nodes taz_id_col
        shift link_id = Ok df) →
  Nat.Even (length (rows df)) ∧ paired (rows df).
Proof.
  intros [(taz_df & meso_nodes & cc & tc & shift & H)
         |(taz_df & tmap & micro_nodes & tc & shift & link_id & H)].
  - unfold generate_meso_connectors in H. inv_ok H.
    apply meso_connector_loop_numbered in Hstep as [Hp _].
    split; [by apply paired_even | done].
  - unfold generate_micro_connectors in H. inv_ok H.
    apply micro_connector_loop_numbered in Hstep as [n [Hp _]].
    split; [by apply paired_even | done].
Qed.

(** ** The store monad *)

Lemma ST_bind_Ok {A B} (m : @ST num A) (f : A → @ST num B) σ b σ'' :
  (m ≫= f) σ = Ok (b, σ'') ↔ ∃ a σ', m σ = Ok (a, σ') ∧ f a σ' = Ok (b, σ'').
Proof.
  unfold mbind, ST_bind. destruct (m σ) as [[a σ']|e]; split.
  - intros Hf. by exists a, σ'.
  - by intros (a' & σ1 & [= <- <-] & Hf).
  - done.
  - by intros (a' & σ1 & ? & _).
Qed.

Lemma ST_ret_Ok {A} (a b : A) (σ σ' : @store num) :
  ST_ret A a σ = Ok (b, σ') ↔ b = a ∧ σ' = σ.
Proof. unfold ST_ret. split; [by intros [= <- <-] | by intros [-> ->]]. Qed.

Lemma lift_Ok {A} (m : result A) a (σ σ' : @store num) :
  lift m σ = Ok (a, σ') ↔ m = Ok a ∧ σ' = σ.
Proof.
  unfold lift. destruct m; split; try done.
  - by intros [= <- <-].
  - by intros [[= <-] ->].
  - by intros [? _].
Qed.

Lemma deref_Ok i df (σ σ' : @store num) :
  deref i σ = Ok (df, σ') ↔ σ !! i = Some df ∧ σ' = σ.
Proof.
  unfold deref. destruct (σ !! i); split; try done.
  - by intros [= <- <-].
  - by intros [[= <-] ->].
  - by intros [? _].
Qed.

Lemma alloc_Ok df i (σ σ' : @store num) :
  alloc df σ = Ok (i, σ') ↔ i = length σ ∧ σ' = σ ++ [df].
Proof. unfold alloc. split; [by intros [= <- <-] | by intros [-> ->]]. Qed.

Lemma copy_Ok i j (σ σ' : @store num) :
  copy i σ = Ok (j, σ') ↔ ∃ df, σ !! i = Some df ∧ j = length σ ∧ σ' = σ ++ [df].
Proof.
  unfold copy. rewrite ST_bind_Ok. split.
  - intros (df & σ1 & [? ->]%deref_Ok & [-> ->]%alloc_Ok). by exists df.
  - intros (df & ? & -> & ->). exists df, σ. by rewrite deref_Ok, alloc_Ok.
Qed.

Lemma setitem_Ok i c v u (σ σ' : @store num) :
  setitem i c v σ = Ok (u, σ') ↔
  ∃ df, σ !! i = Some df ∧ σ' = <[i := df_setitem df c v]> σ.
Proof.
  unfold setitem. rewrite ST_bind_Ok. split.
  - intros (df & σ1 & [? ->]%deref_Ok & [= <-]). by exists df.
  - intros (df & ? & ->). exists df, σ. rewrite deref_Ok. by destruct u.
Qed.

Lemma iadd_Ok i c v u (σ σ' : @store num) :
  iadd i c v σ = Ok (u, σ') ↔
  ∃ df df', σ !! i = Some df ∧ df_iadd df c v = Ok df' ∧ σ' = <[i := df']> σ.
Proof.
  unfold iadd. rewrite ST_bind_Ok. split.
  - intros (df & σ1 & [Hl ->]%deref_Ok & Hk).
    apply ST_bind_Ok in Hk as (df' & σ2 & [Hi ->]%lift_Ok & [= <-]).
    by exists df, df'.
  - intros (df & df' & ? & ? & ->). exists df, σ. rewrite deref_Ok.
    split; [done|]. apply ST_bind_Ok. exists df', σ. rewrite lift_Ok.
    by destruct u.
Qed.

(** Runs a hypothesis [prog σ = Ok (a, σ')] of the store monad step by step;
    with a store and references that are given, every lookup computes. *)
Ltac st_step H :=
  lazymatch type of H with
  | (_ ≫= _) _ = Ok _ =>
      let a := fresh "a" in let σ := fresh "σ" in let Ha := fresh "Hst" in
      apply ST_bind_Ok in H as (a & σ & Ha & H);
      repeat st_step Ha
  | ST_ret _ _ _ = Ok _ =>
      apply ST_ret_Ok in H as [H ->]; cbn [fst snd insert list_insert];
      first [ injection H as <- <- | subst ]
  | lift _ _ = Ok _ => apply lift_Ok in H as [H ->]
  | deref _ _ = Ok _ =>
      apply deref_Ok in H as [H ->];
      cbn [lookup list_lookup] in H; injection H as <-
  | alloc _ _ = Ok _ =>
      apply alloc_Ok in H as [-> ->]; cbn [length app] in *
  | copy _ _ = Ok _ =>
      let df := fresh "df" in let Hl := fresh "Hl" in
      apply copy_Ok in H as (df & Hl & -> & ->);
      cbn [lookup list_lookup] in Hl; injection Hl as <-; cbn [length app] in *
  | setitem _ _ _ _ = Ok _ =>
      let df := fresh "df" in let Hl := fresh "Hl" in
      apply setitem_Ok in H as (df & Hl & ->);
      cbn [lookup list_lookup] in Hl; injection Hl as <-;
      cbn [insert list_insert] in *
  | iadd _ _ _ _ = Ok _ =>
      let df := fresh "df" in let df' := fresh "df'" in
      let Hl := fresh "Hl" in let Hi := fresh "Hadd" in
      apply iadd_Ok in H as (df & df' & Hl & Hi & ->);
      cbn [lookup list_lookup] in Hl; injection Hl as <-;
      cbn [insert list_insert] in *
  | for_ (_ :: _) _ _ = Ok _ => cbn [for_] in H
  | for_ [] _ _ = Ok _ => cbn [for_] in H
  | (match ?p with pair _ _ => _ end) _ = Ok _ => destruct p
  | reindex_nodes _ _ _ _ _ _ = Ok _ => unfold reindex_nodes in H
  | prepare_and_generate_connectors _ _ _ _ _ _ _ = Ok _ =>
      unfold prepare_and_generate_connectors in H
  | merge_network_layers _ _ _ _ _ _ _ _ _ _ _ = Ok _ =>
      cbn [meso_connectors_df micro_connectors_df updated_meso_nodes
           updated_micro_nodes taz_nodes node_shift_meso node_shift_micro
           link_shift_meso] in H;
      unfold merge_network_layers in H
  | _ => progress unfold mret in H
  | _ => progress cbn [fst snd] in H
  end.

Lemma main_inv (taz meso mesol micro microl final_links final_nodes : Frame) σ' :
  main 0 1 2 3 4 [taz; meso; mesol; micro; microl]
    = Ok ((final_links, final_nodes), σ') →
  main_run taz meso mesol micro microl final_links final_nodes σ'.
Proof.
  intros H. unfold main in H. repeat st_step H.
  econstructor; eauto.
Qed.

Ltac invert_main H :=
  apply main_inv in H;
  destruct H as
    [cands tmap s1 s2 ls meso1 micro1 micro2 upd_meso upd_micro
       tn mc uc nodes_meso nodes_micro nodes_taz
       mesol1 mesol2 mesol3 microl1 microl2 microl3 microl4
       shift_connector uc' max_connector shift_micro
       final_nodes final_links all_links
       Hnearest Hmap Hshifts Hmeso1 Hmicro1 Hmicro2 Hupd_meso Hupd_micro
       Htn Hmc Huc Hnodes_meso Hnodes_micro Hnodes_taz
       Hmesol1 Hmesol2 Hmesol3 Hmicrol1 Hmicrol2 Hmicrol3
       Hshift_connector Huc' Hmax_connector Hshift_micro Hmicrol4
       Hfinal_nodes Hall_links Hfinal_links].

(** ** Dicts and the frames built from them *)

Lemma cell_list_to_map_cons (k : string) (v : Value) (d : dict) c :
  cell (list_to_map ((k, v) :: d)) c
  = if decide (k = c) then v else cell (list_to_map d) c.
Proof. rewrite list_to_map_cons. apply cell_insert. Qed.

Lemma cell_list_to_map_absent (d : @dict num) c :
  c ∉ d.*1 → cell (list_to_map d) c = NaN.
Proof. intros Hc. unfold cell. by rewrite not_elem_of_list_to_map_1. Qed.

Lemma cell_dict_replace (k : string) (v : Value) (d : dict) c :
  cell (list_to_map
          (map (λ kv, if bool_decide (kv.1 = k) then (k, v) else kv) d)) c
  = if decide (k = c ∧ k ∈ d.*1) then v else cell (list_to_map d) c.
Proof.
  induction d as [|[k' v'] d IH]; cbn [map].
  - rewrite decide_False; [done|]. intros [_ []%elem_of_nil].
  - rewrite fmap_cons. cbn [fst].
    case_bool_decide as Hk; subst;
      rewrite !cell_list_to_map_cons, IH; clear IH.
    + destruct (decide (k = c)) as [->|Hne].
      * rewrite decide_True; [done|]. split; [done | left].
      * rewrite decide_False by tauto. by rewrite decide_False by tauto.
    + destruct (decide (k' = c)) as [->|Hne].
      * by rewrite decide_False by (intros [? _]; congruence).
      * destruct (decide (k = c ∧ k ∈ d.*1)) as [[-> Hin]|Hn].
        -- rewrite decide_True; [done|]. split; [done | by right].
        -- rewrite decide_False; [done|]. intros [-> Hin]. apply Hn.
           split; [done|]. by apply elem_of_cons in Hin as [?|?].
Qed.

Lemma cell_dict_set (k : string) (v : Value) (d : dict) c :
  cell (list_to_map (dict_set k v d)) c
  = if decide (k = c) then v else cell (list_to_map d) c.
Proof.
  unfold dict_set. case_bool_decide as Hin.
  - rewrite cell_dict_replace. destruct (decide (k = c)) as [->|Hne].
    + by rewrite decide_True.
    + by rewrite decide_False by tauto.
  - unfold cell. rewrite list_to_map_app, lookup_union. simpl.
    rewrite insert_empty.
    destruct (decide (k = c)) as [->|Hne].
    + rewrite not_elem_of_list_to_map_1 by done.
      by rewrite lookup_singleton_eq.
    + rewrite lookup_singleton_ne by done.
      by destruct (list_to_map d !! c).
Qed.

Lemma cell_to_dict df r c :
  cell (list_to_map (to_dict df r)) c
  = if decide (c ∈ columns df) then cell r c else NaN.
Proof.
  unfold to_dict. induction (columns df) as [|k ks IH].
  - rewrite decide_False; [done | apply not_elem_of_nil].
  - rewrite fmap_cons, cell_list_to_map_cons, IH.
    destruct (decide (k = c)) as [->|Hne].
    + rewrite decide_True; [done | left].
    + destruct (decide (c ∈ ks)).
      * rewrite decide_True; [done | by right].
      * rewrite decide_False; [done|]. by intros [?|?]%elem_of_cons.
Qed.

Lemma candidate_column_head i :
  ∃ s, candidate_column i = String (Ascii.ascii_of_nat 99) s.
Proof. unfold candidate_column. eexists. reflexivity. Qed.

Lemma cell_add_candidates (row : dict) (node_ids : list Value) c :
  (∀ i, candidate_column i ≠ c) →
  cell (list_to_map (add_candidates row node_ids)) c = cell (list_to_map row) c.
Proof.
  intros Hc. unfold add_candidates. generalize (imap pair node_ids).
  intros l. revert row. induction l as [|[i v] l IH]; intros row; [done|].
  simpl. rewrite IH, cell_dict_set. by rewrite decide_False.
Qed.

Lemma candidate_column_not_TAZ_clean i : candidate_column i ≠ "TAZ_clean".
Proof. destruct (candidate_column_head i) as [s ->]. discriminate. Qed.

(** Every row of the frame that [find_nearest_scc_nodes] returns is a TAZ
    row with candidate columns added. *)
Lemma nearest_loop_rows taz_df k tazs (largest : Frame) l :
  nearest_loop taz_df k tazs largest = Ok l →
  Forall2 (λ taz d, ∃ ids, d = add_candidates (to_dict taz_df taz) ids) tazs l.
Proof.
  revert largest l. induction tazs as [|taz tazs IH]; intros largest l H.
  - injection H as <-. constructor.
  - cbn [nearest_loop] in H. inv_ok H. constructor; [by eexists | by eapply IH].
Qed.

Lemma find_nearest_scc_nodes_column taz_df meso_nodes k (cands : Frame) c :
  find_nearest_scc_nodes taz_df meso_nodes k = Ok cands →
  c ∈ columns taz_df → (∀ i, candidate_column i ≠ c) →
  column cands c = column taz_df c.
Proof.
  unfold find_nearest_scc_nodes. intros H Hc Hcand. inv_ok H.
  apply nearest_loop_rows in Hstep0. unfold column.
  rewrite rows_pd_DataFrame.
  induction Hstep0 as [|taz d tazs l [ids ->] _ IH]; [done|].
  rewrite !fmap_cons, IH. f_equal.
  rewrite cell_add_candidates, cell_to_dict by done. by rewrite decide_True.
Qed.

(** ** [find_start_micro_nodes] and [map_taz_to_micro_nodes] *)

Lemma isin_nil v : isin [] v = false.
Proof. done. Qed.

Lemma filter_isin_nil (rs : list Row) c :
  filter (λ r, isin [] (cell r c) = true) rs = [].
Proof. induction rs as [|r rs IH]; [done|]. by rewrite filter_cons_False. Qed.

Lemma find_start_micro_nodes_Ok (meso_node_id : Value) (meso_links micro_links : Frame)
    start_nodes :
  find_start_micro_nodes meso_node_id meso_links micro_links = Ok start_nodes ↔
  "from_node_id" ∈ columns meso_links ∧ "link_id" ∈ columns meso_links ∧
  "meso_link_id" ∈ columns micro_links ∧
  "from_node_id" ∈ columns micro_links ∧ "to_node_id" ∈ columns micro_links ∧
  start_nodes = start_micro_nodes meso_node_id meso_links micro_links.
Proof.
  unfold find_start_micro_nodes, start_micro_nodes. split.
  - intros H. inv_ok H.
    repeat match goal with
    | H : _ <$> _ = Ok _ |- _ => apply fmap_Ok in H as (? & [? ->]%getcol_Ok & ->)
    | H : where_eq _ _ _ = Ok _ |- _ => apply where_eq_Ok in H as [? ->]
    | H : getcol _ _ = Ok _ |- _ => apply getcol_Ok in H as [? ->]
    | H : where_isin _ _ _ = Ok _ |- _ => apply where_isin_Ok in H as [? ->]
    end.
    done.
  - intros (H1 & H2 & H3 & H4 & H5 & ->).
    apply bind_Ok. eexists. split; [by apply where_eq_Ok|].
    apply bind_Ok. eexists. split; [by apply getcol_Ok|].
    apply bind_Ok. eexists. split; [by apply where_isin_Ok|].
    apply bind_Ok. eexists. split.
    { apply fmap_Ok. eexists. split; [by apply getcol_Ok | done]. }
    apply bind_Ok. eexists. split.
    { apply fmap_Ok. eexists. split; [by apply getcol_Ok | done]. }
    done.
Qed.

Lemma find_start_micro_nodes_no_links (v : Value) (meso_links micro_links : Frame) sn :
  find_start_micro_nodes v meso_links micro_links = Ok sn →
  rows meso_links = [] → sn = [].
Proof.
  intros (_ & _ & _ & _ & _ & ->)%find_start_micro_nodes_Ok Hnil.
  unfold start_micro_nodes. rewrite Hnil. cbn zeta. rewrite filter_nil, fmap_nil.
  by rewrite filter_isin_nil.
Qed.

Lemma map_taz_to_micro_nodes_rows (cands mesol microl micro tmap : Frame) cc :
  map_taz_to_micro_nodes cands mesol microl micro cc = Ok tmap →
  ∃ results,
    rows tmap = list_to_map <$> concat results ∧
    Forall2 (λ row (result : list dict),
        ∃ start_nodes,
          find_start_micro_nodes (cell row cc) mesol microl = Ok start_nodes ∧
          result = micro_map_rows (cell row "TAZ_clean")
                     (filter (λ r, isin start_nodes (cell r "node_id") = true)
                        (rows micro)))
      (rows cands) results.
Proof.
  unfold map_taz_to_micro_nodes. intros H. inv_ok H.
  match goal with
  | H : mapM_result _ _ = Ok ?res |- _ =>
      exists res; split; [done|]; apply mapM_result_Ok in H;
      eapply Forall2_impl; [exact H|]; clear H
  end.
  intros row result H. simpl in H. inv_ok H.
  repeat match goal with
  | H : getitem _ _ _ = Ok _ |- _ => apply getitem_Ok in H as [_ ->]
  end.
  match goal with
  | H : find_start_micro_nodes _ _ _ = Ok ?sn |- _ => exists sn; split; [exact H|]
  end.
  match goal with
  | H : where_isin _ _ _ = Ok _ |- _ => apply where_isin_Ok in H as [_ ->]
  end.
  simpl in H. apply mapM_result_Ok in H. unfold micro_map_rows.
  induction H as [|node d nodes ds Hd _ IH]; [done|].
  rewrite fmap_cons, IH. f_equal. inv_ok Hd.
  repeat match goal with
  | H : getitem _ _ _ = Ok _ |- _ => apply getitem_Ok in H as [_ ->]
  end.
  done.
Qed.

Lemma map_taz_to_micro_nodes_no_links (cands mesol microl micro tmap : Frame) cc :
  map_taz_to_micro_nodes cands mesol microl micro cc = Ok tmap →
  rows mesol = [] → rows tmap = [].
Proof.
  intros (results & -> & Hall)%map_taz_to_micro_nodes_rows Hnil.
  assert (concat results = []) as ->; [|done].
  induction Hall as [|row result ? ? (sn & Hsn & ->) _ IH]; [done|].
  simpl. rewrite IH, app_nil_r.
  rewrite (find_start_micro_nodes_no_links _ _ _ _ Hsn Hnil).
  by rewrite filter_isin_nil.
Qed.

(** *** Sets of integer ids *)

Lemma existsb_veqb_int (acc : list Value) n :
  Forall (λ v, ∃ m, v = VInt m) acc →
  existsb (veqb (VInt n)) acc = true ↔ VInt n ∈ acc.
Proof.
  intros Hint. rewrite existsb_exists. split.
  - intros (w & Hw%list_elem_of_In & Heq).
    rewrite Forall_forall in Hint. destruct (Hint _ Hw) as [m ->].
    simpl in Heq. apply Z.eqb_eq in Heq. by subst.
  - intros Hin. exists (VInt n). split; [by apply list_elem_of_In|].
    simpl. apply Z.eqb_refl.
Qed.

Lemma py_set_foldl (acc l : list Value) :
  Forall (λ v, ∃ m, v = VInt m) acc → Forall (λ v, ∃ m, v = VInt m) l →
  NoDup acc →
  let res := foldl (λ acc v, if existsb (veqb v) acc then acc else acc ++ [v]) acc l in
  NoDup res ∧ Forall (λ v, ∃ m, v = VInt m) res ∧ ∀ x, x ∈ res ↔ x ∈ acc ∨ x ∈ l.
Proof.
  revert acc. induction l as [|v l IH]; intros acc Hacc Hl Hnd; simpl.
  - split; [done|]. split; [done|]. intros x. rewrite elem_of_nil. tauto.
  - apply Forall_cons in Hl as [[n ->] Hl].
    destruct (existsb (veqb (VInt n)) acc) eqn:Hex.
    + apply existsb_veqb_int in Hex; [|done].
      destruct (IH acc Hacc Hl Hnd) as (? & ? & Hiff).
      split; [done|]. split; [done|]. intros x. rewrite Hiff, elem_of_cons.
      split; [tauto|]. intros [?|[->|?]]; tauto.
    + assert (VInt n ∉ acc) as Hnotin.
      { intros Hin%existsb_veqb_int; [congruence | done]. }
      destruct (IH (acc ++ [VInt n])) as (? & ? & Hiff).
      * apply Forall_app. split; [done|]. repeat constructor. by exists n.
      * done.
      * apply NoDup_app. split; [done|]. split; [|apply NoDup_singleton].
        intros x Hx ->%list_elem_of_singleton. done.
      * split; [done|]. split; [done|]. intros x.
        rewrite Hiff, elem_of_app, list_elem_of_singleton, elem_of_cons. tauto.
Qed.

Lemma py_set_int (l : list Value) :
  Forall (λ v, ∃ m, v = VInt m) l →
  NoDup (py_set l) ∧ Forall (λ v, ∃ m, v = VInt m) (py_set l) ∧
  ∀ x, x ∈ py_set l ↔ x ∈ l.
Proof.
  intros Hl. destruct (py_set_foldl [] l) as (? & ? & Hiff);
    [constructor | done | constructor |].
  split; [done|]. split; [done|]. intros x. unfold py_set. rewrite Hiff.
  rewrite elem_of_nil. tauto.
Qed.

Lemma filter_none {A} (P : A → Prop) `{∀ x, Decision (P x)} (l : list A) :
  (∀ x, x ∈ l → ¬ P x) → filter P l = [].
Proof.
  induction l as [|x l IH]; intros Hl; [done|].
  rewrite filter_cons_False by (apply Hl; left). apply IH.
  intros y Hy. apply Hl. by right.
Qed.

Lemma isin_true (vs : list Value) x :
  isin vs x = true ↔ ∃ w, w ∈ vs ∧ isin [w] x = true.
Proof.
  unfold isin. rewrite existsb_exists. split.
  - intros (w & Hw%list_elem_of_In & Heq). exists w. split; [done|].
    simpl. by rewrite Heq.
  - intros (w & Hw & Heq). exists w. split; [by apply list_elem_of_In|].
    simpl in Heq. by rewrite orb_false_r in Heq.
Qed.

Lemma elem_of_micro_subset (v : Value) (meso_links micro_links : Frame) r :
  r ∈ filter (λ r, isin ((λ r, cell r "link_id")
                           <$> filter (λ r, veqb (cell r "from_node_id") v = true)
                                 (rows meso_links))
                        (cell r "meso_link_id") = true) (rows micro_links)
  ↔ outgoing_micro_link v meso_links micro_links r.
Proof.
  unfold outgoing_micro_link. rewrite list_elem_of_filter, isin_true. split.
  - intros [(w & (l & -> & [Hl ?]%list_elem_of_filter)%list_elem_of_fmap & Hw) Hr].
    split; [done|]. by exists l.
  - intros [Hr (l & Hl & Hfrom & Hisin)]. split; [|done].
    exists (cell l "link_id"). split; [|done].
    apply list_elem_of_fmap. exists l. split; [done|].
    by apply list_elem_of_filter.
Qed.

(** C6: [find_start_micro_nodes] returns no node when no meso link leaves the
    given node or when no micro link divides such a meso link; and when the
    endpoints of the micro links that do are integers, it returns, each
    once, exactly the node ids that are the [from_node_id] of one of these
    micro links and the [to_node_id] of none of them. *)
Theorem find_start_micro_nodes_exact (meso_node_id : Value)
    (meso_links micro_links : Frame) start_nodes :
  find_start_micro_nodes meso_node_id meso_links micro_links = Ok start_nodes →
  ((∀ l, l ∈ rows meso_links →
         veqb (cell l "from_node_id") meso_node_id = false) →
   start_nodes = []) ∧
  ((∀ r, ¬ outgoing_micro_link meso_node_id meso_links micro_links r) →
   start_nodes = []) ∧
  ((∀ r, outgoing_micro_link meso_node_id meso_links micro_links r →
         ∃ a b, cell r "from_node_id" = VInt a ∧ cell r "to_node_id" = VInt b) →
   NoDup start_nodes ∧
   ∀ x, x ∈ start_nodes ↔
        ∃ n, x = VInt n ∧
             (∃ r, outgoing_micro_link meso_node_id meso_links micro_links r ∧
                   cell r "from_node_id" = VInt n) ∧
             ¬ (∃ r, outgoing_micro_link meso_node_id meso_links micro_links r ∧
                     cell r "to_node_id" = VInt n)).
Proof.
  intros (_ & _ & _ & _ & _ & ->)%find_start_micro_nodes_Ok.
  unfold start_micro_nodes. cbn zeta.
  set (subset := filter _ (rows micro_links)).
  assert (∀ r, r ∈ subset ↔ outgoing_micro_link meso_node_id meso_links micro_links r)
    as Hsubset by apply elem_of_micro_subset.
  assert ((∀ r, ¬ outgoing_micro_link meso_node_id meso_links micro_links r) →
          subset = []) as Hnone.
  { intros Hno. destruct subset as [|r rs]; [done|].
    destruct (Hno r). apply Hsubset. left. }
  split; [|split].
  - intros Hno. rewrite Hnone; [done|].
    intros r (_ & l & Hl & Hfrom & _). rewrite (Hno l Hl) in Hfrom. done.
  - intros Hno. by rewrite Hnone.
  - intros Hint.
    assert (Forall (λ v, ∃ m, v = VInt m) ((λ r, cell r "from_node_id") <$> subset))
      as Hfrom.
    { apply Forall_fmap, Forall_forall. intros r Hr%Hsubset.
      simpl. destruct (Hint r Hr) as (a & b & -> & _). by exists a. }
    assert (Forall (λ v, ∃ m, v = VInt m) ((λ r, cell r "to_node_id") <$> subset))
      as Hto.
    { apply Forall_fmap, Forall_forall. intros r Hr%Hsubset.
      simpl. destruct (Hint r Hr) as (a & b & _ & ->). by exists b. }
    destruct (py_set_int _ Hfrom) as (Hnd & Hfrom_int & Hfrom_iff).
    destruct (py_set_int _ Hto) as (_ & Hto_int & Hto_iff).
    unfold set_difference. split; [by apply NoDup_filter|].
    intros x. rewrite list_elem_of_filter, Hfrom_iff. split.
    + intros [Hex (r & -> & Hr)%list_elem_of_fmap].
      destruct (Hint r (proj1 (Hsubset r) Hr)) as (a & b & Ha & Hb).
      exists a. split; [done|]. split.
      * exists r. split; [by apply Hsubset | done].
      * intros (r' & Hr'%Hsubset & Hto').
        rewrite Ha in Hex. apply not_true_iff_false in Hex. apply Hex.
        apply existsb_veqb_int; [done|]. apply Hto_iff.
        apply list_elem_of_fmap. by exists r'.
    + intros (n & -> & (r & Hr%Hsubset & Hfrom') & Hnot). split.
      * apply not_true_iff_false. intros Hex%existsb_veqb_int; [|done].
        apply Hto_iff in Hex. apply list_elem_of_fmap in Hex as (r' & Hto' & Hr').
        apply Hnot. exists r'. split; [by apply Hsubset | done].
      * apply list_elem_of_fmap. by exists r.
Qed.

(** *** The TAZ-to-micro map *)

Lemma mapM_result_total {A B} (f : A → result B) (l : list A) :
  (∀ a, a ∈ l → ∃ b, f a = Ok b) → ∃ bs, mapM_result f l = Ok bs.
Proof.
  induction l as [|a l IH]; intros Hl; [by exists []|].
  destruct (Hl a) as [b Hb]; [left|].
  destruct IH as [bs Hbs]; [intros a' Ha'; apply Hl; by right|].
  exists (b :: bs). simpl. rewrite Hb. simpl. by rewrite Hbs.
Qed.

Lemma elem_of_concat {A} (x : A) (ls : list (list A)) :
  x ∈ concat ls ↔ ∃ l, x ∈ l ∧ l ∈ ls.
Proof.
  induction ls as [|l ls IH]; simpl.
  - split; [by intros ?%elem_of_nil | by intros (l & _ & ?%elem_of_nil)].
  - rewrite elem_of_app, IH. split.
    + intros [?|(l' & ? & ?)]; [exists l; split; [done | left]|].
      exists l'. split; [done | by right].
    + intros (l' & ? & [->|?]%elem_of_cons); [by left|]. right. by exists l'.
Qed.

Lemma cell_micro_map_row (taz_id : Value) (node : Row) :
  let out : Row :=
    list_to_map [("taz_id", taz_id); ("micro_node_id", cell node "node_id");
                 ("x_coord", cell node "x_coord"); ("y_coord", cell node "y_coord")] in
  cell out "taz_id" = taz_id ∧
  cell out "micro_node_id" = cell node "node_id" ∧
  cell out "x_coord" = cell node "x_coord" ∧
  cell out "y_coord" = cell node "y_coord".
Proof. by vm_compute. Qed.

(** C10: every row that [map_taz_to_micro_nodes] emits pairs a TAZ with a row
    of the micro node table whose [node_id] is among the start nodes found
    for that TAZ's candidate, so a start node without a row in the micro node
    table gives no row; and it gives no error either: when the columns that
    the function reads exist, it returns. *)
Theorem micro_map_rows_come_from_micro_nodes
    (taz_candidates meso_links micro_links micro_nodes : Frame) candidate_col :
  (∀ tmap,
     map_taz_to_micro_nodes taz_candidates meso_links micro_links micro_nodes
       candidate_col = Ok tmap →
     ∀ out, out ∈ rows tmap →
       ∃ row start_nodes node,
         row ∈ rows taz_candidates ∧
         find_start_micro_nodes (cell row candidate_col) meso_links micro_links
           = Ok start_nodes ∧
         node ∈ rows micro_nodes ∧
         isin start_nodes (cell node "node_id") = true ∧
         cell out "taz_id" = cell row "TAZ_clean" ∧
         cell out "micro_node_id" = cell node "node_id" ∧
         cell out "x_coord" = cell node "x_coord" ∧
         cell out "y_coord" = cell node "y_coord") ∧
  ("TAZ_clean" ∈ columns taz_candidates → candidate_col ∈ columns taz_candidates →
   "from_node_id" ∈ columns meso_links → "link_id" ∈ columns meso_links →
   "meso_link_id" ∈ columns micro_links →
   "from_node_id" ∈ columns micro_links → "to_node_id" ∈ columns micro_links →
   "node_id" ∈ columns micro_nodes →
   "x_coord" ∈ columns micro_nodes → "y_coord" ∈ columns micro_nodes →
   ∃ tmap,
     map_taz_to_micro_nodes taz_candidates meso_links micro_links micro_nodes
       candidate_col = Ok tmap).
Proof.
  split.
  - intros tmap (results & Hrows & Hall)%map_taz_to_micro_nodes_rows out Hout.
    rewrite Hrows in Hout. apply list_elem_of_fmap in Hout as (d & -> & Hd).
    apply elem_of_concat in Hd as (result & Hd & Hresult).
    apply list_elem_of_lookup in Hresult as [i Hi].
    destruct (Forall2_lookup_r _ _ _ _ _ Hall Hi) as (row & Hrow & sn & Hsn & ->).
    apply list_elem_of_fmap in Hd as (node & -> & [Hisin Hnode]%list_elem_of_filter).
    exists row, sn, node.
    split; [by eapply list_elem_of_lookup_2|]. split; [done|].
    split; [done|]. split; [done|]. apply cell_micro_map_row.
  - intros Htaz Hcc Hmf Hml Hum Huf Hut Hn Hx Hy.
    unfold map_taz_to_micro_nodes.
    destruct (mapM_result_total
      (λ row,
         taz_id ← getitem taz_candidates row "TAZ_clean";
         meso_node_id ← getitem taz_candidates row candidate_col;
         start_nodes ← find_start_micro_nodes meso_node_id meso_links micro_links;
         coords ← where_isin micro_nodes "node_id" start_nodes;
         mapM_result (λ node,
             node_id ← getitem coords node "node_id";
             x ← getitem coords node "x_coord";
             y ← getitem coords node "y_coord";
             Ok [("taz_id", taz_id); ("micro_node_id", node_id);
                 ("x_coord", x); ("y_coord", y)])
           (rows coords))
      (rows taz_candidates)) as [results Hresults].
    + intros row _.
      assert (∀ c, c ∈ columns taz_candidates →
                   getitem taz_candidates row c = Ok (cell row c)) as Hget
        by (intros c Hc; by apply getitem_Ok).
      rewrite !Hget by done. cbn [mbind result_bind].
      rewrite (proj2 (find_start_micro_nodes_Ok _ _ _ _)
                 (conj Hmf (conj Hml (conj Hum (conj Huf (conj Hut eq_refl)))))).
      cbn [mbind result_bind].
      rewrite (proj2 (where_isin_Ok _ _ _ _) (conj Hn eq_refl)).
      cbn [mbind result_bind rows].
      apply mapM_result_total. intros node _.
      assert (∀ df c r, c ∈ columns df → getitem df r c = Ok (cell r c)) as Hget'
        by (intros df c r Hc; by apply getitem_Ok).
      rewrite !Hget' by done. by eexists.
    + eexists. rewrite Hresults. reflexivity.
Qed.

(** ** Link ids of the meso connectors and of the meso links *)

Lemma generate_meso_connectors_ids taz_df meso_nodes candidate_col taz_id_col
    (shift : Value) conn :
  generate_meso_connectors taz_df meso_nodes candidate_col taz_id_col shift
    = Ok conn →
  column conn "link_id" = VInt <$> seqZ 1 (2 * len taz_df).
Proof.
  unfold generate_meso_connectors. intros H. inv_ok H.
  by apply meso_connector_loop_numbered in Hstep as [_ Hn].
Qed.

Lemma compute_shifts_link_shift taz_df meso_nodes (s1 s2 ls : Value) :
  compute_shifts taz_df meso_nodes = Ok (s1, s2, ls) →
  ls = VInt (2 * len taz_df + 1).
Proof.
  unfold compute_shifts. intros H. inv_ok H. f_equal. lia.
Qed.

Lemma nearest_loop_length taz_df k tazs (largest : Frame) l :
  nearest_loop taz_df k tazs largest = Ok l → length l = length tazs.
Proof.
  revert largest l. induction tazs as [|taz tazs IH]; intros largest l H.
  - by injection H as <-.
  - cbn [nearest_loop] in H. inv_ok H. simpl. f_equal. by eapply IH.
Qed.

Lemma find_nearest_scc_nodes_len taz_df meso_nodes k (cands : Frame) :
  find_nearest_scc_nodes taz_df meso_nodes k = Ok cands →
  len cands = len taz_df.
Proof.
  unfold find_nearest_scc_nodes. intros H. inv_ok H.
  apply nearest_loop_length in Hstep0. unfold len.
  rewrite rows_pd_DataFrame, length_fmap. by f_equal.
Qed.

(** C9: [generate_meso_connectors] numbers the links it emits 1, 2, ..., 2T
    for a TAZ table of T rows; [compute_shifts] returns 2T + 1 as
    [link_shift_meso]; and in a run of [main] the connector frame keeps these
    ids while [merge_network_layers] adds 2T + 1 to every link id of the meso
    link frame it was given, so that a meso link whose id was not negative
    ends above every meso connector. *)
Theorem meso_connector_ids_stay_below_meso_links :
  (∀ (taz_df meso_nodes : Frame) candidate_col taz_id_col shift conn,
     generate_meso_connectors taz_df meso_nodes candidate_col taz_id_col shift
       = Ok conn →
     column conn "link_id" = VInt <$> seqZ 1 (2 * len taz_df)) ∧
  (∀ (taz_df meso_nodes : Frame) s1 s2 ls,
     compute_shifts taz_df meso_nodes = Ok (s1, s2, ls) →
     ls = VInt (2 * len taz_df + 1)) ∧
  (∀ (taz meso mesol micro microl final_links final_nodes : Frame) σ',
     main 0 1 2 3 4 [taz; meso; mesol; micro; microl]
       = Ok ((final_links, final_nodes), σ') →
     ∃ connectors mesol',
       σ' !! 10%nat = Some connectors ∧ σ' !! 2%nat = Some mesol' ∧
       column connectors "link_id" = VInt <$> seqZ 1 (2 * len taz) ∧
       Forall2 (λ old new, vadd old (VInt (2 * len taz + 1)) = Ok new)
         (column mesol "link_id") (column mesol' "link_id") ∧
       ∀ (i : nat) (old connector_id : Z),
         column mesol "link_id" !! i = Some (VInt old) → 0 ≤ old →
         VInt connector_id ∈ column connectors "link_id" →
         column mesol' "link_id" !! i = Some (VInt (old + (2 * len taz + 1))) ∧
         connector_id < old + (2 * len taz + 1)).
Proof.
  split; [|split].
  - apply generate_meso_connectors_ids.
  - apply compute_shifts_link_shift.
  - intros taz meso mesol micro microl fl fn σ' Hmain. invert_main Hmain.
    exists mc, mesol3. split; [done|]. split; [done|].
    pose proof (find_nearest_scc_nodes_len _ _ _ _ Hnearest) as Hlen.
    pose proof (generate_meso_connectors_ids _ _ _ _ _ _ Hmc) as Hids.
    pose proof (compute_shifts_link_shift _ _ _ _ _ Hshifts) as ->.
    rewrite Hlen in *.
    assert (Forall2 (λ old new, vadd old (VInt (2 * len taz + 1)) = Ok new)
              (column mesol "link_id") (column mesol3 "link_id")) as Hshift.
    { pose proof (df_iadd_column _ _ _ _ Hmesol3) as Hc.
      rewrite (df_iadd_column_ne _ _ "link_id" _ _ Hmesol2) in Hc by done.
      rewrite (df_iadd_column_ne _ _ "link_id" _ _ Hmesol1) in Hc by done.
      by rewrite column_df_setitem_ne in Hc by done. }
    split; [done|]. split; [done|].
    intros i old k Hi Hold Hc.
    rewrite Hids in Hc. apply list_elem_of_fmap in Hc as (c' & [= <-] & Hc).
    apply elem_of_seqZ in Hc. split; [|lia].
    destruct (Forall2_lookup_l _ _ _ _ _ Hshift Hi) as (new & Hnew & Hadd).
    simpl in Hadd. by injection Hadd as <-.
Qed.

(** ** The link ids of a run *)

Lemma columns_pd_DataFrame_nil : columns (pd_DataFrame ([] : list (@dict num))) = [].
Proof. done. Qed.

Lemma generate_micro_connectors_ids taz_df tmap micro_nodes taz_id_col
    (shift : Value) link_id uc :
  generate_micro_connectors taz_df tmap micro_nodes taz_id_col shift link_id
    = Ok uc →
  ∃ n : nat,
    column uc "link_id" = VInt <$> seqZ link_id (2 * Z.of_nat n) ∧
    (n = 0%nat → columns uc = []).
Proof.
  unfold generate_micro_connectors. intros H. inv_ok H.
  apply micro_connector_loop_numbered in Hstep as [n [_ Hn]].
  exists n. split; [done|]. intros ->.
  apply (f_equal length) in Hn. rewrite column_length in Hn.
  rewrite rows_pd_DataFrame, length_fmap in Hn. simpl in Hn.
  by destruct a.
Qed.

Lemma shift_seqZ m s n : (λ z, z + s) <$> seqZ m n = seqZ (s + m) n.
Proof.
  rewrite <-fmap_add_seqZ. apply list_fmap_ext. intros _ z _. simpl. lia.
Qed.

Lemma main_link_ids (taz meso mesol micro microl final_links final_nodes : Frame)
    σ' (ml ul : list Z) :
  main 0 1 2 3 4 [taz; meso; mesol; micro; microl]
    = Ok ((final_links, final_nodes), σ') →
  column mesol "link_id" = VInt <$> ml → ml ≠ [] →
  column microl "link_id" = VInt <$> ul →
  ∃ (n : nat) (top : Z) mc mesol' uc' microl',
    σ' !! 10%nat = Some mc ∧ σ' !! 2%nat = Some mesol' ∧
    σ' !! 11%nat = Some uc' ∧ σ' !! 4%nat = Some microl' ∧
    column final_links "link_id"
      ≡ₚ column mc "link_id" ++ column mesol' "link_id"
           ++ column uc' "link_id" ++ column microl' "link_id" ∧
    column mc "link_id" = VInt <$> seqZ 1 (2 * len taz) ∧
    column mesol' "link_id" = VInt <$> ((λ z, z + (2 * len taz + 1)) <$> ml) ∧
    top ∈ (λ z, z + (2 * len taz + 1)) <$> ml ∧
    (∀ z, z ∈ ml → z + (2 * len taz + 1) ≤ top) ∧
    (0 < n)%nat ∧
    column uc' "link_id" = VInt <$> seqZ (top + 1) (2 * Z.of_nat n) ∧
    column microl' "link_id"
      = VInt <$> ((λ z, z + (top + 2 * Z.of_nat n + 1)) <$> ul).
Proof.
  intros Hmain Hml Hne Hul. invert_main Hmain.
  pose proof (find_nearest_scc_nodes_len _ _ _ _ Hnearest) as Hlen.
  pose proof (generate_meso_connectors_ids _ _ _ _ _ _ Hmc) as Hids.
  pose proof (compute_shifts_link_shift _ _ _ _ _ Hshifts) as ->.
  rewrite Hlen in *. set (T := len taz) in *.
  (* meso links *)
  assert (column mesol3 "link_id" = VInt <$> ((λ z, z + (2 * T + 1)) <$> ml))
    as Hmesol.
  { apply (df_iadd_int _ _ _ _ _ Hmesol3).
    rewrite (df_iadd_column_ne _ _ "link_id" _ _ Hmesol2) by done.
    rewrite (df_iadd_column_ne _ _ "link_id" _ _ Hmesol1) by done.
    by rewrite column_df_setitem_ne by done. }
  destruct (col_max_int _ _ _ _ Hshift_connector Hmesol)
    as (top & -> & Htop & Hmax).
  { by destruct ml. }
  (* micro connectors *)
  destruct (generate_micro_connectors_ids _ _ _ _ _ _ _ Huc) as (n & Hn & Hn0).
  assert (0 < n)%nat as Hpos.
  { destruct n; [|lia]. apply df_iadd_Ok in Huc' as [Hin _].
    rewrite Hn0 in Hin by done. by apply elem_of_nil in Hin. }
  pose proof (df_iadd_int _ _ _ _ _ Huc' Hn) as Huc_ids.
  rewrite shift_seqZ in Huc_ids.
  destruct (col_max_int _ _ _ _ Hmax_connector Huc_ids)
    as (last & -> & Hlast & Hlast_max).
  { intros Hnil%(f_equal length). rewrite length_seqZ in Hnil. simpl in Hnil. lia. }
  assert (last = top + 2 * Z.of_nat n) as ->.
  { apply elem_of_seqZ in Hlast.
    specialize (Hlast_max (top + 2 * Z.of_nat n)).
    rewrite elem_of_seqZ in Hlast_max. lia. }
  simpl in Hshift_micro. injection Hshift_micro as <-.
  (* micro links *)
  assert (column microl4 "link_id"
          = VInt <$> ((λ z, z + (top + 2 * Z.of_nat n + 1)) <$> ul)) as Hmicrol.
  { apply (df_iadd_int _ _ _ _ _ Hmicrol4).
    rewrite (df_iadd_column_ne _ _ "link_id" _ _ Hmicrol3) by done.
    rewrite (df_iadd_column_ne _ _ "link_id" _ _ Hmicrol2) by done.
    rewrite (df_iadd_column_ne _ _ "link_id" _ _ Hmicrol1) by done.
    by rewrite column_df_setitem_ne by done. }
  exists n, top, mc, mesol3, uc', microl4.
  repeat (split; [done|]).
  split.
  { subst all_links.
    rewrite (project_sort_column _ _ _ _ "link_id" Hfinal_links) by (by left).
    simpl. by rewrite app_nil_r. }
  split; [done|]. split; [done|]. split; [done|].
  split.
  { intros z Hz. apply Hmax. apply list_elem_of_fmap. by exists z. }
  split; [done|]. split; [|done].
  done.
Qed.

(** ** The node ids of a run *)

Lemma create_taz_nodes_column taz_df taz_id_col (tn : Frame) :
  create_taz_nodes taz_df taz_id_col = Ok tn →
  column tn "node_id" = column taz_df taz_id_col.
Proof.
  unfold create_taz_nodes. intros H. inv_ok H. unfold column. cbn [rows].
  rewrite <-list_fmap_compose. apply list_fmap_ext. intros _ r _.
  unfold compose. rewrite cell_insert. by rewrite decide_True.
Qed.

Lemma compute_shifts_int taz_df meso_nodes (s1 s2 ls : Value) (tz mz : list Z) :
  compute_shifts taz_df meso_nodes = Ok (s1, s2, ls) →
  column taz_df "TAZ_clean" = VInt <$> tz → tz ≠ [] →
  column meso_nodes "node_id" = VInt <$> mz → mz ≠ [] →
  ∃ max_taz max_meso,
    max_taz ∈ tz ∧ (∀ z, z ∈ tz → z ≤ max_taz) ∧
    max_meso ∈ mz ∧ (∀ z, z ∈ mz → z ≤ max_meso) ∧
    s1 = VInt (max_taz + 1) ∧ s2 = VInt (max_taz + 1 + max_meso).
Proof.
  unfold compute_shifts. intros H Htz Htz_ne Hmz Hmz_ne. inv_ok H.
  destruct (col_max_int _ _ _ _ Hstep Htz Htz_ne) as (max_taz & -> & ? & ?).
  destruct (col_max_int _ _ _ _ Hstep1 Hmz Hmz_ne) as (max_meso & -> & ? & ?).
  simpl in Hstep0. injection Hstep0 as <-.
  simpl in Hstep2. injection Hstep2 as <-.
  by exists max_taz, max_meso.
Qed.

Lemma main_node_ids (taz meso mesol micro microl final_links final_nodes : Frame)
    σ' (tz mz uz : list Z) :
  main 0 1 2 3 4 [taz; meso; mesol; micro; microl]
    = Ok ((final_links, final_nodes), σ') →
  "TAZ_clean" ∈ columns taz →
  column taz "TAZ_clean" = VInt <$> tz → tz ≠ [] →
  column meso "node_id" = VInt <$> mz → mz ≠ [] →
  column micro "node_id" = VInt <$> uz →
  ∃ max_taz max_meso,
    max_taz ∈ tz ∧ (∀ z, z ∈ tz → z ≤ max_taz) ∧
    max_meso ∈ mz ∧ (∀ z, z ∈ mz → z ≤ max_meso) ∧
    column final_nodes "node_id"
      ≡ₚ VInt <$> (tz ++ ((λ z, z + (max_taz + 1)) <$> mz)
                      ++ ((λ z, z + (max_taz + 1 + max_meso)) <$> uz)).
Proof.
  intros Hmain Hcol Htz Htz_ne Hmz Hmz_ne Huz. invert_main Hmain.
  assert (column cands "TAZ_clean" = VInt <$> tz) as Hcands.
  { rewrite <-Htz. eapply find_nearest_scc_nodes_column; [done..|].
    apply candidate_column_not_TAZ_clean. }
  destruct (compute_shifts_int _ _ _ _ _ _ _ Hshifts Hcands Htz_ne Hmz Hmz_ne)
    as (max_taz & max_meso & ? & ? & ? & ? & -> & ->).
  exists max_taz, max_meso. repeat (split; [done|]).
  rewrite (project_sort_column _ _ _ _ "node_id" Hfinal_nodes) by (by left).
  simpl. rewrite app_nil_r, !fmap_app. subst.
  rewrite !column_df_setitem_ne by done.
  rewrite (create_taz_nodes_column _ _ _ Htn), Hcands.
  rewrite (df_iadd_int _ _ _ _ _ Hmeso1 Hmz).
  rewrite (df_iadd_column_ne _ _ "node_id" _ _ Hmicro2) by done.
  by rewrite (df_iadd_int _ _ _ _ _ Hmicro1 Huz).
Qed.

(** ** What a completed run says about its input *)

Lemma elem_of_union_keys (ks : list string) (d : @dict num) c :
  c ∈ union_keys ks d ↔ c ∈ ks ∨ c ∈ d.*1.
Proof.
  unfold union_keys. rewrite elem_of_app, list_elem_of_filter, elem_of_remove_dups.
  destruct (decide (c ∈ ks)); tauto.
Qed.

Lemma elem_of_columns_pd_DataFrame (l : list (@dict num)) c :
  c ∈ columns (pd_DataFrame l) ↔ ∃ d, d ∈ l ∧ c ∈ d.*1.
Proof.
  unfold pd_DataFrame. cbn [columns].
  assert (∀ ks, c ∈ foldl union_keys ks l ↔ c ∈ ks ∨ ∃ d, d ∈ l ∧ c ∈ d.*1) as H.
  { induction l as [|d l IH]; intros ks; simpl.
    - split; [by left|]. intros [?|(d & []%elem_of_nil & _)]; done.
    - rewrite IH, elem_of_union_keys. split.
      + intros [[?|?]|(d' & ? & ?)]; [by left | right..].
        * exists d. split; [left | done].
        * exists d'. split; [by right | done].
      + intros [?|(d' & [->|?]%elem_of_cons & ?)]; [by left; left | by left; right |].
        right. by exists d'. }
  rewrite H. split; [|by right]. by intros [[]%elem_of_nil|?].
Qed.

Lemma elem_of_keys_dict_set (k : string) (v : Value) (d : dict) c :
  c ∈ (dict_set k v d).*1 → c = k ∨ c ∈ d.*1.
Proof.
  unfold dict_set. case_bool_decide as Hin.
  - clear Hin. induction d as [|[k0 v0] d IH]; cbn [map]; [by right|].
    rewrite !fmap_cons. cbn [fst].
    case_bool_decide; cbn [fst]; intros [->|Hc]%elem_of_cons.
    + by left.
    + destruct (IH Hc); [by left | right; by right].
    + right; left.
    + destruct (IH Hc); [by left | right; by right].
  - rewrite fmap_app, elem_of_app. simpl. rewrite list_elem_of_singleton. tauto.
Qed.

Lemma elem_of_keys_add_candidates (row : dict) (ids : list Value) c :
  c ∈ (add_candidates row ids).*1 → c ∈ row.*1 ∨ ∃ i, c = candidate_column i.
Proof.
  unfold add_candidates. generalize (imap pair ids). intros l. revert row.
  induction l as [|[i v] l IH]; intros row; simpl; [by left|].
  intros [[->|?]%elem_of_keys_dict_set|?]%IH; eauto.
Qed.

Lemma keys_to_dict df r : (to_dict df r).*1 = columns df.
Proof.
  unfold to_dict. rewrite <-list_fmap_compose. apply list_fmap_id.
Qed.

Lemma find_nearest_scc_nodes_has_column taz_df meso_nodes k (cands : Frame) c :
  find_nearest_scc_nodes taz_df meso_nodes k = Ok cands →
  c ∈ columns cands → (∀ i, candidate_column i ≠ c) → c ∈ columns taz_df.
Proof.
  unfold find_nearest_scc_nodes. intros H Hc Hcand. inv_ok H.
  apply nearest_loop_rows in Hstep0.
  apply elem_of_columns_pd_DataFrame in Hc as (d & Hd & Hc).
  apply list_elem_of_lookup in Hd as [i Hi].
  destruct (Forall2_lookup_r _ _ _ _ _ Hstep0 Hi) as (taz & _ & ids & ->).
  apply elem_of_keys_add_candidates in Hc as [Hc|[j ->]].
  - by rewrite keys_to_dict in Hc.
  - by destruct (Hcand j).
Qed.

Lemma col_max_has_column df c m : col_max df c = Ok m → c ∈ columns df.
Proof. by intros (vs & [? _]%getcol_Ok & _)%bind_Ok. Qed.

Lemma map_taz_to_micro_nodes_nil (cands mesol microl micro tmap : Frame) cc :
  map_taz_to_micro_nodes cands mesol microl micro cc = Ok tmap →
  rows cands = [] → rows tmap = [].
Proof.
  unfold map_taz_to_micro_nodes. intros H Hnil. rewrite Hnil in H.
  simpl in H. by injection H as <-.
Qed.

Lemma generate_micro_connectors_nil (taz_df tmap micro uc : Frame) tc
    (shift : Value) link_id :
  generate_micro_connectors taz_df tmap micro tc shift link_id = Ok uc →
  rows tmap = [] → columns uc = [].
Proof.
  unfold generate_micro_connectors. intros H Hnil. rewrite Hnil in H.
  simpl in H. by injection H as <-.
Qed.

Lemma generate_meso_connectors_nonempty (taz_df meso_nodes conn : Frame)
    cc tc (shift : Value) :
  generate_meso_connectors taz_df meso_nodes cc tc shift = Ok conn →
  rows taz_df ≠ [] → rows meso_nodes ≠ [].
Proof.
  unfold generate_meso_connectors. intros H Hne. inv_ok H.
  destruct (rows taz_df) as [|row tazs]; [done|].
  cbn [meso_connector_loop] in Hstep. inv_ok Hstep.
  match goal with
  | H1 : where_eq meso_nodes _ _ = Ok ?f, H2 : iloc0 ?f = Ok _ |- _ =>
      apply where_eq_Ok in H1 as [_ ->]; apply iloc0_Ok in H2; simpl in H2;
      intros Hnil; by rewrite Hnil in H2
  end.
Qed.

(** A run that completes had at least one TAZ and one meso node, and the
    TAZ table had its [TAZ_clean] column. *)
Lemma main_nonempty (taz meso mesol micro microl final_links final_nodes : Frame)
    σ' :
  main 0 1 2 3 4 [taz; meso; mesol; micro; microl]
    = Ok ((final_links, final_nodes), σ') →
  "TAZ_clean" ∈ columns taz ∧ rows taz ≠ [] ∧ rows meso ≠ [] ∧ rows mesol ≠ [].
Proof.
  intros Hmain. invert_main Hmain.
  assert (rows tmap ≠ []) as Htmap.
  { intros Htmap.
    pose proof (generate_micro_connectors_nil _ _ _ _ _ _ _ Huc Htmap) as Hcols.
    apply df_iadd_Ok in Huc' as [Hin _]. rewrite Hcols in Hin.
    by apply elem_of_nil in Hin. }
  assert (rows cands ≠ []) as Hcands.
  { intros Hnil. apply Htmap.
    by apply (map_taz_to_micro_nodes_nil _ _ _ _ _ _ Hmap). }
  split; [|split; [|split]].
  - eapply find_nearest_scc_nodes_has_column; [done| |].
    + unfold compute_shifts in Hshifts. inv_ok Hshifts.
      by eapply col_max_has_column.
    + apply candidate_column_not_TAZ_clean.
  - pose proof (find_nearest_scc_nodes_len _ _ _ _ Hnearest) as Hlen.
    unfold len in Hlen. intros Hnil. rewrite Hnil in Hlen.
    by destruct (rows cands).
  - pose proof (generate_meso_connectors_nonempty _ _ _ _ _ _ Hmc Hcands) as Hm.
    subst upd_meso. intros Hnil. apply Hm.
    apply df_iadd_length in Hmeso1. rewrite Hnil in Hmeso1.
    unfold df_setitem. simpl. by destruct (rows meso1).
  - intros Hnil. apply Htmap.
    by apply (map_taz_to_micro_nodes_no_links _ _ _ _ _ _ Hmap).
Qed.

(** ** Uniqueness of the final ids *)

Lemma NoDup_blocks (l1 l2 l3 l4 : list Z) (b1 b2 b3 : Z) :
  NoDup l1 → NoDup l2 → NoDup l3 → NoDup l4 →
  b1 ≤ b2 ≤ b3 →
  (∀ z, z ∈ l1 → z ≤ b1) →
  (∀ z, z ∈ l2 → b1 < z ≤ b2) →
  (∀ z, z ∈ l3 → b2 < z ≤ b3) →
  (∀ z, z ∈ l4 → b3 < z) →
  NoDup (l1 ++ l2 ++ l3 ++ l4).
Proof.
  intros N1 N2 N3 N4 Hb H1 H2 H3 H4.
  repeat (apply NoDup_app; split; [done|]; split; [|try done]).
  - intros z Hz1 [Hz|[Hz|Hz]%elem_of_app]%elem_of_app;
      specialize (H1 _ Hz1); [apply H2 in Hz | apply H3 in Hz | apply H4 in Hz]; lia.
  - intros z Hz2 [Hz|Hz]%elem_of_app;
      specialize (H2 _ Hz2); [apply H3 in Hz | apply H4 in Hz]; lia.
  - intros z Hz3 Hz. specialize (H3 _ Hz3). apply H4 in Hz. lia.
Qed.

Lemma NoDup_shift (l : list Z) s : NoDup l → NoDup ((λ z, z + s) <$> l).
Proof. apply NoDup_fmap_2_strong. intros x y _ _ ?. lia. Qed.

Lemma elem_of_shift (l : list Z) s z :
  z ∈ (λ z, z + s) <$> l ↔ ∃ y, z = y + s ∧ y ∈ l.
Proof. apply list_elem_of_fmap. Qed.

Lemma VInt_inj_NoDup (l : list Z) : NoDup l → NoDup (@VInt num <$> l).
Proof. apply NoDup_fmap_2_strong. by intros x y _ _ [= ->]. Qed.

Lemma column_int_nonempty df c (zs : list Z) :
  column df c = VInt <$> zs → rows df ≠ [] → zs ≠ [].
Proof.
  intros Hc Hne ->. apply (f_equal length) in Hc.
  rewrite column_length in Hc. by destruct (rows df).
Qed.

(** Where the ids do stay apart: when in every input table the ids are
    pairwise distinct integers, with no negative meso node id, meso link id
    or micro link id and every micro node id at least 1, a run of the
    pipeline that completes returns a link table whose link ids are pairwise
    distinct and a node table whose node ids are pairwise distinct.  The
    integers of the model are exact: this is the arithmetic of the code for
    ids that stay below 2^53 after the shifts. *)
Lemma final_ids_unique
    (taz meso mesol micro microl final_links final_nodes : Frame) σ'
    (tz mz uz ml ul : list Z) :
  main 0 1 2 3 4 [taz; meso; mesol; micro; microl]
    = Ok ((final_links, final_nodes), σ') →
  column taz "TAZ_clean" = VInt <$> tz → NoDup tz →
  column meso "node_id" = VInt <$> mz → NoDup mz → Forall (λ z, 0 ≤ z) mz →
  column micro "node_id" = VInt <$> uz → NoDup uz → Forall (λ z, 1 ≤ z) uz →
  column mesol "link_id" = VInt <$> ml → NoDup ml → Forall (λ z, 0 ≤ z) ml →
  column microl "link_id" = VInt <$> ul → NoDup ul → Forall (λ z, 0 ≤ z) ul →
  NoDup (column final_links "link_id") ∧ NoDup (column final_nodes "node_id").
Proof.
  intros Hmain Htz Ntz Hmz Nmz Pmz Huz Nuz Puz Hml Nml Pml Hul Nul Pul.
  rewrite Forall_forall in Pmz, Puz, Pml, Pul.
  destruct (main_nonempty _ _ _ _ _ _ _ _ Hmain) as (Hcol & Htaz & Hmeso & Hmesol).
  pose proof (column_int_nonempty _ _ _ Htz Htaz) as Htz_ne.
  pose proof (column_int_nonempty _ _ _ Hmz Hmeso) as Hmz_ne.
  pose proof (column_int_nonempty _ _ _ Hml Hmesol) as Hml_ne.
  split.
  - destruct (main_link_ids _ _ _ _ _ _ _ _ _ _ Hmain Hml Hml_ne Hul)
      as (n & top & mc & mesol' & uc' & microl' & _ & _ & _ & _
          & Hperm & Hmc & Hmesol' & Htop & Hmax & Hn & Huc' & Hmicrol').
    rewrite Hperm, Hmc, Hmesol', Huc', Hmicrol', <-!fmap_app.
    apply VInt_inj_NoDup.
    apply elem_of_shift in Htop as (y & -> & Hy).
    apply (NoDup_blocks _ _ _ _ (2 * len taz) (y + (2 * len taz + 1))
             (y + (2 * len taz + 1) + 2 * Z.of_nat n)).
    + apply NoDup_seqZ.
    + by apply NoDup_shift.
    + apply NoDup_seqZ.
    + by apply NoDup_shift.
    + specialize (Pml _ Hy). lia.
    + intros z Hz%elem_of_seqZ. lia.
    + intros z (x & -> & Hx)%elem_of_shift.
      specialize (Pml _ Hx). specialize (Hmax _ Hx). lia.
    + intros z Hz%elem_of_seqZ. lia.
    + intros z (x & -> & Hx)%elem_of_shift. specialize (Pul _ Hx). lia.
  - destruct (main_node_ids _ _ _ _ _ _ _ _ _ _ _ Hmain Hcol Htz Htz_ne Hmz Hmz_ne Huz)
      as (max_taz & max_meso & Hmt & Hmt_max & Hmm & Hmm_max & Hperm).
    rewrite Hperm. apply VInt_inj_NoDup.
    apply (NoDup_blocks _ _ [] _ max_taz (max_taz + 1 + max_meso)
             (max_taz + 1 + max_meso)).
    + done.
    + by apply NoDup_shift.
    + constructor.
    + by apply NoDup_shift.
    + specialize (Pmz _ Hmm). lia.
    + done.
    + intros z (x & -> & Hx)%elem_of_shift.
      specialize (Pmz _ Hx). specialize (Hmm_max _ Hx). lia.
    + by intros z ?%elem_of_nil.
    + intros z (x & -> & Hx)%elem_of_shift. specialize (Puz _ Hx). lia.
Qed.

(** C1: the final node ids are not unique.  [compute_shifts] adds 1 to the
    largest TAZ id to get the shift of the meso nodes, and adds the largest
    meso node id to that shift, without the 1, to get the shift of the micro
    nodes.  So the ids after the TAZ ids are free for the meso nodes, but
    the first id of the micro nodes is the last id of the meso nodes: in
    every run that completes on integer ids with a micro node of id 0, the
    meso node of the largest id and the micro node 0 get the same final id,
    which the final node table holds in two rows. *)
Theorem micro_node_0_takes_a_meso_id
    (taz meso mesol micro microl final_links final_nodes : Frame) σ'
    (tz mz uz : list Z) :
  main 0 1 2 3 4 [taz; meso; mesol; micro; microl]
    = Ok ((final_links, final_nodes), σ') →
  column taz "TAZ_clean" = VInt <$> tz →
  column meso "node_id" = VInt <$> mz →
  column micro "node_id" = VInt <$> uz →
  0 ∈ uz →
  ∃ max_taz max_meso (i j : nat),
    max_taz ∈ tz ∧ (∀ z, z ∈ tz → z ≤ max_taz) ∧
    max_meso ∈ mz ∧ (∀ z, z ∈ mz → z ≤ max_meso) ∧
    i ≠ j ∧
    column final_nodes "node_id" !! i = Some (VInt (max_taz + 1 + max_meso)) ∧
    column final_nodes "node_id" !! j = Some (VInt (max_taz + 1 + max_meso)) ∧
    ¬ NoDup (column final_nodes "node_id").
Proof.
  intros Hmain Htz Hmz Huz H0.
  destruct (main_nonempty _ _ _ _ _ _ _ _ Hmain) as (Hcol & Htaz & Hmeso & _).
  pose proof (column_int_nonempty _ _ _ Htz Htaz) as Htz_ne.
  pose proof (column_int_nonempty _ _ _ Hmz Hmeso) as Hmz_ne.
  destruct (main_node_ids _ _ _ _ _ _ _ _ _ _ _ Hmain Hcol Htz Htz_ne Hmz Hmz_ne Huz)
    as (max_taz & max_meso & Hmt & Hmt_max & Hmm & Hmm_max & Hperm).
  symmetry in Hperm. apply Permutation_inj in Hperm as [_ (f & Hf & Hlookup)].
  pose proof Hmm as Hmm'.
  apply list_elem_of_lookup in Hmm' as [p Hp].
  apply list_elem_of_lookup in H0 as [q Hq].
  pose proof (lookup_lt_Some _ _ _ Hp) as Hlt.
  assert (column final_nodes "node_id" !! f (length tz + p)%nat
          = Some (VInt (max_taz + 1 + max_meso))) as Hi.
  { rewrite <-Hlookup, list_lookup_fmap, lookup_app_r by lia.
    replace (length tz + p - length tz)%nat with p by lia.
    rewrite lookup_app_l by (by rewrite length_fmap).
    rewrite list_lookup_fmap, Hp. simpl. do 2 f_equal. lia. }
  assert (column final_nodes "node_id" !! f (length tz + length mz + q)%nat
          = Some (VInt (max_taz + 1 + max_meso))) as Hj.
  { rewrite <-Hlookup, list_lookup_fmap, lookup_app_r by lia.
    rewrite lookup_app_r by (rewrite length_fmap; lia).
    rewrite length_fmap.
    replace (length tz + length mz + q - length tz - length mz)%nat with q by lia.
    rewrite list_lookup_fmap, Hq. simpl. do 2 f_equal. }
  assert (f (length tz + p)%nat ≠ f (length tz + length mz + q)%nat) as Hne.
  { intros Heq. apply Hf in Heq. lia. }
  exists max_taz, max_meso, (f (length tz + p)%nat),
    (f (length tz + length mz + q)%nat).
  repeat (split; [done|]).
  intros Hnd. apply Hne. by eapply NoDup_lookup.
Qed.

(** C2, amended: in a run of the pipeline over T TAZ rows and integer link
    ids that are not negative, [merge_network_layers] leaves the meso
    connectors at their local ids 1..2T, moves the meso links to their old id
    plus 2T + 1, the micro connectors to the ids that follow the largest meso
    link id, and the micro links to their old id plus the largest micro
    connector id plus 1; the final link ids are these four blocks, each
    above the one before: meso connectors, meso links, micro connectors,
    micro links.  In particular every meso connector id is smaller than
    every meso link id. *)
Theorem link_id_blocks
    (taz meso mesol micro microl final_links final_nodes : Frame) σ'
    (ml ul : list Z) :
  main 0 1 2 3 4 [taz; meso; mesol; micro; microl]
    = Ok ((final_links, final_nodes), σ') →
  column mesol "link_id" = VInt <$> ml → Forall (λ z, 0 ≤ z) ml →
  column microl "link_id" = VInt <$> ul → Forall (λ z, 0 ≤ z) ul →
  ∃ (n : nat) (top : Z) meso_connectors mesol' micro_connectors microl',
    σ' !! 10%nat = Some meso_connectors ∧ σ' !! 2%nat = Some mesol' ∧
    σ' !! 11%nat = Some micro_connectors ∧ σ' !! 4%nat = Some microl' ∧
    let block1 := seqZ 1 (2 * len taz) in
    let block2 := (λ z, z + (2 * len taz + 1)) <$> ml in
    let block3 := seqZ (top + 1) (2 * Z.of_nat n) in
    let block4 := (λ z, z + (top + 2 * Z.of_nat n + 1)) <$> ul in
    column meso_connectors "link_id" = VInt <$> block1 ∧
    column mesol' "link_id" = VInt <$> block2 ∧
    column micro_connectors "link_id" = VInt <$> block3 ∧
    column microl' "link_id" = VInt <$> block4 ∧
    column final_links "link_id"
      ≡ₚ VInt <$> (block1 ++ block2 ++ block3 ++ block4) ∧
    top ∈ block2 ∧ (∀ z, z ∈ block2 → z ≤ top) ∧
    below block1 block2 ∧ below block2 block3 ∧ below block3 block4.
Proof.
  intros Hmain Hml Pml Hul Pul. rewrite Forall_forall in Pml, Pul.
  destruct (main_nonempty _ _ _ _ _ _ _ _ Hmain) as (_ & _ & _ & Hmesol).
  pose proof (column_int_nonempty _ _ _ Hml Hmesol) as Hml_ne.
  destruct (main_link_ids _ _ _ _ _ _ _ _ _ _ Hmain Hml Hml_ne Hul)
    as (n & top & mc & mesol' & uc' & microl' & ? & ? & ? & ?
        & Hperm & Hmc & Hmesol' & Htop & Hmax & Hn & Huc' & Hmicrol').
  exists n, top, mc, mesol', uc', microl'. repeat (split; [done|]). cbn zeta.
  repeat (split; [done|]).
  split; [by rewrite Hperm, Hmc, Hmesol', Huc', Hmicrol', <-!fmap_app|].
  split; [done|]. split.
  { intros z (x & -> & Hx)%elem_of_shift. by apply Hmax. }
  split; [|split].
  - intros x y Hx%elem_of_seqZ (m & -> & Hm)%elem_of_shift.
    specialize (Pml _ Hm). lia.
  - intros x y (m & -> & Hm)%elem_of_shift Hy%elem_of_seqZ.
    specialize (Hmax _ Hm). lia.
  - intros x y Hx%elem_of_seqZ (u & -> & Hu)%elem_of_shift.
    specialize (Pul _ Hu). lia.
Qed.

(** ** An empty largest component *)

Lemma columns_df_setcol df c vs c' :
  c' ∈ columns df → c' ∈ columns (df_setcol df c vs).
Proof.
  intros Hc. unfold df_setcol. cbn [columns].
  destruct (has_column df c); [done|]. apply elem_of_app. by left.
Qed.

Lemma getcol_present df c : c ∈ columns df → getcol df c = Ok (column df c).
Proof. intros. by apply getcol_Ok. Qed.

Lemma getitem_present df r c : c ∈ columns df → getitem df r c = Ok (cell r c).
Proof. intros. by apply getitem_Ok. Qed.

Lemma getitem_absent df r c : c ∉ columns df → getitem df r c = Raise (KeyError c).
Proof. intros. unfold getitem, has_column. by rewrite bool_decide_eq_false_2. Qed.

Lemma nearest_loop_no_core taz_df k tazs (largest : Frame) :
  rows largest = [] →
  "x_coord" ∈ columns largest → "y_coord" ∈ columns largest →
  "node_id" ∈ columns largest →
  "x_coord" ∈ columns taz_df → "y_coord" ∈ columns taz_df →
  nearest_loop taz_df k tazs largest = Ok (to_dict taz_df <$> tazs).
Proof.
  intros Hrows Hx Hy Hn Htx Hty. revert largest Hrows Hx Hy Hn.
  induction tazs as [|taz tazs IH]; intros largest Hrows Hx Hy Hn; [done|].
  cbn [nearest_loop].
  assert (distances largest taz_df taz = Ok []) as ->.
  { unfold distances. rewrite !getcol_present, !getitem_present by done.
    unfold column. rewrite Hrows. reflexivity. }
  cbn [mbind result_bind].
  assert (nsmallest k "distance" (df_setcol largest "distance" [])
          = Ok (mkDF (columns (df_setcol largest "distance" [])) [])) as ->.
  { unfold nsmallest, has_column. rewrite bool_decide_eq_true_2.
    - unfold df_setcol. cbn [rows columns]. rewrite Hrows. cbn [zip_with].
      rewrite !filter_nil. cbn [stable_sort foldr app]. by rewrite take_nil.
    - unfold df_setcol, has_column. cbn [columns]. case_bool_decide; [done|].
      apply elem_of_app. right. left. }
  cbn [mbind result_bind].
  rewrite getcol_present by (cbn [columns]; by apply columns_df_setcol).
  cbn [mbind result_bind]. rewrite IH.
  - reflexivity.
  - unfold df_setcol. cbn [rows]. by rewrite Hrows.
  - by apply columns_df_setcol.
  - by apply columns_df_setcol.
  - by apply columns_df_setcol.
Qed.

Lemma elem_of_columns_to_dict_frame taz_df (tazs : list Row) c :
  tazs ≠ [] →
  c ∈ columns (pd_DataFrame (to_dict taz_df <$> tazs)) ↔ c ∈ columns taz_df.
Proof.
  intros Hne. rewrite elem_of_columns_pd_DataFrame. split.
  - intros (d & (taz & -> & _)%list_elem_of_fmap & Hc).
    by rewrite keys_to_dict in Hc.
  - intros Hc. destruct tazs as [|taz tazs]; [done|].
    exists (to_dict taz_df taz). split; [left|]. by rewrite keys_to_dict.
Qed.

(** C7, amended: when no meso node is in component 0,
    [find_nearest_scc_nodes] returns the TAZ rows with no candidate column
    added; the stages that read the candidate then raise [KeyError] for it
    on the first TAZ row: [map_taz_to_micro_nodes],
    [generate_meso_connectors], and with them the pipeline. *)
Theorem no_core_no_candidates (taz_df meso_nodes : Frame) (k : Z) :
  (∀ r, r ∈ rows meso_nodes → veqb (cell r "scc_id") (VInt 0) = false) →
  "scc_id" ∈ columns meso_nodes → "node_id" ∈ columns meso_nodes →
  "x_coord" ∈ columns meso_nodes → "y_coord" ∈ columns meso_nodes →
  "x_coord" ∈ columns taz_df → "y_coord" ∈ columns taz_df →
  ∃ cands,
    find_nearest_scc_nodes taz_df meso_nodes k = Ok cands ∧
    rows cands = (λ taz, list_to_map (to_dict taz_df taz)) <$> rows taz_df ∧
    (∀ c, c ∈ columns cands → c ∈ columns taz_df) ∧
    (rows taz_df ≠ [] → "TAZ_clean" ∈ columns taz_df →
     "candidate_node_id_1" ∉ columns taz_df →
     (∀ meso_links micro_links micro_nodes,
        map_taz_to_micro_nodes cands meso_links micro_links micro_nodes
          "candidate_node_id_1" = Raise (KeyError "candidate_node_id_1")) ∧
     (∀ updated_meso shift,
        generate_meso_connectors cands updated_meso "candidate_node_id_1"
          "TAZ_clean" shift = Raise (KeyError "candidate_node_id_1")) ∧
     (∀ meso_links micro_nodes micro_links,
        main 0 1 2 3 4 [taz_df; meso_nodes; meso_links; micro_nodes; micro_links]
        = Raise (KeyError "candidate_node_id_1"))).
Proof.
  intros Hno Hscc Hn Hx Hy Htx Hty.
  assert (∀ k, find_nearest_scc_nodes taz_df meso_nodes k
               = Ok (pd_DataFrame (to_dict taz_df <$> rows taz_df))) as Hfind.
  { intros k'. unfold find_nearest_scc_nodes.
    rewrite (proj2 (where_eq_Ok _ _ _ _) (conj Hscc eq_refl)).
    cbn [mbind result_bind].
    rewrite nearest_loop_no_core; [done | | done..].
    cbn [rows]. by apply filter_none; intros r ->%Hno. }
  eexists. split; [exact (Hfind k)|].
  split; [by rewrite rows_pd_DataFrame, <-list_fmap_compose|].
  split.
  { intros c (d & (taz & -> & _)%list_elem_of_fmap & Hc)%elem_of_columns_pd_DataFrame.
    by rewrite keys_to_dict in Hc. }
  intros Hne Htaz Hcand.
  set (cands := pd_DataFrame (to_dict taz_df <$> rows taz_df)) in *.
  assert ("TAZ_clean" ∈ columns cands) as Htaz'
    by by apply elem_of_columns_to_dict_frame.
  assert ("x_coord" ∈ columns cands) as Htx'
    by by apply elem_of_columns_to_dict_frame.
  assert ("y_coord" ∈ columns cands) as Hty'
    by by apply elem_of_columns_to_dict_frame.
  assert ("candidate_node_id_1" ∉ columns cands) as Hcand'
    by by intros ?%elem_of_columns_to_dict_frame.
  assert (∃ row rest, rows cands = row :: rest) as (row & rest & Hrows).
  { unfold cands. rewrite rows_pd_DataFrame.
    destruct (rows taz_df) as [|taz tazs]; [done|]. by eexists _, _. }
  assert (∀ meso_links micro_links micro_nodes,
            map_taz_to_micro_nodes cands meso_links micro_links micro_nodes
              "candidate_node_id_1" = Raise (KeyError "candidate_node_id_1"))
    as Hmap.
  { intros. unfold map_taz_to_micro_nodes. rewrite Hrows. cbn [mapM_result].
    rewrite (getitem_present cands row "TAZ_clean") by done.
    rewrite (getitem_absent cands row "candidate_node_id_1") by done.
    reflexivity. }
  split; [done|]. split.
  - intros. unfold generate_meso_connectors. rewrite Hrows.
    cbn [meso_connector_loop].
    rewrite (getitem_present cands row "TAZ_clean") by done.
    rewrite (getitem_present cands row "x_coord") by done.
    rewrite (getitem_present cands row "y_coord") by done.
    rewrite (getitem_absent cands row "candidate_node_id_1") by done.
    reflexivity.
  - intros. unfold main, mbind, ST_bind, deref, lift, alloc.
    cbn [lookup list_lookup]. rewrite Hfind. cbn [length app lookup list_lookup].
    by rewrite Hmap.
Qed.

(** ** The stable sort *)

Section stable_sort.
Context {A : Type} (le : A → A → bool) (P : A → Prop).
Hypothesis le_total : ∀ x y, P x → P y → le x y = true ∨ le y x = true.
Hypothesis le_trans :
  ∀ x y z, P x → P y → P z → le x y = true → le y z = true → le x z = true.

Lemma insert_sorted_before (p : nat * A) (l : list (nat * A)) :
  P p.2 → Forall (λ q, P q.2) l → Forall (λ q, (p.1 < q.1)%nat) l →
  StronglySorted (before le) l →
  StronglySorted (before le) (insert_sorted (λ p q, le p.2 q.2) p l).
Proof.
  intros Hp HP Hlt Hsorted.
  induction Hsorted as [|q l Hsorted IH Hq]; simpl.
  - repeat constructor.
  - apply Forall_cons in HP as [HPq HP]. apply Forall_cons in Hlt as [Hltq Hlt].
    destruct (le p.2 q.2) eqn:Hle.
    + constructor; [by constructor|]. constructor.
      * split; [done | by intros _].
      * rewrite Forall_forall in Hq, Hlt, HP |- *. intros z Hz.
        destruct (Hq z Hz) as [Hqz _]. split.
        -- eapply le_trans; [| | |done..]; [done | done | by apply HP].
        -- intros _. by apply Hlt.
    + constructor; [by apply IH|].
      rewrite insert_sorted_Permutation. constructor; [|done].
      split.
      * destruct (le_total p.2 q.2) as [?|?]; [done | done | congruence | done].
      * rewrite Hle. done.
Qed.

Lemma stable_sort_before (il : list (nat * A)) :
  Forall (λ q, P q.2) il →
  StronglySorted (λ p q, (p.1 < q.1)%nat) il →
  StronglySorted (before le) (stable_sort (λ p q, le p.2 q.2) il).
Proof.
  intros HP Hidx. induction Hidx as [|p il Hidx IH Hp]; simpl; [constructor|].
  apply Forall_cons in HP as [HPp HP].
  apply insert_sorted_before; [done | | | by apply IH].
  - by rewrite stable_sort_Permutation.
  - by rewrite stable_sort_Permutation.
Qed.

Lemma insert_sorted_snd (p : nat * A) (l : list (nat * A)) :
  (insert_sorted (λ p q, le p.2 q.2) p l).*2 = insert_sorted le p.2 (l.*2).
Proof.
  induction l as [|q l IH]; [done|].
  rewrite fmap_cons. cbn [insert_sorted].
  destruct (le p.2 q.2); [done|]. by rewrite fmap_cons, IH.
Qed.

Lemma stable_sort_snd (il : list (nat * A)) :
  (stable_sort (λ p q, le p.2 q.2) il).*2 = stable_sort le (il.*2).
Proof.
  unfold stable_sort. induction il as [|p il IH]; [done|].
  rewrite fmap_cons. cbn [foldr]. by rewrite insert_sorted_snd, IH.
Qed.

End stable_sort.

Lemma StronglySorted_lookup {A} (R : A → A → Prop) (l : list A) i j x y :
  StronglySorted R l → l !! i = Some x → l !! j = Some y → (i < j)%nat → R x y.
Proof.
  intros Hsorted. revert i j.
  induction Hsorted as [|z l Hsorted IH Hz]; intros i j Hi Hj Hlt; [done|].
  destruct j as [|j]; [lia|]. simpl in Hj. destruct i as [|i].
  - simpl in Hi. injection Hi as ->. rewrite Forall_forall in Hz.
    apply Hz. by eapply list_elem_of_lookup_2.
  - simpl in Hi. apply (IH i j); [done | done | lia].
Qed.

(** A list with the positions of its elements. *)
Lemma indexed_sorted {A} (l : list A) (n : nat) :
  StronglySorted (λ p q : nat * A, (p.1 < q.1)%nat) (zip (seq n (length l)) l).
Proof.
  revert n. induction l as [|x l IH]; intros n; simpl; [constructor|].
  constructor; [apply IH|]. apply Forall_forall.
  intros [i y] Hiy. simpl.
  apply elem_of_zip_l, elem_of_seq in Hiy. lia.
Qed.

Lemma indexed_lookup {A} (l : list A) (p : nat * A) :
  p ∈ zip (seq 0 (length l)) l ↔ l !! p.1 = Some p.2.
Proof.
  destruct p as [i x]. simpl. rewrite list_elem_of_lookup. split.
  - intros [j Hj]. apply lookup_zip_with_Some in Hj as (i' & x' & [= <- <-] & Hi & Hx).
    apply lookup_seq in Hi as [-> _]. done.
  - intros Hx. exists i. apply lookup_zip_with_Some. exists i, x.
    split; [done|]. split; [|done]. apply lookup_seq. split; [done|].
    by eapply lookup_lt_Some.
Qed.

Lemma indexed_fst {A} (l : list A) n : (zip (seq n (length l)) l).*1 = seq n (length l).
Proof. apply fst_zip. by rewrite length_seq. Qed.

Lemma indexed_snd {A} (l : list A) n : (zip (seq n (length l)) l).*2 = l.
Proof. apply snd_zip. by rewrite length_seq. Qed.

(** ** [find_nearest_scc_nodes] *)

Lemma distances_Ok df taz_df taz d :
  distances df taz_df taz = Ok d →
  Forall2 (λ r v, distance (cell taz "x_coord") (cell taz "y_coord") r = Ok v)
    (rows df) d.
Proof.
  unfold distances. intros H. inv_ok H.
  repeat match goal with
  | H : getcol _ _ = Ok _ |- _ => apply getcol_Ok in H as [_ ->]
  | H : getitem _ _ _ = Ok _ |- _ => apply getitem_Ok in H as [_ ->]
  | H : mapM_result _ _ = Ok _ |- _ => apply mapM_result_Ok in H
  end.
  unfold column in *.
  match goal with
  | Hx : Forall2 _ (_ <$> rows df) ?dx, Hx2 : Forall2 _ ?dx ?dx2,
    Hy : Forall2 _ (_ <$> rows df) ?dy, Hy2 : Forall2 _ ?dy ?dy2,
    Hs : Forall2 _ (zip ?dx2 ?dy2) ?s, Hd : Forall2 _ ?s d |- _ =>
      revert dx dx2 dy dy2 s d Hx Hx2 Hy Hy2 Hs Hd
  end.
  induction (rows df) as [|r rs IH]; intros dx dx2 dy dy2 s d Hx Hx2 Hy Hy2 Hs Hd.
  - inversion Hx; subst. inversion Hx2; subst. inversion Hs; subst.
    inversion Hd; subst. constructor.
  - rewrite fmap_cons in Hx, Hy.
    inversion Hx as [|? a ? dx' Ha Hx']; subst.
    inversion Hx2 as [|? a2 ? dx2' Ha2 Hx2']; subst.
    inversion Hy as [|? b ? dy' Hb Hy']; subst.
    inversion Hy2 as [|? b2 ? dy2' Hb2 Hy2']; subst.
    simpl in Hs. inversion Hs as [|? s0 ? s' Hs0 Hs']; subst.
    inversion Hd as [|? v ? d' Hv Hd']; subst.
    constructor; [|by eapply IH].
    unfold distance. rewrite Ha. simpl. rewrite Ha2. simpl. rewrite Hb. simpl.
    rewrite Hb2. simpl. simpl in Hs0. rewrite Hs0. simpl. done.
Qed.

Lemma distance_number (tx ty : Value) r v :
  distance tx ty r = Ok v →
  is_number tx = true → is_number ty = true →
  is_number (cell r "x_coord") = true → is_number (cell r "y_coord") = true →
  ∃ d, v = VNum d.
Proof.
  unfold distance. intros H Htx Hty Hx Hy.
  destruct tx, ty, (cell r "x_coord"), (cell r "y_coord"); try done;
    simpl in H; injection H as <-; by eexists.
Qed.

Lemma distance_same_coordinates (tx ty : Value) r0 r :
  (∀ c, c ≠ "distance" → cell r c = cell r0 c) →
  distance tx ty r = distance tx ty r0.
Proof. intros Hsame. unfold distance. by rewrite !Hsame by done. Qed.

Section nearest.
Hypothesis fle_total : ∀ x y : num, fle x y = true ∨ fle y x = true.
Hypothesis fle_trans :
  ∀ x y z : num, fle x y = true → fle y z = true → fle x z = true.

(** The selection of [nsmallest] on a column of numbers. *)
Lemma nsmallest_k_nearest (df nearest : Frame) (ds : list num) (k : Z) :
  Forall2 (λ r d, cell r "distance" = VNum d) (rows df) ds →
  nsmallest k "distance" df = Ok nearest →
  ∃ picks,
    k_nearest ds (Z.to_nat k) picks ∧
    Forall2 (λ i r, rows df !! i = Some r) picks (rows nearest).
Proof.
  intros Hds Hnearest. unfold nsmallest in Hnearest.
  destruct (has_column df "distance"); [|done]. injection Hnearest as <-.
  cbn [rows]. set (rs := rows df) in *.
  set (le_row := λ r1 r2 : Row, vleb (cell r1 "distance") (cell r2 "distance")).
  set (P := λ r : Row, ∃ d, cell r "distance" = VNum d).
  assert (Forall P rs) as HP.
  { apply Forall_forall. intros r [i Hi]%list_elem_of_lookup.
    destruct (Forall2_lookup_l _ _ _ _ _ Hds Hi) as (d & _ & Hd). by exists d. }
  assert (filter (λ r, is_nan (cell r "distance") = false) rs = rs) as ->.
  { clear -HP. induction HP as [|r rs [d Hd] _ IH]; [done|].
    rewrite filter_cons_True by by rewrite Hd. by rewrite IH. }
  assert (filter (λ r, is_nan (cell r "distance") = true) rs = []) as ->.
  { apply filter_none. intros r Hr. rewrite Forall_forall in HP.
    destruct (HP r Hr) as [d Hd]. by rewrite Hd. }
  rewrite app_nil_r.
  set (il := zip (seq 0 (length rs)) rs).
  set (sorted := stable_sort (λ p q : nat * Row, le_row p.2 q.2) il).
  assert (sorted ≡ₚ il) as Hperm by apply stable_sort_Permutation.
  assert (StronglySorted (before le_row) sorted) as Hsorted.
  { apply (stable_sort_before le_row P).
    - intros x y [dx Hx] [dy Hy]. unfold le_row. rewrite Hx, Hy. apply fle_total.
    - intros x y z [dx Hx] [dy Hy] [dz Hz]. unfold le_row.
      rewrite Hx, Hy, Hz. apply fle_trans.
    - apply Forall_forall. intros [i r] Hir%indexed_lookup. simpl in *.
      rewrite Forall_forall in HP. apply HP. by eapply list_elem_of_lookup_2.
    - apply indexed_sorted. }
  assert (stable_sort le_row rs = sorted.*2) as ->.
  { unfold sorted. rewrite stable_sort_snd. unfold il. by rewrite indexed_snd. }
  assert (∀ p, p ∈ sorted → rs !! p.1 = Some p.2) as Hat.
  { intros p Hp. rewrite Hperm in Hp. by apply indexed_lookup. }
  assert (length sorted = length ds) as Hlen.
  { rewrite Hperm. unfold il. rewrite length_zip_with, length_seq.
    rewrite <-(Forall2_length _ _ _ Hds). lia. }
  assert (∀ p q, p ∈ sorted → q ∈ sorted → before le_row p q →
                 nearer ds p.1 q.1) as Hnearer.
  { intros p q Hp%Hat Hq%Hat [Hle Hback].
    destruct (Forall2_lookup_l _ _ _ _ _ Hds Hp) as (dp & Hdp & Hcp).
    destruct (Forall2_lookup_l _ _ _ _ _ Hds Hq) as (dq & Hdq & Hcq).
    exists dp, dq. unfold le_row in *. rewrite Hcp, Hcq in Hle, Hback. done. }
  exists (take (Z.to_nat k) sorted).*1. split; [split; [|split; [|split; [|split]]]|].
  - by rewrite length_fmap, length_take, Hlen.
  - rewrite fmap_take. apply (sublist_NoDup _ (sorted.*1)); [|apply sublist_take].
    rewrite Hperm. unfold il. rewrite indexed_fst. apply NoDup_seq.
  - intros i (p & -> & Hp)%list_elem_of_fmap.
    apply elem_of_take in Hp as (a & Hp%list_elem_of_lookup_2%Hat & _).
    apply lookup_lt_Some in Hp. by rewrite <-(Forall2_length _ _ _ Hds).
  - intros a b i j Ha Hb Hab.
    apply list_lookup_fmap_Some in Ha as (p & -> & Hp).
    apply list_lookup_fmap_Some in Hb as (q & -> & Hq).
    apply lookup_take_Some in Hp as [Hp _]. apply lookup_take_Some in Hq as [Hq _].
    apply Hnearer; [by eapply list_elem_of_lookup_2..|].
    by eapply StronglySorted_lookup.
  - intros i j Hi Hj Hjn.
    apply list_elem_of_fmap in Hi as (p & -> & Hp).
    apply elem_of_take in Hp as (a & Hp & Ha).
    assert (j ∈ sorted.*1) as Hjin.
    { rewrite Hperm. unfold il. rewrite indexed_fst. apply elem_of_seq.
      rewrite (Forall2_length _ _ _ Hds). lia. }
    apply list_elem_of_fmap in Hjin as (q & -> & [b Hq]%list_elem_of_lookup).
    assert (Z.to_nat k ≤ b)%nat as Hb.
    { destruct (decide (b < Z.to_nat k)%nat) as [Hlt|]; [|lia].
      destruct Hj. apply list_elem_of_fmap. exists q. split; [done|].
      apply elem_of_take. by exists b. }
    apply Hnearer; [by eapply list_elem_of_lookup_2..|].
    eapply StronglySorted_lookup; [done..|lia].
  - rewrite <-fmap_take. apply Forall2_fmap, Forall_Forall2_diag.
    apply Forall_take, Forall_forall. intros p Hp. by apply Hat.
Qed.

Lemma distances_on_largest (L rs : list Row) (tx ty : Value) (d : list Value) :
  same_but_distance L rs →
  Forall2 (λ r v, distance tx ty r = Ok v) rs d →
  is_number tx = true → is_number ty = true →
  Forall (λ r, is_number (cell r "x_coord") = true
               ∧ is_number (cell r "y_coord") = true) L →
  ∃ ds,
    d = VNum <$> ds ∧
    Forall2 (λ r x, distance tx ty r = Ok (VNum x)) L ds ∧
    same_but_distance L (zip_with (λ r v, <["distance" := v]> r) rs d) ∧
    Forall2 (λ r x, cell r "distance" = VNum x)
      (zip_with (λ r v, <["distance" := v]> r) rs d) ds.
Proof.
  intros Hsame Hd Htx Hty Hnum. revert d Hd.
  induction Hsame as [|r0 r L rs Hr _ IH]; intros d Hd.
  - inversion Hd; subst. exists []. repeat split; constructor.
  - inversion Hd as [|? v ? d' Hv Hd']; subst.
    apply Forall_cons in Hnum as [[Hx Hy] Hnum].
    destruct (IH Hnum d' Hd') as (ds & -> & HL & Hsame' & Hcells).
    rewrite (distance_same_coordinates _ _ r0 r Hr) in Hv.
    destruct (distance_number _ _ _ _ Hv Htx Hty Hx Hy) as [x ->].
    exists (x :: ds). split; [done|]. split; [by constructor|].
    split; simpl; constructor; try done.
    + intros c Hc. rewrite cell_insert. rewrite decide_False by done. by apply Hr.
    + rewrite cell_insert. by rewrite decide_True.
Qed.

Lemma node_ids_at_picks (L rs : list Row) (picks : list nat) (chosen : list Row) :
  same_but_distance L rs →
  Forall2 (λ i r, rs !! i = Some r) picks chosen →
  (λ r, cell r "node_id") <$> chosen = node_ids_at L picks.
Proof.
  intros Hsame Hchosen. unfold node_ids_at.
  induction Hchosen as [|i r picks chosen Hi _ IH]; [done|].
  rewrite !fmap_cons, IH. f_equal.
  destruct (Forall2_lookup_r _ _ _ _ _ Hsame Hi) as (r0 & -> & Hr). simpl.
  by apply Hr.
Qed.

Lemma nearest_loop_nearest taz_df k tazs (largest : Frame) (L : list Row) l :
  nearest_loop taz_df k tazs largest = Ok l →
  same_but_distance L (rows largest) →
  Forall (λ r, is_number (cell r "x_coord") = true
               ∧ is_number (cell r "y_coord") = true) L →
  Forall (λ taz, is_number (cell taz "x_coord") = true
                 ∧ is_number (cell taz "y_coord") = true) tazs →
  Forall2 (λ taz d, ∃ ds picks,
      Forall2 (λ r x,
          distance (cell taz "x_coord") (cell taz "y_coord") r = Ok (VNum x))
        L ds ∧
      k_nearest ds (Z.to_nat k) picks ∧
      d = add_candidates (to_dict taz_df taz) (node_ids_at L picks))
    tazs l.
Proof.
  intros H Hsame HL Htazs. revert largest l H Hsame.
  induction Htazs as [|taz tazs [Htx Hty] _ IH]; intros largest l H Hsame.
  - injection H as <-. constructor.
  - cbn [nearest_loop] in H. inv_ok H.
    lazymatch goal with
    | Hd : distances _ _ _ = Ok ?d, Hn : nsmallest _ _ _ = Ok ?nearest,
      Hids : getcol ?nearest _ = Ok ?ids, Hrec : nearest_loop _ _ _ _ = Ok _ |- _ =>
        apply distances_Ok in Hd;
        destruct (distances_on_largest _ _ _ _ _ Hsame Hd Htx Hty HL)
          as (ds & -> & Hdist & Hsame' & Hcells);
        destruct (nsmallest_k_nearest
                    (df_setcol largest "distance" (VNum <$> ds)) _ ds _ Hcells Hn)
          as (picks & Hpicks & Hchosen);
        apply getcol_Ok in Hids as [_ ->];
        constructor; [|by apply (IH _ _ Hrec)];
        exists ds, picks; split; [done|]; split; [done|];
        unfold column; by rewrite (node_ids_at_picks _ _ _ _ Hsame' Hchosen)
    end.
Qed.

Lemma same_but_distance_refl (L : list Row) : same_but_distance L L.
Proof. induction L; constructor; done. Qed.

Lemma candidate_column_inj i j : candidate_column i = candidate_column j → i = j.
Proof.
  unfold candidate_column. intros H. simpl in H. injection H as H.
  change ("" +:+ ?s) with s in H. apply (inj pretty) in H. lia.
Qed.

Lemma cell_foldl_candidates_other (l : list (nat * Value)) (row : dict) c :
  (∀ p, p ∈ l → candidate_column p.1 ≠ c) →
  cell (list_to_map
          (foldl (λ row inode, dict_set (candidate_column inode.1) inode.2 row)
             row l)) c
  = cell (list_to_map row) c.
Proof.
  revert row. induction l as [|p l IH]; intros row Hl; [done|].
  simpl. rewrite IH by (intros q Hq; apply Hl; by right).
  rewrite cell_dict_set. rewrite decide_False; [done|]. apply Hl. left.
Qed.

Lemma cell_foldl_candidates (l : list (nat * Value)) (row : dict) i v :
  NoDup (l.*1) → (i, v) ∈ l →
  cell (list_to_map
          (foldl (λ row inode, dict_set (candidate_column inode.1) inode.2 row)
             row l)) (candidate_column i)
  = v.
Proof.
  revert row. induction l as [|[j w] l IH]; intros row Hnd Hin.
  - by apply elem_of_nil in Hin.
  - rewrite fmap_cons in Hnd. apply NoDup_cons in Hnd as [Hj Hnd].
    apply elem_of_cons in Hin as [[= <- <-]|Hin]; simpl.
    + rewrite cell_foldl_candidates_other.
      * rewrite cell_dict_set. by rewrite decide_True.
      * intros [j' w'] Hq Heq%candidate_column_inj. simpl in Heq. subst j'.
        apply Hj. apply list_elem_of_fmap. by exists (i, w').
    + by apply IH.
Qed.

Lemma cell_add_candidates_pick (row : dict) (ids : list Value) (j : nat) id :
  ids !! j = Some id →
  cell (list_to_map (add_candidates row ids)) (candidate_column j) = id.
Proof.
  intros Hj. unfold add_candidates. apply cell_foldl_candidates.
  - apply NoDup_alt. intros a b x Ha Hb.
    rewrite list_lookup_fmap, list_lookup_imap in Ha, Hb.
    destruct (ids !! a), (ids !! b); simpl in *; congruence.
  - apply elem_of_lookup_imap. by exists j, id.
Qed.

Lemma cell_add_candidates_beyond (row : dict) (ids : list Value) (j : nat) :
  (length ids ≤ j)%nat →
  cell (list_to_map (add_candidates row ids)) (candidate_column j)
  = cell (list_to_map row) (candidate_column j).
Proof.
  intros Hj. unfold add_candidates. apply cell_foldl_candidates_other.
  intros [i v] (i' & v' & [= -> ->] & Hi)%elem_of_lookup_imap
    Heq%candidate_column_inj.
  simpl in Heq. subst. apply lookup_lt_Some in Hi. lia.
Qed.

(** C5: when the order of float64 is total and transitive on the distances
    and the coordinates are numbers, every row that
    [find_nearest_scc_nodes] returns is a TAZ row to which the candidates
    were added in the columns [candidate_node_id_1], [candidate_node_id_2],
    ...: they are [min(k, n)] distinct rows of the [n] meso nodes with
    [scc_id == 0], in the order of their distance to the TAZ, a row that is as
    near as another one coming first when it is earlier in the table, and no
    row left out is nearer, or as near and earlier, than a row taken. *)
Theorem find_nearest_scc_nodes_k_nearest (taz_df meso_nodes cands : Frame) (k : Z) :
  find_nearest_scc_nodes taz_df meso_nodes k = Ok cands →
  let largest :=
    filter (λ r, veqb (cell r "scc_id") (VInt 0) = true) (rows meso_nodes) in
  Forall (λ r, is_number (cell r "x_coord") = true
               ∧ is_number (cell r "y_coord") = true) largest →
  Forall (λ taz, is_number (cell taz "x_coord") = true
                 ∧ is_number (cell taz "y_coord") = true) (rows taz_df) →
  Forall2 (λ taz out, ∃ ds picks,
      Forall2 (λ r x,
          distance (cell taz "x_coord") (cell taz "y_coord") r = Ok (VNum x))
        largest ds ∧
      k_nearest ds (Z.to_nat k) picks ∧
      length picks = min (Z.to_nat k) (length largest) ∧
      (∀ j i, picks !! j = Some i →
              ∃ r, largest !! i = Some r ∧
                   cell out (candidate_column j) = cell r "node_id") ∧
      (∀ j, (length picks ≤ j)%nat → candidate_column j ∉ columns taz_df →
            cell out (candidate_column j) = NaN) ∧
      ∀ c, (∀ j, candidate_column j ≠ c) → c ∈ columns taz_df →
           cell out c = cell taz c)
    (rows taz_df) (rows cands).
Proof.
  intros H largest HL Htaz. unfold find_nearest_scc_nodes in H. inv_ok H.
  lazymatch goal with
  | Hw : where_eq _ _ _ = Ok _, Hn : nearest_loop _ _ _ _ = Ok _ |- _ =>
      apply where_eq_Ok in Hw as [_ ->];
      apply (nearest_loop_nearest _ _ _ _ largest) in Hn;
        [|apply same_but_distance_refl | exact HL | exact Htaz];
      rename Hn into Hloop
  end.
  rewrite rows_pd_DataFrame. apply Forall2_fmap_r.
  eapply Forall2_impl; [exact Hloop|]. clear Hloop.
  intros taz d (ds & picks & Hds & Hpicks & ->).
  exists ds, picks. split; [done|]. split; [done|].
  pose proof (Forall2_length _ _ _ Hds) as Hlen.
  destruct Hpicks as (Hk & Hnd & Hlt & Hpicks).
  split; [by rewrite Hlen|]. split; [|split].
  - intros j i Hj.
    assert (i < length largest)%nat as Hi.
    { rewrite Hlen. apply Hlt. by eapply list_elem_of_lookup_2. }
    apply lookup_lt_is_Some in Hi as [r Hr]. exists r. split; [done|].
    apply cell_add_candidates_pick. unfold node_ids_at.
    rewrite list_lookup_fmap, Hj. simpl. by rewrite Hr.
  - intros j Hj Hnot.
    rewrite cell_add_candidates_beyond
      by (unfold node_ids_at; by rewrite length_fmap).
    rewrite cell_to_dict. by rewrite decide_False.
  - intros c Hc Hin. rewrite cell_add_candidates by done.
    rewrite cell_to_dict. by rewrite decide_True.
Qed.

End nearest.

(** ** What a run leaves in the store, and the coordinates of the final nodes *)

Lemma elem_of_rows_df_setitem df c v r' :
  r' ∈ rows (df_setitem df c v) → ∃ r, r ∈ rows df ∧ r' = <[c := v]> r.
Proof.
  unfold df_setitem. cbn [rows].
  intros (r & -> & Hr)%list_elem_of_fmap. by exists r.
Qed.

Lemma elem_of_rows_df_iadd df c v df' r' :
  df_iadd df c v = Ok df' → r' ∈ rows df' →
  ∃ r w, r ∈ rows df ∧ r' = <[c := w]> r.
Proof.
  intros (_ & _ & Hrows)%df_iadd_Ok Hr'.
  apply list_elem_of_lookup in Hr' as [i Hi].
  destruct (Forall2_lookup_r _ _ _ _ _ Hrows Hi) as (r & Hr & w & _ & ->).
  exists r, w. split; [|done]. by eapply list_elem_of_lookup_2.
Qed.

Lemma insert_length_app {A} (l : list A) a b x :
  <[length l := x]> (l ++ [a; b]) = l ++ [x; b].
Proof.
  rewrite insert_app_r_alt by lia. by rewrite Nat.sub_diag.
Qed.

Lemma insert_S_length_app {A} (l : list A) a b x :
  <[S (length l) := x]> (l ++ [a; b]) = l ++ [a; x].
Proof.
  rewrite insert_app_r_alt by lia.
  by replace (S (length l) - length l)%nat with 1%nat by lia.
Qed.

(** [reindex_nodes] works on the copies it takes: whatever the store holds
    when it is called is still there when it returns, followed by the two
    shifted frames. *)
Lemma reindex_nodes_appends (meso_nodes micro_nodes : ref) (s1 s2 ls : Value)
    (σ σ' : @store num) shifted_meso shifted_micro :
  reindex_nodes meso_nodes micro_nodes s1 s2 ls σ
    = Ok ((shifted_meso, shifted_micro), σ') →
  shifted_meso = length σ ∧ shifted_micro = S (length σ) ∧
  ∃ meso' micro', σ' = σ ++ [meso'; micro'].
Proof.
  unfold reindex_nodes. intros H.
  apply ST_bind_Ok in H as (m & σ1 & (meso & Hmeso & -> & ->)%copy_Ok & H).
  apply ST_bind_Ok in H as (u & σ2 & (micro & Hmicro & -> & ->)%copy_Ok & H).
  rewrite length_app, <- app_assoc in H. cbn [length app] in H.
  rewrite Nat.add_1_r in H.
  apply ST_bind_Ok in H as (? & σ3 & (d0 & meso1 & _ & _ & ->)%iadd_Ok & H).
  unfold store, ref in H; rewrite insert_length_app in H.
  apply ST_bind_Ok in H as (? & σ4 & (d1 & micro1 & _ & _ & ->)%iadd_Ok & H).
  unfold store, ref in H; rewrite insert_S_length_app in H.
  apply ST_bind_Ok in H as (? & σ5 & (d2 & micro2 & _ & _ & ->)%iadd_Ok & H).
  unfold store, ref in H; rewrite insert_S_length_app in H.
  apply ST_bind_Ok in H as (? & σ6 & (d3 & _ & ->)%setitem_Ok & H).
  unfold store, ref in H; rewrite insert_length_app in H.
  apply ST_bind_Ok in H as (? & σ7 & (d4 & _ & ->)%setitem_Ok & H).
  unfold store, ref in H; rewrite insert_S_length_app in H.
  unfold mret in H. apply ST_ret_Ok in H as [[= -> ->] ->].
  repeat split. by eexists _, _.
Qed.

(** After a run of [main] the TAZ table and the two node tables that were
    loaded are in the store as they were; the two link tables that were
    loaded are not: [merge_network_layers] has written a [layer] cell into
    every row of them. *)
Lemma main_store (taz meso mesol micro microl final_links final_nodes : Frame) σ' :
  main 0 1 2 3 4 [taz; meso; mesol; micro; microl]
    = Ok ((final_links, final_nodes), σ') →
  σ' !! 0%nat = Some taz ∧ σ' !! 1%nat = Some meso ∧ σ' !! 3%nat = Some micro ∧
  ∃ mesol' microl',
    σ' !! 2%nat = Some mesol' ∧ σ' !! 4%nat = Some microl' ∧
    (∀ r, r ∈ rows mesol' → cell r "layer" = VStr "meso") ∧
    (∀ r, r ∈ rows microl' → cell r "layer" = VStr "micro").
Proof.
  intros H. invert_main H. repeat (split; [reflexivity|]).
  exists mesol3, microl4. repeat (split; [reflexivity|]). split.
  - intros r Hr.
    apply (elem_of_rows_df_iadd _ _ _ _ _ Hmesol3) in Hr as (r2 & ? & Hr & ->).
    apply (elem_of_rows_df_iadd _ _ _ _ _ Hmesol2) in Hr as (r1 & ? & Hr & ->).
    apply (elem_of_rows_df_iadd _ _ _ _ _ Hmesol1) in Hr as (r0 & ? & Hr & ->).
    apply elem_of_rows_df_setitem in Hr as (r' & _ & ->).
    rewrite !cell_insert. by repeat (rewrite decide_False by done).
  - intros r Hr.
    apply (elem_of_rows_df_iadd _ _ _ _ _ Hmicrol4) in Hr as (r3 & ? & Hr & ->).
    apply (elem_of_rows_df_iadd _ _ _ _ _ Hmicrol3) in Hr as (r2 & ? & Hr & ->).
    apply (elem_of_rows_df_iadd _ _ _ _ _ Hmicrol2) in Hr as (r1 & ? & Hr & ->).
    apply (elem_of_rows_df_iadd _ _ _ _ _ Hmicrol1) in Hr as (r0 & ? & Hr & ->).
    apply elem_of_rows_df_setitem in Hr as (r' & _ & ->).
    rewrite !cell_insert. by repeat (rewrite decide_False by done).
Qed.

(** The final node table takes [x] and [y] from the frames it concatenates,
    and only the TAZ nodes have them: when the meso and micro node tables
    hold nothing under [x] and [y], which is so for the tables that carry
    [x_coord] and [y_coord], every row of the final node table that is not a
    TAZ row holds the missing value in both. *)
Lemma final_nodes_without_coordinates
    (taz meso mesol micro microl final_links final_nodes : Frame) σ' :
  main 0 1 2 3 4 [taz; meso; mesol; micro; microl]
    = Ok ((final_links, final_nodes), σ') →
  (∀ r, r ∈ rows meso ∨ r ∈ rows micro → cell r "x" = NaN ∧ cell r "y" = NaN) →
  ∀ row, row ∈ rows final_nodes → cell row "layer" ≠ VStr "taz" →
         cell row "x" = NaN ∧ cell row "y" = NaN.
Proof.
  intros H Hxy row Hrow Hlayer. invert_main H.
  apply bind_Ok in Hfinal_nodes as (df & [_ ->]%project_Ok & [_ ->]%sort_values_Ok).
  cbn [rows] in Hrow. rewrite stable_sort_Permutation in Hrow.
  apply list_elem_of_fmap in Hrow as (r & -> & Hr).
  rewrite !cell_filter_keys in *.
  rewrite decide_True in Hlayer by compute_done.
  rewrite !decide_True by compute_done.
  rewrite rows_pd_concat in Hr. cbn [mbind list_bind] in Hr.
  rewrite app_nil_r, !elem_of_app in Hr. destruct Hr as [Hr|[Hr|Hr]].
  - subst nodes_taz. apply elem_of_rows_df_setitem in Hr as (r0 & _ & ->).
    rewrite cell_insert, decide_True in Hlayer by done. done.
  - subst nodes_meso upd_meso.
    apply elem_of_rows_df_setitem in Hr as (r2 & Hr & ->).
    apply elem_of_rows_df_setitem in Hr as (r1 & Hr & ->).
    apply (elem_of_rows_df_iadd _ _ _ _ _ Hmeso1) in Hr as (r0 & ? & Hr & ->).
    rewrite !cell_insert. repeat (rewrite decide_False by done).
    apply Hxy. by left.
  - subst nodes_micro upd_micro.
    apply elem_of_rows_df_setitem in Hr as (r3 & Hr & ->).
    apply elem_of_rows_df_setitem in Hr as (r2 & Hr & ->).
    apply (elem_of_rows_df_iadd _ _ _ _ _ Hmicro2) in Hr as (r1 & ? & Hr & ->).
    apply (elem_of_rows_df_iadd _ _ _ _ _ Hmicro1) in Hr as (r0 & ? & Hr & ->).
    rewrite !cell_insert. repeat (rewrite decide_False by done).
    apply Hxy. by right.
Qed.

(** ** Runs that cannot complete *)

(** With no TAZ row, [find_nearest_scc_nodes] builds its result from an empty
    list of records, which is a frame without columns: the [TAZ_clean]
    column of the TAZ table is lost, and [compute_shifts] raises. *)
Theorem empty_taz_table_raises (taz meso mesol micro microl : Frame) :
  rows taz = [] → "scc_id" ∈ columns meso →
  find_nearest_scc_nodes taz meso 1 = Ok (mkDF [] []) ∧
  main 0 1 2 3 4 [taz; meso; mesol; micro; microl] = Raise (KeyError "TAZ_clean").
Proof.
  intros Hrows Hscc.
  assert (find_nearest_scc_nodes taz meso 1 = Ok (mkDF [] [])) as Hnearest.
  { unfold find_nearest_scc_nodes, where_eq, has_column.
    rewrite bool_decide_eq_true_2 by done. cbn [mbind result_bind].
    by rewrite Hrows. }
  split; [done|].
  unfold main, mbind, ST_bind, deref, lift, alloc.
  cbn [lookup list_lookup]. by rewrite Hnearest.
Qed.

(** A run completes only if some TAZ reaches a micro node: with an empty
    TAZ-to-micro map [generate_micro_connectors] returns a frame without
    columns, and [merge_network_layers] raises on its [link_id].  So a
    completed run has a map with at least one row and at least one pair of
    micro connectors, and none of the five tables it was given is empty. *)
Theorem completed_run_has_connectors
    (taz meso mesol micro microl final_links final_nodes : Frame) σ' :
  main 0 1 2 3 4 [taz; meso; mesol; micro; microl]
    = Ok ((final_links, final_nodes), σ') →
  ∃ tmap micro_connectors,
    σ' !! 6%nat = Some tmap ∧ σ' !! 11%nat = Some micro_connectors ∧
    rows tmap ≠ [] ∧ (2 ≤ length (rows micro_connectors))%nat ∧
    rows taz ≠ [] ∧ rows meso ≠ [] ∧ rows mesol ≠ [] ∧
    rows micro ≠ [] ∧ rows microl ≠ [].
Proof.
  intros Hmain.
  destruct (main_nonempty _ _ _ _ _ _ _ _ Hmain) as (_ & Htaz & Hmeso & Hmesol).
  invert_main Hmain. exists tmap, uc'.
  split; [reflexivity|]. split; [reflexivity|].
  assert (rows tmap ≠ []) as Htmap.
  { intros Hnil.
    pose proof (generate_micro_connectors_nil _ _ _ _ _ _ _ Huc Hnil) as Hcols.
    apply df_iadd_Ok in Huc' as [Hin _]. rewrite Hcols in Hin.
    by apply elem_of_nil in Hin. }
  split; [done|]. split.
  { destruct (generate_micro_connectors_ids _ _ _ _ _ _ _ Huc) as (n & Hn & Hn0).
    apply (f_equal length) in Hn.
    rewrite column_length, length_fmap, length_seqZ in Hn.
    rewrite (df_iadd_length _ _ _ _ Huc'), Hn.
    destruct n as [|n]; [|lia].
    apply df_iadd_Ok in Huc' as [Hin _]. rewrite Hn0 in Hin by done.
    by apply elem_of_nil in Hin. }
  repeat (split; [done|]).
  destruct (map_taz_to_micro_nodes_rows _ _ _ _ _ _ Hmap) as (results & Hrows & Hall).
  assert (∃ row start_nodes,
            find_start_micro_nodes (cell row "candidate_node_id_1") mesol microl
              = Ok start_nodes ∧
            filter (λ r, isin start_nodes (cell r "node_id") = true) (rows micro)
              ≠ []) as (row & sn & Hsn & Hne).
  { assert (concat results ≠ []) as Hc.
    { intros Hc. apply Htmap. by rewrite Hrows, Hc. }
    clear Htmap Hrows.
    induction Hall as [|row result rs results (sn & Hsn & ->) _ IH]; [done|].
    destruct (filter (λ r, isin sn (cell r "node_id") = true) (rows micro))
      as [|node nodes] eqn:Hf.
    - apply IH. intros Hnil. apply Hc. cbn [concat]. by rewrite Hnil.
    - exists row, sn. split; [done|]. by rewrite Hf. }
  split.
  { intros Hnil. rewrite Hnil in Hne. by rewrite filter_nil in Hne. }
  intros Hnil. apply Hne.
  apply find_start_micro_nodes_Ok in Hsn as (_ & _ & _ & _ & _ & ->).
  unfold start_micro_nodes. rewrite Hnil. cbn zeta.
  rewrite !filter_nil, !fmap_nil.
  apply filter_none. intros r _. done.
Qed.

(** ** What the connector generators emit *)

Lemma column_pd_DataFrame_app (l1 l2 : list (@dict num)) c :
  column (pd_DataFrame (l1 ++ l2)) c
  = column (pd_DataFrame l1) c ++ column (pd_DataFrame l2) c.
Proof. unfold column. rewrite !rows_pd_DataFrame. by rewrite !fmap_app. Qed.

Lemma connector_pair_ends link_id (taz_id node_id taz_x taz_y mx my : Value) layer :
  column (pd_DataFrame
            (connector_pair link_id taz_id node_id taz_x taz_y mx my layer))
    "from_node_id" = [taz_id; node_id] ∧
  column (pd_DataFrame
            (connector_pair link_id taz_id node_id taz_x taz_y mx my layer))
    "to_node_id" = [node_id; taz_id].
Proof. split; by vm_compute. Qed.

Lemma meso_connector_loop_chunks taz_df meso_nodes cc tc (shift : Value)
    tazs link_id l :
  meso_connector_loop taz_df meso_nodes cc tc shift tazs link_id = Ok l →
  ∃ chunks,
    l = concat chunks ∧
    Forall2 (λ row chunk, ∃ i mid node,
        vadd (cell row cc) shift = Ok mid ∧
        first_with_id (rows meso_nodes) mid = Some node ∧
        chunk = connector_pair i (cell row tc) mid
                  (cell row "x_coord") (cell row "y_coord")
                  (cell node "x_coord") (cell node "y_coord") "meso")
      tazs chunks.
Proof.
  revert link_id l. induction tazs as [|row tazs IH]; intros link_id l H.
  - injection H as <-. exists []. split; [done | constructor].
  - cbn [meso_connector_loop] in H. inv_ok H.
    repeat match goal with
    | H : getitem _ _ _ = Ok _ |- _ => apply getitem_Ok in H as [_ ->]
    | H : where_eq _ _ _ = Ok _ |- _ => apply where_eq_Ok in H as [_ ->]
    | H : iloc0 _ = Ok _ |- _ => apply iloc0_Ok in H; cbn [rows] in H
    end.
    match goal with
    | H : meso_connector_loop _ _ _ _ _ _ _ = Ok _ |- _ =>
        apply IH in H as (chunks & -> & Hall)
    end.
    match goal with
    | Hm : vadd (cell row cc) shift = Ok ?mid,
      Hn : filter _ _ !! 0%nat = Some ?node |- _ =>
        exists (connector_pair link_id (cell row tc) mid
                  (cell row "x_coord") (cell row "y_coord")
                  (cell node "x_coord") (cell node "y_coord") "meso" :: chunks);
        split; [reflexivity|]; constructor; [|done];
        by exists link_id, mid, node
    end.
Qed.

(** [generate_meso_connectors] emits one pair of links for every TAZ row, in
    the order of the TAZ table, whether or not two rows have the same
    candidate: the pair joins the TAZ id with the shifted candidate, which
    is the id of a meso node, and its geometry runs between the
    coordinates of the TAZ and those of the first meso node with that id. *)
Theorem meso_connectors_one_pair_per_taz (taz_df meso_nodes conn : Frame)
    cc tc (shift : Value) :
  generate_meso_connectors taz_df meso_nodes cc tc shift = Ok conn →
  ∃ chunks,
    rows conn = list_to_map <$> concat chunks ∧
    Forall2 (λ row chunk, ∃ i mid node,
        vadd (cell row cc) shift = Ok mid ∧
        first_with_id (rows meso_nodes) mid = Some node ∧
        chunk = connector_pair i (cell row tc) mid
                  (cell row "x_coord") (cell row "y_coord")
                  (cell node "x_coord") (cell node "y_coord") "meso")
      (rows taz_df) chunks.
Proof.
  unfold generate_meso_connectors. intros H. inv_ok H.
  match goal with
  | H : meso_connector_loop _ _ _ _ _ _ _ = Ok _ |- _ =>
      apply meso_connector_loop_chunks in H as (chunks & -> & Hall)
  end.
  exists chunks. split; [apply rows_pd_DataFrame | done].
Qed.

Lemma filter_veqb_nil (rs : list Row) c v :
  filter (λ r, veqb (cell r c) v = true) rs = [] ↔
  ∀ r, r ∈ rs → veqb (cell r c) v = false.
Proof.
  split.
  - intros Hnil r Hr. destruct (veqb (cell r c) v) eqn:Heq; [|done].
    assert (r ∈ filter (λ r, veqb (cell r c) v = true) rs) as Hin
      by by apply list_elem_of_filter.
    rewrite Hnil in Hin. by apply elem_of_nil in Hin.
  - intros Hall. apply filter_none. intros r Hr. by rewrite Hall.
Qed.

Lemma meso_connector_loop_step taz_df meso_nodes cc tc (s candidate : Z)
    row tazs link_id :
  tc ∈ columns taz_df → "x_coord" ∈ columns taz_df → "y_coord" ∈ columns taz_df →
  cc ∈ columns taz_df →
  "node_id" ∈ columns meso_nodes →
  "x_coord" ∈ columns meso_nodes → "y_coord" ∈ columns meso_nodes →
  cell row cc = VInt candidate →
  meso_connector_loop taz_df meso_nodes cc tc (VInt s) (row :: tazs) link_id
  = match first_with_id (rows meso_nodes) (VInt (candidate + s)) with
    | None => Raise IndexError
    | Some node =>
        connectors ← meso_connector_loop taz_df meso_nodes cc tc (VInt s) tazs
                       (link_id + 2);
        Ok (connector_pair link_id (cell row tc) (VInt (candidate + s))
              (cell row "x_coord") (cell row "y_coord")
              (cell node "x_coord") (cell node "y_coord") "meso" ++ connectors)
    end.
Proof.
  intros Htc Hx Hy Hcc Hn Hmx Hmy Hc. cbn [meso_connector_loop].
  rewrite (getitem_present taz_df row tc), (getitem_present taz_df row "x_coord"),
    (getitem_present taz_df row "y_coord"), (getitem_present taz_df row cc)
    by done.
  cbn [mbind result_bind]. rewrite Hc. cbn [vadd mbind result_bind].
  unfold where_eq, has_column. rewrite bool_decide_eq_true_2 by done.
  cbn [mbind result_bind]. unfold iloc0, first_with_id. cbn [rows].
  destruct (filter _ (rows meso_nodes)) as [|node nodes]; [done|].
  cbn [lookup list_lookup mbind result_bind].
  unfold getitem, has_column. cbn [columns].
  by rewrite !bool_decide_eq_true_2 by done.
Qed.

(** When the columns it reads are there and the candidates are integers,
    [generate_meso_connectors] has two outcomes: it returns when every
    TAZ's shifted candidate is the id of a meso node, and raises
    [IndexError] (from [.iloc[0]] on an empty selection) when one is not. *)
Theorem generate_meso_connectors_IndexError (taz_df meso_nodes : Frame)
    cc tc (s : Z) :
  tc ∈ columns taz_df → "x_coord" ∈ columns taz_df → "y_coord" ∈ columns taz_df →
  cc ∈ columns taz_df →
  "node_id" ∈ columns meso_nodes →
  "x_coord" ∈ columns meso_nodes → "y_coord" ∈ columns meso_nodes →
  Forall (λ row, ∃ candidate, cell row cc = VInt candidate) (rows taz_df) →
  (Forall (λ row, ∃ candidate node,
        cell row cc = VInt candidate ∧ node ∈ rows meso_nodes ∧
        veqb (cell node "node_id") (VInt (candidate + s)) = true) (rows taz_df) →
   ∃ conn, generate_meso_connectors taz_df meso_nodes cc tc (VInt s) = Ok conn) ∧
  (Exists (λ row, ∃ candidate,
        cell row cc = VInt candidate ∧
        ∀ node, node ∈ rows meso_nodes →
                veqb (cell node "node_id") (VInt (candidate + s)) = false)
      (rows taz_df) →
   generate_meso_connectors taz_df meso_nodes cc tc (VInt s) = Raise IndexError).
Proof.
  intros Htc Hx Hy Hcc Hn Hmx Hmy Hint. unfold generate_meso_connectors.
  generalize 1. induction Hint as [|row tazs [candidate Hc] Hint IH]; intros link_id.
  - split; [by eexists | by intros ?%Exists_nil].
  - rewrite (meso_connector_loop_step _ _ _ _ _ candidate) by done.
    unfold first_with_id.
    destruct (filter _ (rows meso_nodes)) as [|node nodes] eqn:Hf;
      cbn [lookup list_lookup].
    + split; [|done].
      intros [(c' & node & Hc' & Hnode & Hmatch) _]%Forall_cons.
      rewrite Hc in Hc'. injection Hc' as <-.
      pose proof (proj1 (filter_veqb_nil _ _ _) Hf node Hnode) as Hno.
      by rewrite Hno in Hmatch.
    + destruct (IH (link_id + 2)) as [IHok IHraise]. split.
      * intros [_ Hall]%Forall_cons. destruct (IHok Hall) as [conn Hconn].
        apply bind_Ok in Hconn as (l & -> & _). by eexists.
      * intros [(c' & Hc' & Hnone)|Hex]%Exists_cons.
        -- rewrite Hc in Hc'. injection Hc' as <-.
           assert (node ∈ filter (λ r, veqb (cell r "node_id")
                                         (VInt (candidate + s)) = true)
                            (rows meso_nodes)) as Hin by (rewrite Hf; left).
           apply list_elem_of_filter in Hin as [Hmatch Hin].
           by rewrite (Hnone node Hin) in Hmatch.
        -- specialize (IHraise Hex).
           destruct (meso_connector_loop _ _ _ _ _ tazs _); [done|].
           cbn [mbind result_bind] in *. done.
Qed.

Lemma connector_pair_app_ends link_id (taz_id node_id taz_x taz_y mx my : Value)
    layer (l : list dict) froms tos :
  column (pd_DataFrame l) "from_node_id" = froms →
  column (pd_DataFrame l) "to_node_id" = tos →
  column (pd_DataFrame
            (connector_pair link_id taz_id node_id taz_x taz_y mx my layer ++ l))
    "from_node_id" = taz_id :: node_id :: froms ∧
  column (pd_DataFrame
            (connector_pair link_id taz_id node_id taz_x taz_y mx my layer ++ l))
    "to_node_id" = node_id :: taz_id :: tos.
Proof.
  intros <- <-. rewrite !column_pd_DataFrame_app.
  by destruct (connector_pair_ends link_id taz_id node_id taz_x taz_y mx my layer)
    as [-> ->].
Qed.

Lemma micro_connector_loop_ends taz_df tmap tc (s : Z) pairs (ids : list Z)
    link_id used l :
  micro_connector_loop taz_df tmap tc (VInt s) pairs link_id used = Ok l →
  Forall2 (λ row z, cell row "micro_node_id" = VInt z) pairs ids →
  Forall (λ v, ∃ m, v = VInt m) used →
  ∃ ends : list (Value * Z),
    column (pd_DataFrame l) "from_node_id" = ends ≫= (λ e, [e.1; VInt e.2]) ∧
    column (pd_DataFrame l) "to_node_id" = ends ≫= (λ e, [VInt e.2; e.1]) ∧
    NoDup ends.*2 ∧
    (∀ z, z ∈ ends.*2 ↔ z ∈ (λ z, z + s) <$> ids ∧ VInt z ∉ used) ∧
    Forall (λ e, ∃ (i : nat) row,
               pairs !! i = Some row ∧ cell row "taz_id" = e.1 ∧
               ids !! i = Some (e.2 - s) ∧
               ∀ j, (j < i)%nat → ids !! j ≠ Some (e.2 - s)) ends.
Proof.
  intros H Hids. revert link_id used l H.
  induction Hids as [|row z pairs ids Hz Hids IH]; intros link_id used l H Hused.
  { injection H as <-. exists []. split; [done|]. split; [done|].
    split; [constructor|]. split; [|constructor].
    intros z. cbn [fmap list_fmap].
    split; [by intros ?%elem_of_nil | by intros [?%elem_of_nil _]]. }
  cbn [micro_connector_loop] in H.
  apply bind_Ok in H as (taz_id & [_ ->]%getitem_Ok & H).
  apply bind_Ok in H as (raw & [_ ->]%getitem_Ok & H).
  rewrite Hz in H. cbn [vadd mbind result_bind] in H.
  destruct (existsb (veqb (VInt (z + s))) used) eqn:Hseen.
  - apply existsb_veqb_int in Hseen; [|done].
    destruct (IH _ _ _ H Hused) as (ends & Hfrom & Hto & Hnd & Hin & Hfirst).
    exists ends. repeat (split; [done|]). split.
    + intros z'. rewrite Hin, fmap_cons, elem_of_cons. split; [tauto|].
      intros [[->|?] ?]; tauto.
    + rewrite Forall_forall in Hfirst |- *. intros e He.
      destruct (Hfirst e He) as (i & r & Hi & Htaz & Hidx & Hbefore).
      exists (S i), r. repeat (split; [done|]).
      intros [|j] Hj; cbn [lookup list_lookup].
      * intros [= Heq].
        assert (e.2 ∈ ends.*2) as He2 by (apply list_elem_of_fmap; by exists e).
        apply Hin in He2 as [_ Hnot]. apply Hnot.
        by replace (e.2) with (z + s) by lia.
      * apply Hbefore. lia.
  - assert (VInt (z + s) ∉ used) as Hnew.
    { intros Hin%existsb_veqb_int; [congruence | done]. }
    apply bind_Ok in H as (found & [_ ->]%where_eq_Ok & H).
    apply bind_Ok in H as (taz_row & _ & H).
    apply bind_Ok in H as (taz_x & _ & H).
    apply bind_Ok in H as (taz_y & _ & H).
    apply bind_Ok in H as (mx & _ & H).
    apply bind_Ok in H as (my & _ & H).
    apply bind_Ok in H as (connectors & Hrec & H).
    assert (l = connector_pair link_id (cell row "taz_id") (VInt (z + s))
                  taz_x taz_y mx my "micro" ++ connectors) as -> by congruence.
    clear H.
    destruct (IH _ _ _ Hrec) as (ends & Hfrom & Hto & Hnd & Hin & Hfirst).
    { constructor; [by eexists | done]. }
    destruct (connector_pair_app_ends link_id (cell row "taz_id") (VInt (z + s))
                taz_x taz_y mx my "micro" connectors _ _ Hfrom Hto) as [Hf Ht].
    exists ((cell row "taz_id", z + s) :: ends).
    split; [exact Hf|]. split; [exact Ht|]. split; [|split].
    + rewrite fmap_cons. constructor; [|done]. cbn [snd].
      intros [_ Hnot]%Hin. apply Hnot. left.
    + intros z'. rewrite !fmap_cons, !elem_of_cons, Hin. cbn [snd].
      rewrite not_elem_of_cons. split.
      * intros [->|(? & ? & ?)]; [by split; [left|] | by split; [right|]].
      * intros [[->|?] ?]; [by left|].
        destruct (decide (z' = z + s)) as [->|Hne]; [by left | right].
        split; [done|]. split; [congruence | done].
    + constructor.
      * exists 0%nat, row. cbn [fst snd lookup list_lookup].
        split; [done|]. split; [done|]. split; [f_equal; lia | lia].
      * rewrite Forall_forall in Hfirst |- *. intros e He.
        destruct (Hfirst e He) as (i & r & Hi & Htaz & Hidx & Hbefore).
        exists (S i), r. repeat (split; [done|]).
        intros [|j] Hj; cbn [lookup list_lookup].
        -- intros [= Heq].
           assert (e.2 ∈ ends.*2) as He2 by (apply list_elem_of_fmap; by exists e).
           apply Hin in He2 as [_ Hnot]. apply Hnot.
           replace (e.2) with (z + s) by lia. left.
        -- apply Hbefore. lia.
Qed.

(** [generate_micro_connectors] connects every micro node once: the map may
    list a micro node for several TAZs, and the node gets one pair of links,
    to the TAZ of the first row of the map that lists it; the rows that
    follow for the same node are skipped. *)
Theorem micro_connectors_once_per_node (taz_df tmap micro_nodes uc : Frame)
    tc (s link_id : Z) (ids : list Z) :
  generate_micro_connectors taz_df tmap micro_nodes tc (VInt s) link_id = Ok uc →
  column tmap "micro_node_id" = VInt <$> ids →
  ∃ ends : list (Value * Z),
    column uc "from_node_id" = ends ≫= (λ e, [e.1; VInt e.2]) ∧
    column uc "to_node_id" = ends ≫= (λ e, [VInt e.2; e.1]) ∧
    NoDup ends.*2 ∧
    (∀ z, z ∈ ends.*2 ↔ z ∈ (λ z, z + s) <$> ids) ∧
    Forall (λ e, ∃ (i : nat) row,
               rows tmap !! i = Some row ∧ cell row "taz_id" = e.1 ∧
               ids !! i = Some (e.2 - s) ∧
               ∀ j, (j < i)%nat → ids !! j ≠ Some (e.2 - s)) ends.
Proof.
  unfold generate_micro_connectors. intros H Hids.
  apply bind_Ok in H as (l & Hloop & [= <-]).
  destruct (micro_connector_loop_ends _ _ _ _ _ ids _ _ _ Hloop)
    as (ends & Hfrom & Hto & Hnd & Hin & Hfirst).
  - unfold column in Hids. clear Hloop.
    revert ids Hids. induction (rows tmap) as [|row rs IH]; intros ids Hids.
    + destruct ids; [constructor | done].
    + destruct ids as [|z ids]; [done|]. rewrite !fmap_cons in Hids.
      injection Hids as Hz Hids. constructor; [done | by apply IH].
  - constructor.
  - exists ends. repeat (split; [done|]). split; [|done].
    intros z. rewrite Hin. split; [tauto|]. intros ?. split; [done|].
    apply not_elem_of_nil.
Qed.

(** ** The final tables *)

(** Reads the cells of rows that were written to, column by column. *)
Ltac simpl_cells :=
  repeat first
    [ rewrite cell_insert, decide_True by done
    | rewrite cell_insert, decide_False by done ].
Ltac simpl_cells_in H :=
  repeat first
    [ rewrite cell_insert, decide_True in H by done
    | rewrite cell_insert, decide_False in H by done ].

Lemma elem_of_rows_df_iadd_vadd df c v df' r' :
  df_iadd df c v = Ok df' → r' ∈ rows df' →
  ∃ r w, r ∈ rows df ∧ vadd (cell r c) v = Ok w ∧ r' = <[c := w]> r.
Proof.
  intros (_ & _ & Hrows)%df_iadd_Ok Hr'.
  apply list_elem_of_lookup in Hr' as [i Hi].
  destruct (Forall2_lookup_r _ _ _ _ _ Hrows Hi) as (r & Hr & w & Hw & ->).
  exists r, w. split; [by eapply list_elem_of_lookup_2 | done].
Qed.

Lemma df_iadd_elem_of df c v df' r :
  df_iadd df c v = Ok df' → r ∈ rows df →
  ∃ w, vadd (cell r c) v = Ok w ∧ <[c := w]> r ∈ rows df'.
Proof.
  intros (_ & _ & Hrows)%df_iadd_Ok Hr.
  apply list_elem_of_lookup in Hr as [i Hi].
  destruct (Forall2_lookup_l _ _ _ _ _ Hrows Hi) as (r' & Hr' & w & Hw & ->).
  exists w. split; [done | by eapply list_elem_of_lookup_2].
Qed.

Lemma project_sort_rows (dfs : list Frame) cs by_ final :
  project (pd_concat dfs) cs ≫= (λ df, sort_values df by_) = Ok final →
  columns final = cs ∧
  rows final ≡ₚ (λ r, filter (λ kv, kv.1 ∈ cs) r) <$> (dfs ≫= rows).
Proof.
  intros (df & [_ ->]%project_Ok & [_ ->]%sort_values_Ok)%bind_Ok.
  cbn [rows columns]. split; [done|].
  by rewrite stable_sort_Permutation, rows_pd_concat.
Qed.

(** The rows that [find_nearest_scc_nodes] returns, one for every TAZ row:
    the cells of the TAZ row, and under [candidate_node_id_1] the id of a
    meso node of component 0, or what the TAZ row held there when the
    component is empty. *)
Lemma nsmallest_rows (df nearest : Frame) k c r :
  nsmallest k c df = Ok nearest → r ∈ rows nearest → r ∈ rows df.
Proof.
  unfold nsmallest. destruct (has_column df c); [|done]. intros [= <-].
  cbn [rows]. intros Hr. apply (subseteq_take _ _ _) in Hr.
  apply elem_of_app in Hr as [Hr|Hr].
  - rewrite stable_sort_Permutation in Hr.
    by apply list_elem_of_filter in Hr as [_ ?].
  - by apply list_elem_of_filter in Hr as [_ ?].
Qed.

Lemma same_but_distance_setcol (L : list Row) (largest : Frame) (d : list Value) :
  same_but_distance L (rows largest) → length d = length (rows largest) →
  same_but_distance L (rows (df_setcol largest "distance" d)).
Proof.
  unfold df_setcol, same_but_distance. cbn [rows]. intros Hsame. revert d.
  induction Hsame as [|r0 r L rs Hr _ IH]; intros d Hlen.
  - destruct d; [constructor | done].
  - destruct d as [|v d]; [done|]. cbn [zip_with]. constructor.
    + intros c Hc. rewrite cell_insert, decide_False by done. by apply Hr.
    + apply IH. simpl in Hlen. lia.
Qed.

Lemma nearest_loop_candidates taz_df k tazs (largest : Frame) (L : list Row) l :
  nearest_loop taz_df k tazs largest = Ok l →
  same_but_distance L (rows largest) →
  Forall2 (λ taz d, ∃ ids,
      d = add_candidates (to_dict taz_df taz) ids ∧
      Forall (λ id, ∃ r, r ∈ L ∧ id = cell r "node_id") ids)
    tazs l.
Proof.
  revert largest l. induction tazs as [|taz tazs IH]; intros largest l H Hsame.
  - injection H as <-. constructor.
  - cbn [nearest_loop] in H.
    apply bind_Ok in H as (d & Hd%distances_Ok & H).
    apply bind_Ok in H as (nearest & Hnearest & H).
    apply bind_Ok in H as (ids & [_ ->]%getcol_Ok & H).
    apply bind_Ok in H as (result & Hrec & H).
    assert (l = add_candidates (to_dict taz_df taz) (column nearest "node_id")
                  :: result) as -> by congruence.
    clear H.
    assert (same_but_distance L (rows (df_setcol largest "distance" d))) as Hsame'.
    { apply same_but_distance_setcol; [done|]. symmetry.
      by eapply Forall2_length. }
    constructor; [|by eapply IH].
    eexists. split; [reflexivity|].
    unfold column. apply Forall_fmap, Forall_forall. intros r' Hr'. simpl.
    apply (nsmallest_rows _ _ _ _ _ Hnearest) in Hr'.
    apply list_elem_of_lookup in Hr' as [i Hi].
    destruct (Forall2_lookup_r _ _ _ _ _ Hsame' Hi) as (r & Hr & Hcells).
    exists r. split; [by eapply list_elem_of_lookup_2 | by apply Hcells].
Qed.

Lemma find_nearest_scc_nodes_rows taz_df meso_nodes k (cands : Frame) :
  find_nearest_scc_nodes taz_df meso_nodes k = Ok cands →
  Forall2 (λ taz row,
      (∀ c, c ∈ columns taz_df → (∀ i, candidate_column i ≠ c) →
            cell row c = cell taz c) ∧
      ((∃ r, r ∈ rows meso_nodes ∧ veqb (cell r "scc_id") (VInt 0) = true ∧
             cell row "candidate_node_id_1" = cell r "node_id") ∨
       cell row "candidate_node_id_1"
       = if decide ("candidate_node_id_1" ∈ columns taz_df)
         then cell taz "candidate_node_id_1" else NaN))
    (rows taz_df) (rows cands).
Proof.
  unfold find_nearest_scc_nodes. intros H.
  apply bind_Ok in H as (largest & [_ ->]%where_eq_Ok & H).
  apply bind_Ok in H as (result & Hloop & [= <-]).
  pose proof (nearest_loop_candidates _ _ _ _ _ _ Hloop
                (same_but_distance_refl _)) as Hall.
  rewrite rows_pd_DataFrame. apply Forall2_fmap_r.
  eapply Forall2_impl; [exact Hall|]. clear.
  intros taz d (ids & -> & Hids). split.
  - intros c Hc Hcand. rewrite cell_add_candidates by done.
    rewrite cell_to_dict. by rewrite decide_True.
  - change "candidate_node_id_1" with (candidate_column 0).
    destruct ids as [|id ids].
    + right. rewrite cell_add_candidates_beyond by (simpl; lia).
      apply cell_to_dict.
    + left. apply Forall_cons in Hids as [(r & Hr & ->) _].
      cbn [rows] in Hr. apply list_elem_of_filter in Hr as [Hscc Hr].
      exists r. split; [done|]. split; [done|].
      by apply cell_add_candidates_pick.
Qed.

Lemma micro_connector_loop_chunks taz_df tmap tc (shift : Value)
    pairs link_id used l :
  micro_connector_loop taz_df tmap tc shift pairs link_id used = Ok l →
  ∃ chunks,
    l = concat chunks ∧
    Forall (λ chunk, ∃ i row mid taz_row,
        row ∈ pairs ∧
        vadd (cell row "micro_node_id") shift = Ok mid ∧
        first_taz taz_df tc (cell row "taz_id") = Some taz_row ∧
        chunk = connector_pair i (cell row "taz_id") mid
                  (cell taz_row "x_coord") (cell taz_row "y_coord")
                  (cell row "x_coord") (cell row "y_coord") "micro")
      chunks.
Proof.
  revert link_id used l.
  induction pairs as [|row pairs IH]; intros link_id used l H.
  - injection H as <-. exists []. split; [done | constructor].
  - cbn [micro_connector_loop] in H.
    apply bind_Ok in H as (taz_id & [_ ->]%getitem_Ok & H).
    apply bind_Ok in H as (raw & [_ ->]%getitem_Ok & H).
    apply bind_Ok in H as (mid & Hmid & H).
    assert (∀ chunks,
              Forall (λ chunk, ∃ i row0 mid taz_row,
                  row0 ∈ pairs ∧
                  vadd (cell row0 "micro_node_id") shift = Ok mid ∧
                  first_taz taz_df tc (cell row0 "taz_id") = Some taz_row ∧
                  chunk = connector_pair i (cell row0 "taz_id") mid
                            (cell taz_row "x_coord") (cell taz_row "y_coord")
                            (cell row0 "x_coord") (cell row0 "y_coord") "micro")
                chunks →
              Forall (λ chunk, ∃ i row0 mid taz_row,
                  row0 ∈ row :: pairs ∧
                  vadd (cell row0 "micro_node_id") shift = Ok mid ∧
                  first_taz taz_df tc (cell row0 "taz_id") = Some taz_row ∧
                  chunk = connector_pair i (cell row0 "taz_id") mid
                            (cell taz_row "x_coord") (cell taz_row "y_coord")
                            (cell row0 "x_coord") (cell row0 "y_coord") "micro")
                chunks) as Hweaken.
    { intros chunks Hall. eapply Forall_impl; [exact Hall|].
      intros chunk (i & row0 & mid0 & taz_row & ? & ? & ? & ?).
      exists i, row0, mid0, taz_row. split; [by right | done]. }
    destruct (existsb (veqb mid) used).
    + apply IH in H as (chunks & -> & Hall). exists chunks. split; [done|].
      by apply Hweaken.
    + apply bind_Ok in H as (found & [_ ->]%where_eq_Ok & H).
      apply bind_Ok in H as (taz_row & Htaz%iloc0_Ok & H).
      apply bind_Ok in H as (taz_x & [_ ->]%getitem_Ok & H).
      apply bind_Ok in H as (taz_y & [_ ->]%getitem_Ok & H).
      apply bind_Ok in H as (mx & [_ ->]%getitem_Ok & H).
      apply bind_Ok in H as (my & [_ ->]%getitem_Ok & H).
      apply bind_Ok in H as (connectors & Hrec & H).
      apply IH in Hrec as (chunks & -> & Hall).
      exists (connector_pair link_id (cell row "taz_id") mid
                (cell taz_row "x_coord") (cell taz_row "y_coord")
                (cell row "x_coord") (cell row "y_coord") "micro" :: chunks).
      split; [cbn [concat]; congruence|].
      constructor; [|by apply Hweaken].
      exists link_id, row, mid, taz_row. split; [left | done].
Qed.

Lemma connector_pair_cells link_id (taz_id node_id taz_x taz_y mx my : Value)
    layer (d : dict) :
  d ∈ connector_pair link_id taz_id node_id taz_x taz_y mx my layer →
  cell (list_to_map d) "layer" = VStr layer ∧
  cell (list_to_map d) "link_type_name" = VStr "connector" ∧
  ((cell (list_to_map d) "from_node_id" = taz_id ∧
    cell (list_to_map d) "to_node_id" = node_id) ∨
   (cell (list_to_map d) "from_node_id" = node_id ∧
    cell (list_to_map d) "to_node_id" = taz_id)).
Proof.
  unfold connector_pair.
  intros [->|[->|[]%elem_of_nil]%elem_of_cons]%elem_of_cons.
  - split; [by vm_compute|]. split; [by vm_compute|]. left. by vm_compute.
  - split; [by vm_compute|]. split; [by vm_compute|]. right. by vm_compute.
Qed.

Lemma candidate_column_ne_lower i c :
  (∃ s, c = String (Ascii.ascii_of_nat 120) s) ∨
  (∃ s, c = String (Ascii.ascii_of_nat 121) s) ∨
  (∃ s, c = String (Ascii.ascii_of_nat 84) s) →
  candidate_column i ≠ c.
Proof.
  destruct (candidate_column_head i) as [s ->].
  intros [[? ->]|[[? ->]|[? ->]]]; discriminate.
Qed.

Lemma create_taz_nodes_each taz_df tc (tn : Frame) :
  create_taz_nodes taz_df tc = Ok tn →
  "x_coord" ∈ columns taz_df ∧ "y_coord" ∈ columns taz_df ∧
  Forall2 (λ r r',
      cell r' "node_id" = cell r tc ∧ cell r' "zone_id" = cell r tc ∧
      cell r' "x" = cell r "x_coord" ∧ cell r' "y" = cell r "y_coord")
    (rows taz_df) (rows tn).
Proof.
  unfold create_taz_nodes. intros H.
  apply bind_Ok in H as (? & _ & H).
  apply bind_Ok in H as (? & [Hx _]%getcol_Ok & H).
  apply bind_Ok in H as (? & [Hy _]%getcol_Ok & H).
  injection H as <-. cbn [rows].
  split; [done|]. split; [done|].
  apply Forall2_fmap_r, Forall_Forall2_diag, Forall_forall. intros r _.
  repeat split; by vm_compute.
Qed.

(** The final node table has the five columns [node_id], [x], [y],
    [zone_id], [layer] and exactly one row for every TAZ, meso node and
    micro node: its rows are, in the order of their [node_id], one row for
    each row of the TAZ table, one for each row of the meso node table and
    one for each row of the micro node table.  The row of a TAZ is of layer
    [taz] and carries the id of the TAZ as [node_id] and as [zone_id] and
    the TAZ's coordinates as [x] and [y]; the row of a meso or micro node is
    of its layer, has the empty string as [zone_id], the id of the node plus
    the shift of its layer as [node_id], and under [x] and [y] what the node
    held there. *)
Theorem final_nodes_rows
    (taz meso mesol micro microl final_links final_nodes : Frame) σ' :
  main 0 1 2 3 4 [taz; meso; mesol; micro; microl]
    = Ok ((final_links, final_nodes), σ') →
  ∃ cands (s1 s2 ls : Value) (taz_rows meso_rows micro_rows : list Row),
    σ' !! 5%nat = Some cands ∧ compute_shifts cands meso = Ok (s1, s2, ls) ∧
    columns final_nodes = ["node_id"; "x"; "y"; "zone_id"; "layer"] ∧
    rows final_nodes ≡ₚ taz_rows ++ meso_rows ++ micro_rows ∧
    Forall2 (λ t row,
        cell row "layer" = VStr "taz" ∧
        cell row "node_id" = cell t "TAZ_clean" ∧
        cell row "zone_id" = cell t "TAZ_clean" ∧
        cell row "x" = cell t "x_coord" ∧ cell row "y" = cell t "y_coord")
      (rows taz) taz_rows ∧
    Forall2 (λ m row,
        cell row "layer" = VStr "meso" ∧ cell row "zone_id" = VStr "" ∧
        vadd (cell m "node_id") s1 = Ok (cell row "node_id") ∧
        cell row "x" = cell m "x" ∧ cell row "y" = cell m "y")
      (rows meso) meso_rows ∧
    Forall2 (λ u row,
        cell row "layer" = VStr "micro" ∧ cell row "zone_id" = VStr "" ∧
        vadd (cell u "node_id") s2 = Ok (cell row "node_id") ∧
        cell row "x" = cell u "x" ∧ cell row "y" = cell u "y")
      (rows micro) micro_rows.
Proof.
  intros Hmain.
  destruct (main_nonempty _ _ _ _ _ _ _ _ Hmain) as (Htc & _).
  invert_main Hmain.
  destruct (project_sort_rows _ _ _ _ Hfinal_nodes) as [Hcols Hrows].
  cbn [mbind list_bind] in Hrows. rewrite app_nil_r, !fmap_app in Hrows.
  eexists cands, s1, s2, ls, _, _, _.
  split; [reflexivity|]. split; [done|]. split; [done|].
  split; [exact Hrows|]. split; [|split].
  - subst nodes_taz. unfold df_setitem. cbn [rows].
    rewrite <-list_fmap_compose. apply Forall2_fmap_r.
    destruct (create_taz_nodes_each _ _ _ Htn) as (Hx & Hy & Heach).
    assert ("x_coord" ∈ columns taz ∧ "y_coord" ∈ columns taz) as [Hxt Hyt].
    { split; (eapply find_nearest_scc_nodes_has_column; [done | done |]);
        intros j; apply candidate_column_ne_lower; [left | right; left];
        by eexists. }
    eapply Forall2_trans;
      [|exact (find_nearest_scc_nodes_rows _ _ _ _ Hnearest) | exact Heach].
    intros t rc r' [Hcells _] (Hid & Hzone & Hrx & Hry). cbn [compose].
    rewrite !cell_filter_keys. rewrite !decide_True by compute_done.
    rewrite !cell_insert, decide_True by done.
    repeat (rewrite decide_False by done).
    rewrite Hid, Hzone, Hrx, Hry. split; [done|].
    assert (cell rc "TAZ_clean" = cell t "TAZ_clean") as ->.
    { apply Hcells; [done|]. apply candidate_column_not_TAZ_clean. }
    assert (cell rc "x_coord" = cell t "x_coord") as ->.
    { apply Hcells; [done|]. intros j. apply candidate_column_ne_lower.
      left. by eexists. }
    assert (cell rc "y_coord" = cell t "y_coord") as ->.
    { apply Hcells; [done|]. intros j. apply candidate_column_ne_lower.
      right; left. by eexists. }
    done.
  - subst nodes_meso upd_meso. unfold df_setitem. cbn [rows].
    rewrite <-!list_fmap_compose. apply Forall2_fmap_r.
    apply df_iadd_Ok in Hmeso1 as (_ & _ & Heach).
    eapply Forall2_impl; [exact Heach|].
    intros m r' (w & Hw & ->). cbn [compose].
    rewrite !cell_filter_keys. rewrite !decide_True by compute_done.
    rewrite !cell_insert. rewrite !decide_True by done.
    repeat (rewrite decide_False by done). rewrite ?decide_True by done.
    done.
  - subst nodes_micro upd_micro. unfold df_setitem. cbn [rows].
    rewrite <-!list_fmap_compose. apply Forall2_fmap_r.
    apply df_iadd_Ok in Hmicro1 as (_ & _ & Heach1).
    apply df_iadd_Ok in Hmicro2 as (_ & _ & Heach2).
    eapply Forall2_trans; [|exact Heach1 | exact Heach2].
    intros u r1 r2 (w & Hw & ->) (w' & _ & ->). cbn [compose].
    rewrite !cell_filter_keys. rewrite !decide_True by compute_done.
    rewrite !cell_insert. rewrite !decide_True by done.
    repeat (rewrite decide_False by done). rewrite ?decide_True by done.
    done.
Qed.

Lemma map_taz_to_micro_nodes_out (cands mesol microl micro tmap : Frame) cc out :
  map_taz_to_micro_nodes cands mesol microl micro cc = Ok tmap →
  out ∈ rows tmap →
  ∃ row node,
    row ∈ rows cands ∧ node ∈ rows micro ∧
    cell out "taz_id" = cell row "TAZ_clean" ∧
    cell out "micro_node_id" = cell node "node_id" ∧
    cell out "x_coord" = cell node "x_coord" ∧
    cell out "y_coord" = cell node "y_coord".
Proof.
  intros (results & Hrows & Hall)%map_taz_to_micro_nodes_rows Hout.
  rewrite Hrows in Hout. apply list_elem_of_fmap in Hout as (d & -> & Hd).
  apply elem_of_concat in Hd as (result & Hd & Hresult).
  apply list_elem_of_lookup in Hresult as [i Hi].
  destruct (Forall2_lookup_r _ _ _ _ _ Hall Hi) as (row & Hrow & sn & Hsn & ->).
  apply list_elem_of_fmap in Hd as (node & -> & [Hisin Hnode]%list_elem_of_filter).
  exists row, node. split; [by eapply list_elem_of_lookup_2|]. split; [done|].
  apply cell_micro_map_row.
Qed.

Lemma vadd_NaN_l (s mid : Value) : vadd NaN s = Ok mid → mid = NaN.
Proof. destruct s; simpl; congruence. Qed.

Lemma veqb_NaN_r v : veqb v NaN = false.
Proof. by destruct v. Qed.

Lemma shifted_column_elem_of df c (s : Value) df' a w :
  df_iadd df c s = Ok df' → a ∈ column df c → vadd a s = Ok w →
  w ∈ column df' c.
Proof.
  intros Hadd [i Hi]%list_elem_of_lookup Hw.
  destruct (Forall2_lookup_l _ _ _ _ _ (df_iadd_column _ _ _ _ Hadd) Hi)
    as (b & Hb & Hab).
  rewrite Hw in Hab. injection Hab as <-. by eapply list_elem_of_lookup_2.
Qed.

Lemma elem_of_column df c r : r ∈ rows df → cell r c ∈ column df c.
Proof. intros Hr. apply list_elem_of_fmap. by exists r. Qed.

(** Where the endpoints of the final links come from: the id of a TAZ, the
    shifted id of a meso node (the candidate of a TAZ) or of a micro node
    (a row of the TAZ-to-micro map), or the shifted endpoint of a meso link
    or of a micro link. *)
Lemma final_link_endpoints
    (taz meso mesol micro microl final_links final_nodes : Frame) σ' :
  main 0 1 2 3 4 [taz; meso; mesol; micro; microl]
    = Ok ((final_links, final_nodes), σ') →
  "candidate_node_id_1" ∉ columns taz →
  ∃ cands (s1 s2 ls : Value),
    σ' !! 5%nat = Some cands ∧ compute_shifts cands meso = Ok (s1, s2, ls) ∧
    ∀ row, row ∈ rows final_links →
    ∀ e, e = "from_node_id" ∨ e = "to_node_id" →
      cell row e ∈ column cands "TAZ_clean" ∨
      (∃ a, a ∈ column meso "node_id" ∧ vadd a s1 = Ok (cell row e)) ∨
      (∃ a, a ∈ column micro "node_id" ∧ vadd a s2 = Ok (cell row e)) ∨
      (∃ l, l ∈ rows mesol ∧ vadd (cell l e) s1 = Ok (cell row e)) ∨
      (∃ l, l ∈ rows microl ∧ vadd (cell l e) s2 = Ok (cell row e)).
Proof.
  intros Hmain Hcc. invert_main Hmain. exists cands, s1, s2, ls.
  split; [reflexivity|]. split; [done|]. intros row Hrow e He.
  subst all_links.
  destruct (project_sort_rows _ _ _ _ Hfinal_links) as [_ Hrows].
  rewrite Hrows in Hrow. clear Hrows Hfinal_links.
  apply list_elem_of_fmap in Hrow as (r & -> & Hr).
  rewrite !cell_filter_keys.
  rewrite !decide_True
    by (apply elem_of_app; left; destruct He as [-> | ->]; compute_done).
  cbn [mbind list_bind] in Hr.
  rewrite app_nil_r, !elem_of_app in Hr. destruct Hr as [Hr|[Hr|[Hr|Hr]]].
  - (* a meso connector *)
    unfold generate_meso_connectors in Hmc.
    apply bind_Ok in Hmc as (l & Hloop & [= <-]).
    apply meso_connector_loop_chunks in Hloop as (chunks & -> & Hall).
    rewrite rows_pd_DataFrame in Hr.
    apply list_elem_of_fmap in Hr as (d & -> & Hd).
    apply elem_of_concat in Hd as (chunk & Hd & [i Hi]%list_elem_of_lookup).
    destruct (Forall2_lookup_r _ _ _ _ _ Hall Hi)
      as (crow & Hcrow & k & mid & node & Hmid & Hnode & ->).
    apply list_elem_of_lookup_2 in Hcrow as Hcrow_in.
    assert (∃ a, a ∈ column meso "node_id" ∧ vadd a s1 = Ok mid) as Hmid_in.
    { destruct (Forall2_lookup_r _ _ _ _ _
                  (find_nearest_scc_nodes_rows _ _ _ _ Hnearest) Hcrow)
        as (t & _ & _ & [(rm & Hrm & _ & Hcand)|Hcand]).
      - rewrite Hcand in Hmid. eexists. split; [|done]. by apply elem_of_column.
      - rewrite decide_False in Hcand by done. rewrite Hcand in Hmid.
        apply vadd_NaN_l in Hmid as ->. unfold first_with_id in Hnode.
        apply list_elem_of_lookup_2, list_elem_of_filter in Hnode as [Hnode _].
        by rewrite veqb_NaN_r in Hnode. }
    pose proof (elem_of_column cands "TAZ_clean" crow Hcrow_in) as Htaz.
    destruct (connector_pair_cells _ _ _ _ _ _ _ _ _ Hd)
      as (_ & _ & [[Hf Ht]|[Hf Ht]]);
      destruct He as [-> | ->]; rewrite ?Hf, ?Ht; auto.
  - (* a meso link *)
    apply (elem_of_rows_df_iadd_vadd _ _ _ _ _ Hmesol3) in Hr
      as (r2 & w3 & Hr & _ & ->).
    apply (elem_of_rows_df_iadd_vadd _ _ _ _ _ Hmesol2) in Hr
      as (r1 & w2 & Hr & Hw2 & ->).
    apply (elem_of_rows_df_iadd_vadd _ _ _ _ _ Hmesol1) in Hr
      as (r0 & w1 & Hr & Hw1 & ->).
    apply elem_of_rows_df_setitem in Hr as (l & Hl & ->).
    simpl_cells_in Hw1. simpl_cells_in Hw2.
    do 3 right. left. exists l. split; [done|].
    destruct He as [-> | ->]; by simpl_cells.
  - (* a micro connector *)
    apply (elem_of_rows_df_iadd_vadd _ _ _ _ _ Huc') in Hr
      as (r0 & w & Hr & _ & ->).
    assert (cell (<["link_id" := w]> r0) e = cell r0 e) as ->.
    { destruct He as [-> | ->]; by simpl_cells. }
    unfold generate_micro_connectors in Huc.
    apply bind_Ok in Huc as (l & Hloop & [= <-]).
    apply micro_connector_loop_chunks in Hloop as (chunks & -> & Hall).
    rewrite rows_pd_DataFrame in Hr.
    apply list_elem_of_fmap in Hr as (d & -> & Hd).
    apply elem_of_concat in Hd as (chunk & Hd & Hchunk).
    rewrite Forall_forall in Hall.
    destruct (Hall chunk Hchunk) as (k & out & mid & taz_row & Hout & Hmid & _ & ->).
    destruct (map_taz_to_micro_nodes_out _ _ _ _ _ _ _ Hmap Hout)
      as (crow & node & Hcrow & Hnode & Htaz & Hid & _).
    rewrite Htaz in Hd. rewrite Hid in Hmid.
    pose proof (elem_of_column cands "TAZ_clean" crow Hcrow) as Htaz_in.
    assert (∃ a, a ∈ column micro "node_id" ∧ vadd a s2 = Ok mid) as Hmid_in.
    { eexists. split; [|done]. by apply elem_of_column. }
    destruct (connector_pair_cells _ _ _ _ _ _ _ _ _ Hd)
      as (_ & _ & [[Hf Ht]|[Hf Ht]]);
      destruct He as [-> | ->]; rewrite ?Hf, ?Ht; auto.
  - (* a micro link *)
    apply (elem_of_rows_df_iadd_vadd _ _ _ _ _ Hmicrol4) in Hr
      as (r3 & w4 & Hr & _ & ->).
    apply (elem_of_rows_df_iadd_vadd _ _ _ _ _ Hmicrol3) in Hr
      as (r2 & w3 & Hr & _ & ->).
    apply (elem_of_rows_df_iadd_vadd _ _ _ _ _ Hmicrol2) in Hr
      as (r1 & w2 & Hr & Hw2 & ->).
    apply (elem_of_rows_df_iadd_vadd _ _ _ _ _ Hmicrol1) in Hr
      as (r0 & w1 & Hr & Hw1 & ->).
    apply elem_of_rows_df_setitem in Hr as (l & Hl & ->).
    simpl_cells_in Hw1. simpl_cells_in Hw2.
    do 4 right. exists l. split; [done|].
    destruct He as [-> | ->]; by simpl_cells.
Qed.

(** The node ids of the final table: the TAZ ids and the shifted ids of the
    meso and micro nodes. *)
Lemma final_node_ids
    (taz meso mesol micro microl final_links final_nodes : Frame) σ' :
  main 0 1 2 3 4 [taz; meso; mesol; micro; microl]
    = Ok ((final_links, final_nodes), σ') →
  ∃ cands (s1 s2 ls : Value),
    σ' !! 5%nat = Some cands ∧ compute_shifts cands meso = Ok (s1, s2, ls) ∧
    find_nearest_scc_nodes taz meso 1 = Ok cands ∧
    ∀ x, x ∈ column final_nodes "node_id" ↔
         x ∈ column cands "TAZ_clean" ∨
         (∃ a, a ∈ column meso "node_id" ∧ vadd a s1 = Ok x) ∨
         (∃ a, a ∈ column micro "node_id" ∧ vadd a s2 = Ok x).
Proof.
  intros Hmain. invert_main Hmain. exists cands, s1, s2, ls.
  split; [reflexivity|]. split; [done|]. split; [done|]. intros x.
  rewrite (project_sort_column _ _ _ _ "node_id" Hfinal_nodes) by compute_done.
  cbn [mbind list_bind]. rewrite app_nil_r, !elem_of_app.
  subst nodes_taz nodes_meso nodes_micro upd_meso upd_micro.
  rewrite !column_df_setitem_ne by done.
  rewrite (create_taz_nodes_column _ _ _ Htn).
  rewrite (df_iadd_column_ne _ _ "node_id" _ _ Hmicro2) by done.
  pose proof (df_iadd_column _ _ _ _ Hmeso1) as Hm.
  pose proof (df_iadd_column _ _ _ _ Hmicro1) as Hu.
  assert (∀ (s : Value) l l',
            Forall2 (λ a b, vadd a s = Ok b) l l' →
            x ∈ l' ↔ ∃ a, a ∈ l ∧ vadd a s = Ok x) as Hshift.
  { intros s l l' Hall. split.
    - intros [i Hi]%list_elem_of_lookup.
      destruct (Forall2_lookup_r _ _ _ _ _ Hall Hi) as (a & Ha & Hax).
      exists a. split; [by eapply list_elem_of_lookup_2 | done].
    - intros (a & [i Hi]%list_elem_of_lookup & Hax).
      destruct (Forall2_lookup_l _ _ _ _ _ Hall Hi) as (b & Hb & Hab).
      rewrite Hax in Hab. injection Hab as <-. by eapply list_elem_of_lookup_2. }
  by rewrite (Hshift _ _ _ Hm), (Hshift _ _ _ Hu).
Qed.

(** Every endpoint of a link of the final table is the id of a node of the
    final node table, provided the endpoints of the meso links were ids of
    meso nodes and those of the micro links ids of micro nodes.  The
    connectors need no such condition: a meso connector joins a TAZ with
    its candidate, which is a meso node, and a micro connector joins a TAZ
    with a row of the micro node table; and the same shift is added to a
    node id and to the endpoints that refer to it. *)
Theorem final_links_resolve
    (taz meso mesol micro microl final_links final_nodes : Frame) σ' :
  main 0 1 2 3 4 [taz; meso; mesol; micro; microl]
    = Ok ((final_links, final_nodes), σ') →
  "candidate_node_id_1" ∉ columns taz →
  (∀ l, l ∈ rows mesol →
        cell l "from_node_id" ∈ column meso "node_id" ∧
        cell l "to_node_id" ∈ column meso "node_id") →
  (∀ l, l ∈ rows microl →
        cell l "from_node_id" ∈ column micro "node_id" ∧
        cell l "to_node_id" ∈ column micro "node_id") →
  ∀ row, row ∈ rows final_links →
    cell row "from_node_id" ∈ column final_nodes "node_id" ∧
    cell row "to_node_id" ∈ column final_nodes "node_id".
Proof.
  intros Hmain Hcc Hmesol Hmicrol row Hrow.
  destruct (final_link_endpoints _ _ _ _ _ _ _ _ Hmain Hcc)
    as (cands & s1 & s2 & ls & Hcands & Hshifts & Hends).
  destruct (final_node_ids _ _ _ _ _ _ _ _ Hmain)
    as (cands' & s1' & s2' & ls' & Hcands' & Hshifts' & _ & Hnodes).
  rewrite Hcands in Hcands'. injection Hcands' as <-.
  rewrite Hshifts in Hshifts'. injection Hshifts' as <- <- <-.
  assert (∀ e, e = "from_node_id" ∨ e = "to_node_id" →
               cell row e ∈ column final_nodes "node_id") as Hall.
  { intros e He. apply Hnodes.
    destruct (Hends row Hrow e He)
      as [Htaz|[Hmeso|[Hmicro|[(l & Hl & Hadd)|(l & Hl & Hadd)]]]].
    - by left.
    - right. by left.
    - right. by right.
    - right. left. exists (cell l e). split; [|done].
      destruct (Hmesol l Hl). by destruct He as [-> | ->].
    - right. right. exists (cell l e). split; [|done].
      destruct (Hmicrol l Hl). by destruct He as [-> | ->]. }
  split; apply Hall; auto.
Qed.

Lemma elem_of_columns_pd_concat (dfs : list Frame) c :
  c ∈ columns (pd_concat dfs) ↔ ∃ df, df ∈ dfs ∧ c ∈ columns df.
Proof.
  unfold pd_concat. cbn [columns].
  assert (∀ ks, c ∈ foldl (λ ks df, ks ++ filter (λ k, k ∉ ks) (columns df)) ks dfs
                ↔ c ∈ ks ∨ ∃ df, df ∈ dfs ∧ c ∈ columns df) as H.
  { induction dfs as [|df dfs IH]; intros ks; simpl.
    - split; [by left|]. intros [?|(df & []%elem_of_nil & _)]; done.
    - rewrite IH, elem_of_app, list_elem_of_filter. split.
      + intros [[?|[_ ?]]|(df' & ? & ?)]; [by left | right..].
        * exists df. split; [left | done].
        * exists df'. split; [by right | done].
      + intros [?|(df' & [->|?]%elem_of_cons & ?)]; [by left; left | |].
        * left. destruct (decide (c ∈ ks)); [by left | by right].
        * right. by exists df'. }
  rewrite H. split; [|by right]. by intros [[]%elem_of_nil|?].
Qed.

Lemma columns_df_iadd df c v df' :
  df_iadd df c v = Ok df' → columns df' = columns df.
Proof. by intros (_ & ? & _)%df_iadd_Ok. Qed.

Lemma elem_of_columns_df_setitem df c v c' :
  c' ∈ columns df → c' ∈ columns (df_setitem df c v).
Proof.
  intros Hc. unfold df_setitem. cbn [columns].
  destruct (has_column df c); [done|]. apply elem_of_app. by left.
Qed.

(** The final link table loses no link and no column.  It has one row for
    every meso connector, meso link, micro connector and micro link, two
    meso connectors for every TAZ, and every row is of layer [meso] or
    [micro]; its columns start with [link_id], [from_node_id],
    [to_node_id], [link_type], [layer], and every column of a link table
    that was loaded and of the connector frames is among them. *)
Theorem final_links_rows
    (taz meso mesol micro microl final_links final_nodes : Frame) σ' :
  main 0 1 2 3 4 [taz; meso; mesol; micro; microl]
    = Ok ((final_links, final_nodes), σ') →
  ∃ meso_connectors micro_connectors,
    σ' !! 10%nat = Some meso_connectors ∧ σ' !! 11%nat = Some micro_connectors ∧
    length (rows meso_connectors) = (2 * length (rows taz))%nat ∧
    length (rows final_links)
      = (length (rows meso_connectors) + length (rows mesol)
         + length (rows micro_connectors) + length (rows microl))%nat ∧
    (∀ row, row ∈ rows final_links →
            cell row "layer" = VStr "meso" ∨ cell row "layer" = VStr "micro") ∧
    take 5 (columns final_links) = ordered_cols ∧
    (∀ c, c ∈ columns mesol ∨ c ∈ columns microl ∨
          c ∈ columns meso_connectors ∨ c ∈ columns micro_connectors →
          c ∈ columns final_links).
Proof.
  intros Hmain. invert_main Hmain. exists mc, uc'.
  split; [reflexivity|]. split; [reflexivity|]. subst all_links.
  destruct (project_sort_rows _ _ _ _ Hfinal_links) as [Hcols Hrows].
  split.
  { pose proof (generate_meso_connectors_ids _ _ _ _ _ _ Hmc) as Hids.
    apply (f_equal length) in Hids.
    rewrite column_length, length_fmap, length_seqZ in Hids.
    rewrite (find_nearest_scc_nodes_len _ _ _ _ Hnearest) in Hids.
    unfold len in Hids. lia. }
  split.
  { rewrite Hrows, length_fmap. cbn [mbind list_bind].
    rewrite app_nil_r, !length_app.
    rewrite (df_iadd_length _ _ _ _ Hmesol3), (df_iadd_length _ _ _ _ Hmesol2),
      (df_iadd_length _ _ _ _ Hmesol1).
    rewrite (df_iadd_length _ _ _ _ Hmicrol4), (df_iadd_length _ _ _ _ Hmicrol3),
      (df_iadd_length _ _ _ _ Hmicrol2), (df_iadd_length _ _ _ _ Hmicrol1).
    unfold df_setitem. cbn [rows]. rewrite !length_fmap. lia. }
  split.
  { intros row Hrow. rewrite Hrows in Hrow.
    apply list_elem_of_fmap in Hrow as (r & -> & Hr).
    rewrite !cell_filter_keys.
    rewrite !decide_True by (apply elem_of_app; left; compute_done).
    cbn [mbind list_bind] in Hr.
    rewrite app_nil_r, !elem_of_app in Hr. destruct Hr as [Hr|[Hr|[Hr|Hr]]].
    - left. unfold generate_meso_connectors in Hmc.
      apply bind_Ok in Hmc as (l & Hloop & [= <-]).
      apply meso_connector_loop_chunks in Hloop as (chunks & -> & Hall).
      rewrite rows_pd_DataFrame in Hr.
      apply list_elem_of_fmap in Hr as (d & -> & Hd).
      apply elem_of_concat in Hd as (chunk & Hd & [i Hi]%list_elem_of_lookup).
      destruct (Forall2_lookup_r _ _ _ _ _ Hall Hi)
        as (crow & _ & k & mid & node & _ & _ & ->).
      by destruct (connector_pair_cells _ _ _ _ _ _ _ _ _ Hd) as [? _].
    - left.
      apply (elem_of_rows_df_iadd _ _ _ _ _ Hmesol3) in Hr as (r2 & ? & Hr & ->).
      apply (elem_of_rows_df_iadd _ _ _ _ _ Hmesol2) in Hr as (r1 & ? & Hr & ->).
      apply (elem_of_rows_df_iadd _ _ _ _ _ Hmesol1) in Hr as (r0 & ? & Hr & ->).
      apply elem_of_rows_df_setitem in Hr as (l & _ & ->). by simpl_cells.
    - right.
      apply (elem_of_rows_df_iadd _ _ _ _ _ Huc') in Hr as (r0 & ? & Hr & ->).
      simpl_cells. unfold generate_micro_connectors in Huc.
      apply bind_Ok in Huc as (l & Hloop & [= <-]).
      apply micro_connector_loop_chunks in Hloop as (chunks & -> & Hall).
      rewrite rows_pd_DataFrame in Hr.
      apply list_elem_of_fmap in Hr as (d & -> & Hd).
      apply elem_of_concat in Hd as (chunk & Hd & Hchunk).
      rewrite Forall_forall in Hall.
      destruct (Hall chunk Hchunk) as (k & out & mid & taz_row & _ & _ & _ & ->).
      by destruct (connector_pair_cells _ _ _ _ _ _ _ _ _ Hd) as [? _].
    - right.
      apply (elem_of_rows_df_iadd _ _ _ _ _ Hmicrol4) in Hr as (r3 & ? & Hr & ->).
      apply (elem_of_rows_df_iadd _ _ _ _ _ Hmicrol3) in Hr as (r2 & ? & Hr & ->).
      apply (elem_of_rows_df_iadd _ _ _ _ _ Hmicrol2) in Hr as (r1 & ? & Hr & ->).
      apply (elem_of_rows_df_iadd _ _ _ _ _ Hmicrol1) in Hr as (r0 & ? & Hr & ->).
      apply elem_of_rows_df_setitem in Hr as (l & _ & ->). by simpl_cells. }
  rewrite Hcols. split; [reflexivity|].
  intros c Hc.
  assert (c ∈ columns (pd_concat [mc; mesol3; uc'; microl4])) as Hin.
  { apply elem_of_columns_pd_concat.
    destruct Hc as [Hc|[Hc|[Hc|Hc]]].
    - exists mesol3. split; [right; left|].
      rewrite (columns_df_iadd _ _ _ _ Hmesol3), (columns_df_iadd _ _ _ _ Hmesol2),
        (columns_df_iadd _ _ _ _ Hmesol1).
      by apply elem_of_columns_df_setitem.
    - exists microl4. split; [do 3 right; left|].
      rewrite (columns_df_iadd _ _ _ _ Hmicrol4), (columns_df_iadd _ _ _ _ Hmicrol3),
        (columns_df_iadd _ _ _ _ Hmicrol2), (columns_df_iadd _ _ _ _ Hmicrol1).
      by apply elem_of_columns_df_setitem.
    - exists mc. split; [left | done].
    - exists uc'. split; [do 2 right; left | done]. }
  apply elem_of_app. destruct (decide (c ∈ ordered_cols)); [by left | right].
  by apply list_elem_of_filter.
Qed.

(** ** The order of the final tables *)

Section sorted.
Context {A : Type} (le : A → A → bool) (P : A → Prop).
Hypothesis le_total : ∀ x y, P x → P y → le x y = true ∨ le y x = true.
Hypothesis le_trans :
  ∀ x y z, P x → P y → P z → le x y = true → le y z = true → le x z = true.

Lemma insert_sorted_StronglySorted x l :
  P x → Forall P l →
  StronglySorted (λ a b, le a b = true) l →
  StronglySorted (λ a b, le a b = true) (insert_sorted le x l).
Proof.
  intros Hx HP Hsorted.
  induction Hsorted as [|y l Hsorted IH Hy]; simpl.
  - repeat constructor.
  - apply Forall_cons in HP as [HPy HP]. destruct (le x y) eqn:Hle.
    + constructor; [by constructor|]. constructor; [done|].
      rewrite Forall_forall in Hy, HP |- *. intros z Hz.
      eapply (le_trans x y z); auto.
    + constructor; [by apply IH|].
      rewrite insert_sorted_Permutation. constructor; [|done].
      destruct (le_total x y) as [?|?]; [done | done | congruence | done].
Qed.

Lemma stable_sort_StronglySorted l :
  Forall P l → StronglySorted (λ a b, le a b = true) (stable_sort le l).
Proof.
  induction 1 as [|x l Hx HP IH]; simpl; [constructor|].
  apply insert_sorted_StronglySorted; [done | | done].
  by rewrite stable_sort_Permutation.
Qed.

End sorted.

Lemma rows_le_int (c : string) (r1 r2 : Row) (x y : Z) :
  cell r1 c = VInt x → cell r2 c = VInt y →
  rows_le [c] r1 r2 = true ↔ x ≤ y.
Proof.
  intros H1 H2. cbn [rows_le]. rewrite H1, H2. cbn [na_last_le vleb].
  destruct (Z.leb_spec x y), (Z.leb_spec y x); split; (done || lia).
Qed.

Lemma rows_le_lex (c1 c2 : string) (r1 r2 : Row) (a1 b1 a2 b2 : Z) :
  cell r1 c1 = VInt a1 → cell r1 c2 = VInt b1 →
  cell r2 c1 = VInt a2 → cell r2 c2 = VInt b2 →
  rows_le [c1; c2] r1 r2 = true ↔ lex_le (a1, b1) (a2, b2).
Proof.
  intros Ha1 Hb1 Ha2 Hb2. unfold lex_le. cbn [rows_le fst snd].
  rewrite Ha1, Ha2, Hb1, Hb2. cbn [na_last_le vleb].
  destruct (Z.leb_spec a1 a2), (Z.leb_spec a2 a1),
    (Z.leb_spec b1 b2), (Z.leb_spec b2 b1); split; (done || lia).
Qed.

Lemma sorted_int_column (rs : list Row) c :
  Forall (λ r, ∃ z, cell r c = VInt z) rs →
  StronglySorted (λ a b, rows_le [c] a b = true) rs →
  ∃ zs, (λ r, cell r c) <$> rs = VInt <$> zs ∧ StronglySorted Z.le zs.
Proof.
  intros HP Hsorted. induction Hsorted as [|r rs Hsorted IH Hr].
  - exists []. split; [done | constructor].
  - apply Forall_cons in HP as [[z Hz] HP].
    destruct (IH HP) as (zs & Hzs & Hs). exists (z :: zs).
    rewrite !fmap_cons, Hz, Hzs. split; [done|]. constructor; [done|].
    apply Forall_forall. intros y Hy.
    assert (VInt y ∈ (λ r, cell r c) <$> rs) as Hin.
    { rewrite Hzs. apply list_elem_of_fmap. by exists y. }
    apply list_elem_of_fmap in Hin as (r' & Hy' & Hr').
    rewrite Forall_forall in Hr. specialize (Hr r' Hr').
    by apply (rows_le_int c r r' z y) in Hr.
Qed.

Lemma sorted_int_columns (rs : list Row) c1 c2 :
  Forall (λ r, ∃ a b, cell r c1 = VInt a ∧ cell r c2 = VInt b) rs →
  StronglySorted (λ r1 r2, rows_le [c1; c2] r1 r2 = true) rs →
  ∃ ends : list (Z * Z),
    (λ r, cell r c1) <$> rs = VInt <$> ends.*1 ∧
    (λ r, cell r c2) <$> rs = VInt <$> ends.*2 ∧
    Forall2 (λ r e, cell r c1 = VInt e.1 ∧ cell r c2 = VInt e.2) rs ends ∧
    StronglySorted lex_le ends.
Proof.
  intros HP Hsorted. induction Hsorted as [|r rs Hsorted IH Hr].
  - exists []. repeat split; constructor.
  - apply Forall_cons in HP as [(a & b & Ha & Hb) HP].
    destruct (IH HP) as (ends & Hfrom & Hto & Hall & Hs). exists ((a, b) :: ends).
    rewrite !fmap_cons, Ha, Hb, Hfrom, Hto. split; [done|]. split; [done|].
    split; [by constructor|]. constructor; [done|].
    apply Forall_forall. intros e [i Hi]%list_elem_of_lookup.
    destruct (Forall2_lookup_r _ _ _ _ _ Hall Hi) as (r' & Hr' & Ha' & Hb').
    rewrite Forall_forall in Hr.
    specialize (Hr r' (list_elem_of_lookup_2 _ _ _ Hr')).
    by apply (rows_le_lex c1 c2 r r' a b e.1 e.2) in Hr.
Qed.

(** The final node table is in the order of its node ids when the ids that
    were loaded are integers. *)
Theorem final_nodes_sorted
    (taz meso mesol micro microl final_links final_nodes : Frame) σ'
    (tz mz uz : list Z) :
  main 0 1 2 3 4 [taz; meso; mesol; micro; microl]
    = Ok ((final_links, final_nodes), σ') →
  column taz "TAZ_clean" = VInt <$> tz →
  column meso "node_id" = VInt <$> mz →
  column micro "node_id" = VInt <$> uz →
  ∃ zs, column final_nodes "node_id" = VInt <$> zs ∧ StronglySorted Z.le zs.
Proof.
  intros Hmain Htz Hmz Huz.
  destruct (main_nonempty _ _ _ _ _ _ _ _ Hmain) as (Hcol & Htaz & Hmeso & _).
  pose proof (column_int_nonempty _ _ _ Htz Htaz) as Htz_ne.
  pose proof (column_int_nonempty _ _ _ Hmz Hmeso) as Hmz_ne.
  destruct (main_node_ids _ _ _ _ _ _ _ _ _ _ _ Hmain Hcol Htz Htz_ne Hmz Hmz_ne Huz)
    as (max_taz & max_meso & _ & _ & _ & _ & Hperm).
  invert_main Hmain.
  apply bind_Ok in Hfinal_nodes as (df & _ & [_ ->]%sort_values_Ok).
  unfold column in *. cbn [rows] in *.
  set (P := λ r : Row, ∃ z, cell r "node_id" = VInt z).
  assert (Forall P (rows df)) as HP.
  { apply Forall_forall. intros r Hr.
    assert (cell r "node_id"
            ∈ (λ r, cell r "node_id") <$> stable_sort (rows_le ["node_id"]) (rows df))
      as Hin.
    { apply list_elem_of_fmap. exists r. split; [done|].
      by rewrite stable_sort_Permutation. }
    rewrite Hperm in Hin. apply list_elem_of_fmap in Hin as (z & Hz & _).
    by exists z. }
  apply sorted_int_column.
  - by rewrite stable_sort_Permutation.
  - apply (stable_sort_StronglySorted _ P); [| |done].
    + intros x y [a Ha] [b Hb].
      rewrite (rows_le_int _ _ _ _ _ Ha Hb), (rows_le_int _ _ _ _ _ Hb Ha). lia.
    + intros x y z [a Ha] [b Hb] [c Hc].
      rewrite (rows_le_int _ _ _ _ _ Ha Hb), (rows_le_int _ _ _ _ _ Hb Hc),
        (rows_le_int _ _ _ _ _ Ha Hc). lia.
Qed.

Lemma elem_of_int_column df c (zs : list Z) r :
  column df c = VInt <$> zs → r ∈ rows df → ∃ z, cell r c = VInt z.
Proof.
  intros Hc Hr. pose proof (elem_of_column df c r Hr) as Hin.
  rewrite Hc in Hin. apply list_elem_of_fmap in Hin as (z & Hz & _). by exists z.
Qed.

(** The final link table is in the order of [from_node_id] and, between
    links that leave the same node, of [to_node_id], when the ids and the
    endpoints that were loaded are integers. *)
Theorem final_links_sorted
    (taz meso mesol micro microl final_links final_nodes : Frame) σ'
    (tz mz uz mf mt uf ut : list Z) :
  main 0 1 2 3 4 [taz; meso; mesol; micro; microl]
    = Ok ((final_links, final_nodes), σ') →
  "candidate_node_id_1" ∉ columns taz →
  column taz "TAZ_clean" = VInt <$> tz →
  column meso "node_id" = VInt <$> mz →
  column micro "node_id" = VInt <$> uz →
  column mesol "from_node_id" = VInt <$> mf →
  column mesol "to_node_id" = VInt <$> mt →
  column microl "from_node_id" = VInt <$> uf →
  column microl "to_node_id" = VInt <$> ut →
  ∃ ends : list (Z * Z),
    column final_links "from_node_id" = VInt <$> ends.*1 ∧
    column final_links "to_node_id" = VInt <$> ends.*2 ∧
    StronglySorted lex_le ends.
Proof.
  intros Hmain Hcc Htz Hmz Huz Hmf Hmt Huf Hut.
  destruct (main_nonempty _ _ _ _ _ _ _ _ Hmain) as (Hcol & Htaz & Hmeso & _).
  pose proof (column_int_nonempty _ _ _ Htz Htaz) as Htz_ne.
  pose proof (column_int_nonempty _ _ _ Hmz Hmeso) as Hmz_ne.
  destruct (final_link_endpoints _ _ _ _ _ _ _ _ Hmain Hcc)
    as (cands0 & s1 & s2 & ls0 & Hcands & Hshifts & Hends).
  destruct (final_node_ids _ _ _ _ _ _ _ _ Hmain)
    as (cands' & s1' & s2' & ls' & Hcands' & _ & Hnearest & _).
  rewrite Hcands in Hcands'. injection Hcands' as <-.
  assert (column cands0 "TAZ_clean" = VInt <$> tz) as Hctz.
  { rewrite <-Htz. eapply find_nearest_scc_nodes_column; [done..|].
    apply candidate_column_not_TAZ_clean. }
  destruct (compute_shifts_int _ _ _ _ _ _ _ Hshifts Hctz Htz_ne Hmz Hmz_ne)
    as (max_taz & max_meso & _ & _ & _ & _ & -> & ->).
  assert (∀ row e, row ∈ rows final_links →
                   e = "from_node_id" ∨ e = "to_node_id" →
                   ∃ z, cell row e = VInt z) as Hint.
  { intros row e Hrow He.
    destruct (Hends row Hrow e He)
      as [Ht|[(a & Ha & Hadd)|[(a & Ha & Hadd)|[(l & Hl & Hadd)|(l & Hl & Hadd)]]]].
    - rewrite Hctz in Ht. apply list_elem_of_fmap in Ht as (z & -> & _). by exists z.
    - rewrite Hmz in Ha. apply list_elem_of_fmap in Ha as (z & -> & _).
      simpl in Hadd. injection Hadd as <-. by eexists.
    - rewrite Huz in Ha. apply list_elem_of_fmap in Ha as (z & -> & _).
      simpl in Hadd. injection Hadd as <-. by eexists.
    - assert (∃ z, cell l e = VInt z) as [z Hz].
      { destruct He as [-> | ->];
          [exact (elem_of_int_column _ _ _ _ Hmf Hl)
          |exact (elem_of_int_column _ _ _ _ Hmt Hl)]. }
      rewrite Hz in Hadd. simpl in Hadd. injection Hadd as <-. by eexists.
    - assert (∃ z, cell l e = VInt z) as [z Hz].
      { destruct He as [-> | ->];
          [exact (elem_of_int_column _ _ _ _ Huf Hl)
          |exact (elem_of_int_column _ _ _ _ Hut Hl)]. }
      rewrite Hz in Hadd. simpl in Hadd. injection Hadd as <-. by eexists. }
  clear Hends Hcands Hshifts Hnearest Hctz. invert_main Hmain.
  apply bind_Ok in Hfinal_links as (df & _ & [_ ->]%sort_values_Ok).
  unfold column. cbn [rows] in *.
  set (P := λ r : Row, ∃ a b, cell r "from_node_id" = VInt a
                              ∧ cell r "to_node_id" = VInt b).
  assert (Forall P (stable_sort (rows_le ["from_node_id"; "to_node_id"]) (rows df)))
    as HP.
  { apply Forall_forall. intros r Hr.
    destruct (Hint r "from_node_id" Hr) as [a Ha]; [by left|].
    destruct (Hint r "to_node_id" Hr) as [b Hb]; [by right|].
    by exists a, b. }
  destruct (sorted_int_columns _ "from_node_id" "to_node_id" HP)
    as (ends & Hfrom & Hto & _ & Hsorted).
  - rewrite stable_sort_Permutation in HP.
    apply (stable_sort_StronglySorted _ P); [| |done].
    + intros x y (a & b & Ha & Hb) (a' & b' & Ha' & Hb').
      rewrite (rows_le_lex _ _ _ _ _ _ _ _ Ha Hb Ha' Hb'),
        (rows_le_lex _ _ _ _ _ _ _ _ Ha' Hb' Ha Hb).
      unfold lex_le. cbn [fst snd]. lia.
    + intros x y z (a & b & Ha & Hb) (a' & b' & Ha' & Hb') (a'' & b'' & Ha'' & Hb'').
      rewrite (rows_le_lex _ _ _ _ _ _ _ _ Ha Hb Ha' Hb'),
        (rows_le_lex _ _ _ _ _ _ _ _ Ha' Hb' Ha'' Hb''),
        (rows_le_lex _ _ _ _ _ _ _ _ Ha Hb Ha'' Hb'').
      unfold lex_le. cbn [fst snd]. lia.
  - by exists ends.
Qed.

(** ** The shifts of [reindex_nodes] and of [merge_network_layers] *)

Lemma lookup_length_app {A} (l : list A) a b : (l ++ [a; b]) !! length l = Some a.
Proof. by rewrite lookup_app_r, Nat.sub_diag by lia. Qed.

Lemma lookup_S_length_app {A} (l : list A) a b :
  (l ++ [a; b]) !! S (length l) = Some b.
Proof.
  rewrite lookup_app_r by lia.
  by replace (S (length l) - length l)%nat with 1%nat by lia.
Qed.

Lemma Forall2_compose {A B C} (R1 : A → B → Prop) (R2 : B → C → Prop)
    (l1 : list A) (l2 : list B) (l3 : list C) :
  Forall2 R1 l1 l2 → Forall2 R2 l2 l3 →
  Forall2 (λ a z, ∃ b, R1 a b ∧ R2 b z) l1 l3.
Proof.
  intros H12. revert l3. induction H12 as [|a b l1 l2 Hab _ IH]; intros l3 H23.
  - inversion H23. constructor.
  - inversion H23 as [|? z ? l3' Hbc H23']; subst. constructor; [by exists b | auto].
Qed.

(** [reindex_nodes] returns two new frames and writes to no other: the
    store it was given is still there, followed by the copy of the meso
    nodes with the meso shift added to [node_id], and the copy of the micro
    nodes with the micro shift added to [node_id] and the link shift added
    to [meso_link_id]; both copies have the empty string as [zone_id]. *)
Theorem reindex_nodes_shifts_copies (meso_nodes micro_nodes : ref)
    (s1 s2 ls : Value) (σ σ' : @store num) (meso micro : Frame)
    shifted_meso shifted_micro :
  σ !! meso_nodes = Some meso → σ !! micro_nodes = Some micro →
  reindex_nodes meso_nodes micro_nodes s1 s2 ls σ
    = Ok ((shifted_meso, shifted_micro), σ') →
  ∃ meso' micro',
    σ' = σ ++ [meso'; micro'] ∧
    shifted_meso = length σ ∧ shifted_micro = S (length σ) ∧
    Forall2 (λ r r', ∃ w,
        vadd (cell r "node_id") s1 = Ok w ∧
        r' = <["zone_id" := VStr ""]> (<["node_id" := w]> r))
      (rows meso) (rows meso') ∧
    Forall2 (λ r r', ∃ w w',
        vadd (cell r "node_id") s2 = Ok w ∧
        vadd (cell r "meso_link_id") ls = Ok w' ∧
        r' = <["zone_id" := VStr ""]>
               (<["meso_link_id" := w']> (<["node_id" := w]> r)))
      (rows micro) (rows micro').
Proof.
  intros Hmeso Hmicro. unfold reindex_nodes. intros H.
  apply ST_bind_Ok in H as (m & σ1 & (meso0 & Hmeso0 & -> & ->)%copy_Ok & H).
  rewrite Hmeso in Hmeso0. injection Hmeso0 as <-.
  apply ST_bind_Ok in H as (u & σ2 & (micro0 & Hmicro0 & -> & ->)%copy_Ok & H).
  unfold store, ref in *.
  rewrite lookup_app_l in Hmicro0 by by eapply lookup_lt_Some.
  rewrite Hmicro in Hmicro0. injection Hmicro0 as <-.
  rewrite length_app, <- app_assoc in H. cbn [length app] in H.
  rewrite Nat.add_1_r in H.
  apply ST_bind_Ok in H as (? & σ3 & (d0 & meso1 & Hd0 & Hmeso1 & ->)%iadd_Ok & H).
  unfold store, ref in *. rewrite lookup_length_app in Hd0. injection Hd0 as <-.
  rewrite insert_length_app in H.
  apply ST_bind_Ok in H as (? & σ4 & (d1 & micro1 & Hd1 & Hmicro1 & ->)%iadd_Ok & H).
  unfold store, ref in *. rewrite lookup_S_length_app in Hd1. injection Hd1 as <-.
  rewrite insert_S_length_app in H.
  apply ST_bind_Ok in H as (? & σ5 & (d2 & micro2 & Hd2 & Hmicro2 & ->)%iadd_Ok & H).
  unfold store, ref in *. rewrite lookup_S_length_app in Hd2. injection Hd2 as <-.
  rewrite insert_S_length_app in H.
  apply ST_bind_Ok in H as (? & σ6 & (d3 & Hd3 & ->)%setitem_Ok & H).
  unfold store, ref in *. rewrite lookup_length_app in Hd3. injection Hd3 as <-.
  rewrite insert_length_app in H.
  apply ST_bind_Ok in H as (? & σ7 & (d4 & Hd4 & ->)%setitem_Ok & H).
  unfold store, ref in *. rewrite lookup_S_length_app in Hd4. injection Hd4 as <-.
  rewrite insert_S_length_app in H.
  unfold mret in H. apply ST_ret_Ok in H as [[= -> ->] ->].
  eexists _, _. split; [reflexivity|]. split; [done|]. split; [done|].
  apply df_iadd_Ok in Hmeso1 as (_ & _ & Hrows_meso).
  apply df_iadd_Ok in Hmicro1 as (_ & _ & Hrows_micro1).
  apply df_iadd_Ok in Hmicro2 as (_ & _ & Hrows_micro2).
  unfold df_setitem. cbn [rows]. split.
  - apply Forall2_fmap_r. eapply Forall2_impl; [exact Hrows_meso|].
    intros r r' (w & Hw & ->). by exists w.
  - apply Forall2_fmap_r.
    eapply Forall2_impl;
      [exact (Forall2_compose _ _ _ _ _ Hrows_micro1 Hrows_micro2)|].
    intros r r' (r1 & (w & Hw & ->) & (w' & Hw' & ->)).
    exists w, w'. split; [done|]. split; [|done].
    by rewrite cell_insert, decide_False in Hw' by done.
Qed.

(** The three columns that refer to a meso link get the same shift in a
    run: [link_id] of the meso links and [meso_link_id] of the micro links
    in [merge_network_layers], [meso_link_id] of the micro nodes in
    [reindex_nodes].  So a micro link or a micro node that held the id of a
    meso link holds the new id of that link afterwards. *)
Theorem meso_link_references_kept
    (taz meso mesol micro microl final_links final_nodes : Frame) σ' :
  main 0 1 2 3 4 [taz; meso; mesol; micro; microl]
    = Ok ((final_links, final_nodes), σ') →
  ∃ mesol' microl' micro',
    σ' !! 2%nat = Some mesol' ∧ σ' !! 4%nat = Some microl' ∧
    σ' !! 8%nat = Some micro' ∧
    let shifted (old new : list Value) :=
      Forall2 (λ v w, vadd v (VInt (2 * len taz + 1)) = Ok w) old new in
    shifted (column mesol "link_id") (column mesol' "link_id") ∧
    shifted (column microl "meso_link_id") (column microl' "meso_link_id") ∧
    shifted (column micro "meso_link_id") (column micro' "meso_link_id") ∧
    ∀ (i j : nat) v,
      column mesol "link_id" !! j = Some v →
      (column microl "meso_link_id" !! i = Some v →
       ∃ w, column microl' "meso_link_id" !! i = Some w ∧
            column mesol' "link_id" !! j = Some w) ∧
      (column micro "meso_link_id" !! i = Some v →
       ∃ w, column micro' "meso_link_id" !! i = Some w ∧
            column mesol' "link_id" !! j = Some w).
Proof.
  intros Hmain. invert_main Hmain.
  exists mesol3, microl4, nodes_micro. repeat (split; [reflexivity|]).
  pose proof (compute_shifts_link_shift _ _ _ _ _ Hshifts) as ->.
  rewrite (find_nearest_scc_nodes_len _ _ _ _ Hnearest) in *.
  set (ls := VInt (2 * len taz + 1)) in *. cbn zeta.
  assert (Forall2 (λ v w, vadd v ls = Ok w)
            (column mesol "link_id") (column mesol3 "link_id")) as Hmesol.
  { pose proof (df_iadd_column _ _ _ _ Hmesol3) as Hc.
    rewrite (df_iadd_column_ne _ _ "link_id" _ _ Hmesol2) in Hc by done.
    rewrite (df_iadd_column_ne _ _ "link_id" _ _ Hmesol1) in Hc by done.
    by rewrite column_df_setitem_ne in Hc by done. }
  assert (Forall2 (λ v w, vadd v ls = Ok w)
            (column microl "meso_link_id") (column microl4 "meso_link_id"))
    as Hmicrol.
  { rewrite (df_iadd_column_ne _ _ "meso_link_id" _ _ Hmicrol4) by done.
    pose proof (df_iadd_column _ _ _ _ Hmicrol3) as Hc.
    rewrite (df_iadd_column_ne _ _ "meso_link_id" _ _ Hmicrol2) in Hc by done.
    rewrite (df_iadd_column_ne _ _ "meso_link_id" _ _ Hmicrol1) in Hc by done.
    by rewrite column_df_setitem_ne in Hc by done. }
  assert (Forall2 (λ v w, vadd v ls = Ok w)
            (column micro "meso_link_id") (column nodes_micro "meso_link_id"))
    as Hmicro.
  { subst nodes_micro upd_micro. rewrite !column_df_setitem_ne by done.
    pose proof (df_iadd_column _ _ _ _ Hmicro2) as Hc.
    by rewrite (df_iadd_column_ne _ _ "meso_link_id" _ _ Hmicro1) in Hc by done. }
  repeat (split; [done|]).
  intros i j v Hj.
  destruct (Forall2_lookup_l _ _ _ _ _ Hmesol Hj) as (w & Hw & Hvw).
  split; intros Hi.
  - destruct (Forall2_lookup_l _ _ _ _ _ Hmicrol Hi) as (w' & Hw' & Hvw').
    exists w. split; [|done]. congruence.
  - destruct (Forall2_lookup_l _ _ _ _ _ Hmicro Hi) as (w' & Hw' & Hvw').
    exists w. split; [|done]. congruence.
Qed.

(** ** [scc.py]: the component index *)

Section scc_properties.
Context `{NX : Networkx num}.

Lemma find_snoc {A} (p : A → bool) (l : list A) (x : A) :
  find p (l ++ [x])
  = match find p l with
    | Some y => Some y
    | None => if p x then Some x else None
    end.
Proof.
  induction l as [|y l IH]; simpl; [done|]. by destruct (p y).
Qed.

Lemma find_none_existsb {A} (p : A → bool) (l : list A) :
  existsb p l = false → find p l = None.
Proof.
  induction l as [|y l IH]; simpl; [done|].
  destruct (p y); [done|]. apply IH.
Qed.

Lemma node_dict_get_replace (d : scc.node_dict) (k k' i : Z) :
  int_keys d →
  snd <$> find (λ kv, veqb kv.1 (VInt k'))
            (map (λ kv : Value * Z, if veqb kv.1 (VInt k) then (kv.1, i) else kv) d)
  = if decide (k = k')
    then if existsb (λ kv, veqb kv.1 (VInt k)) d then Some i else None
    else snd <$> find (λ kv, veqb kv.1 (VInt k')) d.
Proof.
  induction 1 as [|[key j] d [m Hm] _ IH]; cbn [map find existsb].
  - by destruct (decide (k = k')).
  - cbn [fst] in *. subst key. cbn [veqb].
    destruct (Z.eqb_spec m k) as [->|Hmk]; cbn [fst veqb orb].
    + destruct (decide (k = k')) as [->|Hne].
      * by rewrite Z.eqb_refl.
      * destruct (Z.eqb_spec k k'); [done|]. rewrite IH. by rewrite ?decide_False by done.
    + destruct (decide (k = k')) as [->|Hne].
      * destruct (Z.eqb_spec m k'); [done|]. rewrite IH. by rewrite ?decide_True by done.
      * destruct (Z.eqb_spec m k'); [done|]. rewrite IH. by rewrite ?decide_False by done.
Qed.

Lemma node_dict_get_set (d : scc.node_dict) (k k' i : Z) :
  int_keys d →
  scc.node_dict_get (scc.node_dict_set (VInt k) i d) (VInt k')
  = if decide (k = k') then Some i else scc.node_dict_get d (VInt k').
Proof.
  intros Hd. unfold scc.node_dict_get, scc.node_dict_set.
  destruct (existsb (λ kv, veqb kv.1 (VInt k)) d) eqn:Hex.
  - rewrite node_dict_get_replace by done. by rewrite Hex.
  - rewrite find_snoc. cbn [fst veqb].
    destruct (decide (k = k')) as [->|Hne].
    + rewrite (find_none_existsb _ _ Hex). by rewrite Z.eqb_refl.
    + destruct (find _ d); [done|]. by destruct (Z.eqb_spec k k').
Qed.

Lemma int_keys_set (d : scc.node_dict) (k i : Z) :
  int_keys d → int_keys (scc.node_dict_set (VInt k) i d).
Proof.
  intros Hd. unfold scc.node_dict_set, int_keys.
  destruct (existsb _ d).
  - induction Hd as [|[key j] d [m Hm] _ IH]; cbn [map]; [constructor|].
    constructor; [|done]. destruct (veqb _ _); by exists m.
  - apply Forall_app. split; [done|]. repeat constructor. by exists k.
Qed.

Lemma is_int_VInt (comp : list Value) :
  Forall (λ v, is_int v = true) comp → Forall (λ v, ∃ m, v = VInt m) comp.
Proof.
  intros H. eapply Forall_impl; [exact H|].
  intros [m| | |] Hv; try done. by exists m.
Qed.

(** One component written to the dict. *)
Lemma node_dict_get_component (d : scc.node_dict) (comp : list Value) (j n : Z) :
  int_keys d → Forall (λ v, is_int v = true) comp →
  let d' := foldl (λ d node_id, scc.node_dict_set node_id j d) d comp in
  int_keys d' ∧
  scc.node_dict_get d' (VInt n)
  = if existsb (veqb (VInt n)) comp then Some j else scc.node_dict_get d (VInt n).
Proof.
  intros Hd Hcomp. revert d Hd.
  induction Hcomp as [|v comp Hv _ IH]; intros d Hd; cbn [foldl existsb].
  - done.
  - destruct v as [k| | |]; try done.
    destruct (IH (scc.node_dict_set (VInt k) j d)) as [Hkeys Hget];
      [by apply int_keys_set|].
    split; [done|]. cbn zeta in Hget. rewrite Hget, node_dict_get_set by done.
    cbn [veqb]. destruct (existsb (veqb (VInt n)) comp); [by rewrite orb_true_r|].
    rewrite orb_false_r. destruct (decide (k = n)) as [->|Hne].
    + by rewrite Z.eqb_refl.
    + by destruct (Z.eqb_spec n k).
Qed.

Lemma enumerate_nodes_snoc (sccs : list (list Value)) (comp : list Value) :
  scc.enumerate_nodes (sccs ++ [comp])
  = foldl (λ d node_id, scc.node_dict_set node_id (Z.of_nat (length sccs)) d)
      (scc.enumerate_nodes sccs) comp.
Proof.
  unfold scc.enumerate_nodes. rewrite imap_app, foldl_app. cbn [imap foldl fst snd].
  by rewrite Nat.add_0_r.
Qed.

(** The dict maps a node to the index of the last component that holds it. *)
Lemma enumerate_nodes_get (sccs : list (list Value)) :
  Forall (Forall (λ v, is_int v = true)) sccs →
  int_keys (scc.enumerate_nodes sccs) ∧
  ∀ n i,
    scc.node_dict_get (scc.enumerate_nodes sccs) (VInt n) = Some i ↔
    ∃ (idx : nat) comp,
      i = Z.of_nat idx ∧ sccs !! idx = Some comp ∧ VInt n ∈ comp ∧
      ∀ (idx' : nat) comp', (idx < idx')%nat → sccs !! idx' = Some comp' →
                            VInt n ∉ comp'.
Proof.
  induction sccs as [|comp sccs IH] using rev_ind; intros Hint.
  - split; [constructor|]. intros n i. split; [done|].
    by intros (idx & comp & _ & ? & _).
  - apply Forall_app in Hint as [Hint [Hcomp _]%Forall_cons].
    destruct (IH Hint) as [Hkeys Hget]. rewrite enumerate_nodes_snoc.
    split.
    { by destruct (node_dict_get_component _ comp (Z.of_nat (length sccs)) 0
                     Hkeys Hcomp) as [? _]. }
    intros n i.
    destruct (node_dict_get_component _ comp (Z.of_nat (length sccs)) n
                Hkeys Hcomp) as [_ ->].
    pose proof (existsb_veqb_int comp n (is_int_VInt _ Hcomp)) as Hmem.
    destruct (existsb (veqb (VInt n)) comp);
      [assert (VInt n ∈ comp) as Hin by by apply Hmem
      |assert (VInt n ∉ comp) as Hnot by (by intros ?%Hmem)]; clear Hmem.
    + split.
      * intros [= <-]. exists (length sccs), comp. split; [done|].
        split; [by rewrite lookup_app_r, Nat.sub_diag by lia|]. split; [done|].
        intros idx' comp' Hlt Hidx'. apply lookup_lt_Some in Hidx'.
        rewrite length_app in Hidx'. simpl in Hidx'. lia.
      * intros (idx & comp0 & -> & Hidx & Hin0 & Hlast).
        destruct (decide (idx = length sccs)) as [->|Hne]; [done|].
        destruct (Hlast (length sccs) comp); [|by rewrite lookup_app_r, Nat.sub_diag by lia | done].
        apply lookup_lt_Some in Hidx. rewrite length_app in Hidx.
        simpl in Hidx. lia.
    + rewrite Hget. split.
      * intros (idx & comp0 & -> & Hidx & Hin0 & Hlast).
        exists idx, comp0. split; [done|].
        split; [by apply lookup_app_l_Some|]. split; [done|].
        intros idx' comp' Hlt Hidx'.
        destruct (decide (idx' < length sccs)%nat) as [Hlt'|Hge].
        -- rewrite lookup_app_l in Hidx' by done. by eapply Hlast.
        -- rewrite lookup_app_r in Hidx' by lia.
           destruct (idx' - length sccs)%nat; [|done].
           by injection Hidx' as <-.
      * intros (idx & comp0 & -> & Hidx & Hin0 & Hlast).
        exists idx, comp0. split; [done|].
        assert (idx < length sccs)%nat as Hlt.
        { destruct (decide (idx < length sccs)%nat) as [|Hge]; [done|].
          rewrite lookup_app_r in Hidx by lia.
          destruct (idx - length sccs)%nat; [|done].
          injection Hidx as <-. done. }
        rewrite lookup_app_l in Hidx by done. split; [done|]. split; [done|].
        intros idx' comp' Hlt' Hidx'. eapply Hlast; [done|].
        by apply lookup_app_l_Some.
Qed.

Lemma sorted_by_len_descending (sccs : list (list Value)) (i j : nat) ci cj :
  scc.sorted_by_len sccs !! i = Some ci → scc.sorted_by_len sccs !! j = Some cj →
  (i < j)%nat → (length cj ≤ length ci)%nat.
Proof.
  intros Hi Hj Hlt. apply Nat.leb_le.
  eapply (StronglySorted_lookup (λ a b, (length b <=? length a)%nat = true));
    [|done..].
  apply (stable_sort_StronglySorted _ (λ _, True)).
  - intros x y _ _. rewrite !Nat.leb_le. lia.
  - intros x y z _ _ _. rewrite !Nat.leb_le. lia.
  - by apply Forall_forall.
Qed.

(** [compute_scc_id_mapping] numbers the components that networkx returns
    from the largest to the smallest: the component of index [i] is at
    least as large as every component of a higher index, so index 0 is a
    component of the largest size.  A node of integer id is mapped to the
    index of a component that holds it, a node that is in no component is
    not a key, and when no node is in two components the index is that of
    the node's component. *)
Theorem scc_ids_by_size (links_df : Frame) (node_to_scc : scc.node_dict) :
  scc.compute_scc_id_mapping links_df = Ok node_to_scc →
  ∃ G sccs,
    scc.add_edges links_df = Ok G ∧
    sccs ≡ₚ strongly_connected_components G ∧
    (∀ (i j : nat) ci cj, sccs !! i = Some ci → sccs !! j = Some cj →
                          (i < j)%nat → (length cj ≤ length ci)%nat) ∧
    (Forall (Forall (λ v, is_int v = true)) (strongly_connected_components G) →
     (∀ n i, scc.node_dict_get node_to_scc (VInt n) = Some i →
             ∃ (idx : nat) comp,
               i = Z.of_nat idx ∧ sccs !! idx = Some comp ∧ VInt n ∈ comp) ∧
     (∀ n, (∀ comp, comp ∈ strongly_connected_components G → VInt n ∉ comp) →
           scc.node_dict_get node_to_scc (VInt n) = None) ∧
     (pairwise_disjoint (strongly_connected_components G) →
      ∀ n (idx : nat) comp, sccs !! idx = Some comp → VInt n ∈ comp →
        scc.node_dict_get node_to_scc (VInt n) = Some (Z.of_nat idx))).
Proof.
  unfold scc.compute_scc_id_mapping. intros H.
  apply bind_Ok in H as (G & HG & [= <-]).
  set (comps := strongly_connected_components G).
  set (sccs := scc.sorted_by_len comps).
  assert (sccs ≡ₚ comps) as Hperm by apply stable_sort_Permutation.
  exists G, sccs. split; [done|]. split; [done|].
  split; [apply sorted_by_len_descending|]. intros Hint.
  assert (Forall (Forall (λ v, is_int v = true)) sccs) as Hint'
    by by rewrite Hperm.
  destruct (enumerate_nodes_get sccs Hint') as [_ Hget].
  split; [|split].
  - intros n i (idx & comp & -> & Hidx & Hin & _)%Hget. by exists idx, comp.
  - intros n Hnone.
    destruct (scc.node_dict_get _ (VInt n)) as [i|] eqn:Hi; [|done].
    apply Hget in Hi as (idx & comp & _ & Hidx & Hin & _).
    destruct (Hnone comp); [|done].
    change (comp ∈ comps). rewrite <-Hperm. by eapply list_elem_of_lookup_2.
  - intros Hdisj n idx comp Hidx Hin. apply Hget. exists idx, comp.
    split; [done|]. split; [done|]. split; [done|].
    intros idx' comp' Hlt Hidx' Hin'.
    apply Permutation_inj in Hperm as (_ & f & Hf & Hlook).
    rewrite Hlook in Hidx, Hidx'.
    pose proof (Hdisj _ _ _ _ _ Hidx Hidx' Hin Hin') as Heq.
    apply Hf in Heq. lia.
Qed.


Lemma enumerate_nodes_key (sccs : list (list Value)) n comp :
  Forall (Forall (λ v, is_int v = true)) sccs →
  comp ∈ sccs → VInt n ∈ comp →
  is_Some (scc.node_dict_get (scc.enumerate_nodes sccs) (VInt n)).
Proof.
  induction sccs as [|last sccs IH] using rev_ind; intros Hint Hcomp Hin.
  - by apply elem_of_nil in Hcomp.
  - apply Forall_app in Hint as [Hint [Hlast _]%Forall_cons].
    destruct (enumerate_nodes_get sccs Hint) as [Hkeys _].
    rewrite enumerate_nodes_snoc.
    destruct (node_dict_get_component _ last (Z.of_nat (length sccs)) n
                Hkeys Hlast) as [_ ->].
    pose proof (existsb_veqb_int last n (is_int_VInt _ Hlast)) as Hmem.
    destruct (existsb (veqb (VInt n)) last); [by eexists|].
    apply elem_of_app in Hcomp as [Hcomp|Hcomp%list_elem_of_singleton].
    + by apply IH.
    + subst. by apply Hmem in Hin.
Qed.

Lemma rows_df_setcol_fmap df c (f : Value → Value) c' :
  Forall2 (λ r r', r' = <[c := f (cell r c')]> r)
    (rows df) (rows (df_setcol df c (f <$> column df c'))).
Proof.
  unfold df_setcol, column. cbn [rows].
  induction (rows df) as [|r rs IH]; [constructor|].
  rewrite !fmap_cons. cbn [zip_with]. by constructor.
Qed.

Lemma assign_and_export_scc_rows (meso_links meso_nodes annotated : Frame) :
  scc.assign_and_export_scc meso_links meso_nodes = Ok annotated →
  ∃ G,
    scc.add_edges meso_links = Ok G ∧
    Forall2 (λ r r',
        r' = <["scc_id" := scc.scc_id_of
                             (scc.enumerate_nodes
                                (scc.sorted_by_len (strongly_connected_components G)))
                             (cell r "node_id")]> r)
      (rows meso_nodes) (rows annotated).
Proof.
  unfold scc.assign_and_export_scc, scc.compute_scc_id_mapping,
    scc.annotate_nodes_with_scc.
  intros H. apply bind_Ok in H as (node_to_scc & Hmap & H).
  apply bind_Ok in Hmap as (G & HG & [= <-]).
  apply bind_Ok in H as (ids & [Hcol ->]%getcol_Ok & [= <-]).
  exists G. split; [done|]. apply rows_df_setcol_fmap.
Qed.

(** [assign_and_export_scc] returns the node table with one more cell in
    every row, [scc_id], and every other cell as it was.  For a node of
    integer id the cell holds -1 exactly when no component that networkx
    returned holds the node, and the index of a component that holds the
    node otherwise. *)
Theorem assign_and_export_scc_ids (meso_links meso_nodes annotated : Frame) :
  scc.assign_and_export_scc meso_links meso_nodes = Ok annotated →
  ∃ G sccs,
    scc.add_edges meso_links = Ok G ∧
    sccs = scc.sorted_by_len (strongly_connected_components G) ∧
    "node_id" ∈ columns meso_nodes ∧ "scc_id" ∈ columns annotated ∧
    (∀ c, c ∈ columns meso_nodes → c ∈ columns annotated) ∧
    Forall2 (λ r r', ∃ i,
        r' = <["scc_id" := VInt i]> r ∧
        (Forall (Forall (λ v, is_int v = true)) (strongly_connected_components G) →
         ∀ n, cell r "node_id" = VInt n →
           (i = -1 ↔
            ∀ comp, comp ∈ strongly_connected_components G → VInt n ∉ comp) ∧
           (i ≠ -1 →
            ∃ (idx : nat) comp,
              i = Z.of_nat idx ∧ sccs !! idx = Some comp ∧ VInt n ∈ comp)))
      (rows meso_nodes) (rows annotated).
Proof.
  unfold scc.assign_and_export_scc, scc.compute_scc_id_mapping,
    scc.annotate_nodes_with_scc.
  intros H. apply bind_Ok in H as (node_to_scc & Hmap & H).
  apply bind_Ok in Hmap as (G & HG & [= <-]).
  apply bind_Ok in H as (ids & [Hcol ->]%getcol_Ok & [= <-]).
  set (comps := strongly_connected_components G).
  set (sccs := scc.sorted_by_len comps).
  assert (sccs ≡ₚ comps) as Hperm by apply stable_sort_Permutation.
  exists G, sccs. split; [done|]. split; [done|]. split; [done|].
  split; [|split].
  - unfold df_setcol, has_column. cbn [columns]. case_bool_decide; [done|].
    apply elem_of_app. right. left.
  - by apply columns_df_setcol.
  - eapply Forall2_impl; [apply rows_df_setcol_fmap|].
    intros r r' ->. unfold scc.scc_id_of. eexists. split; [reflexivity|].
    intros Hint n Hn. rewrite Hn.
    assert (Forall (Forall (λ v, is_int v = true)) sccs) as Hint'
      by by rewrite Hperm.
    destruct (enumerate_nodes_get sccs Hint') as [_ Hget].
    destruct (scc.node_dict_get (scc.enumerate_nodes sccs) (VInt n))
      as [i|] eqn:Hi; cbn [default from_option]; unfold id.
    + apply Hget in Hi as (idx & comp & -> & Hidx & Hin & _). split.
      * split; [lia|]. intros Hnone. destruct (Hnone comp); [|done].
        change (comp ∈ comps). rewrite <-Hperm. by eapply list_elem_of_lookup_2.
      * intros _. by exists idx, comp.
    + split; [|done]. split; [|done]. intros _ comp Hcomp Hin.
      change (comp ∈ comps) in Hcomp. rewrite <-Hperm in Hcomp.
      destruct (enumerate_nodes_key sccs n comp Hint' Hcomp Hin) as [i Hi'].
      congruence.
Qed.

(** Steps 2 and 3 together: the candidate of a TAZ, when there is one, is a
    node of the component of index 0, and no component that networkx
    returned is larger than this one. *)
Theorem candidates_in_largest_component
    (taz meso_links meso_nodes annotated cands : Frame) (mz : list Z) :
  scc.assign_and_export_scc meso_links meso_nodes = Ok annotated →
  find_nearest_scc_nodes taz annotated 1 = Ok cands →
  "candidate_node_id_1" ∉ columns taz →
  column meso_nodes "node_id" = VInt <$> mz →
  ∃ G,
    scc.add_edges meso_links = Ok G ∧
    (Forall (Forall (λ v, is_int v = true)) (strongly_connected_components G) →
     ∀ row, row ∈ rows cands →
       cell row "candidate_node_id_1" = NaN ∨
       ∃ n largest,
         cell row "candidate_node_id_1" = VInt n ∧ VInt n ∈ column meso_nodes "node_id" ∧
         scc.sorted_by_len (strongly_connected_components G) !! 0%nat
           = Some largest ∧
         VInt n ∈ largest ∧
         ∀ comp, comp ∈ strongly_connected_components G →
                 (length comp ≤ length largest)%nat).
Proof.
  intros Hassign Hnearest Hcc Hmz.
  destruct (assign_and_export_scc_rows _ _ _ Hassign)
    as (G & HG & Hrows).
  exists G. split; [done|]. intros Hint row Hrow.
  apply list_elem_of_lookup in Hrow as [k Hk].
  destruct (Forall2_lookup_r _ _ _ _ _
              (find_nearest_scc_nodes_rows _ _ _ _ Hnearest) Hk)
    as (t & _ & _ & [(r' & Hr' & Hscc & Hcand)|Hcand]).
  - right. apply list_elem_of_lookup in Hr' as [j Hj].
    destruct (Forall2_lookup_r _ _ _ _ _ Hrows Hj) as (r & Hr & ->).
    rewrite cell_insert, decide_True in Hscc by done.
    rewrite cell_insert, decide_False in Hcand by done.
    apply list_elem_of_lookup_2 in Hr as Hr_in.
    destruct (elem_of_int_column _ _ _ _ Hmz Hr_in) as [n Hn].
    rewrite Hn in Hcand, Hscc. unfold scc.scc_id_of in Hscc. cbn [veqb] in Hscc.
    apply Z.eqb_eq in Hscc.
    set (comps := strongly_connected_components G) in *.
    set (sccs := scc.sorted_by_len comps) in *.
    assert (sccs ≡ₚ comps) as Hperm by apply stable_sort_Permutation.
    assert (Forall (Forall (λ v, is_int v = true)) sccs) as Hint'
      by by rewrite Hperm.
    destruct (enumerate_nodes_get sccs Hint') as [_ Hget].
    destruct (scc.node_dict_get (scc.enumerate_nodes sccs) (VInt n))
      as [i|] eqn:Hi; cbn [default from_option] in Hscc; unfold id in Hscc;
      [|done]. subst i.
    apply Hget in Hi as (idx & largest & Hidx0 & Hidx & Hin & _).
    assert (idx = 0%nat) as -> by lia.
    exists n, largest. split; [done|]. split.
    { rewrite <-Hn. by apply elem_of_column. }
    split; [done|]. split; [done|].
    intros comp Hcomp. rewrite <-Hperm in Hcomp.
    apply list_elem_of_lookup in Hcomp as [[|j'] Hj'].
    + rewrite Hidx in Hj'. by injection Hj' as <-.
    + eapply (sorted_by_len_descending comps 0 (S j')); [done | done | lia].
  - left. by rewrite decide_False in Hcand.
Qed.

(** A meso network without links has no component 0: when networkx returns
    no component for the graph without edges, every node gets [scc_id] -1,
    and [find_nearest_scc_nodes] returns the TAZ rows with no candidate
    column added. *)
Theorem no_links_no_component (taz meso_links meso_nodes : Frame) (k : Z) :
  rows meso_links = [] → strongly_connected_components [] = [] →
  "node_id" ∈ columns meso_nodes →
  "x_coord" ∈ columns meso_nodes → "y_coord" ∈ columns meso_nodes →
  "x_coord" ∈ columns taz → "y_coord" ∈ columns taz →
  ∃ annotated cands,
    scc.assign_and_export_scc meso_links meso_nodes = Ok annotated ∧
    (∀ r, r ∈ rows annotated → cell r "scc_id" = VInt (-1)) ∧
    find_nearest_scc_nodes taz annotated k = Ok cands ∧
    (rows taz ≠ [] → ∀ c, c ∈ columns cands ↔ c ∈ columns taz).
Proof.
  intros Hlinks Hnx Hn Hx Hy Htx Hty.
  set (annotated := df_setcol meso_nodes "scc_id"
                      ((λ _ : Value, VInt (-1)) <$> column meso_nodes "node_id")).
  assert (scc.assign_and_export_scc meso_links meso_nodes = Ok annotated)
    as Hassign.
  { unfold scc.assign_and_export_scc, scc.compute_scc_id_mapping, scc.add_edges.
    rewrite Hlinks. cbn [mapM_result mbind result_bind]. rewrite Hnx.
    unfold scc.annotate_nodes_with_scc. rewrite getcol_present by done.
    reflexivity. }
  assert (∀ r, r ∈ rows annotated → cell r "scc_id" = VInt (-1)) as Hall.
  { intros r' [j Hj]%list_elem_of_lookup.
    destruct (Forall2_lookup_r _ _ _ _ _
                (rows_df_setcol_fmap meso_nodes "scc_id" (λ _, VInt (-1)) "node_id")
                Hj) as (r & _ & ->).
    by rewrite cell_insert, decide_True. }
  assert (find_nearest_scc_nodes taz annotated k
          = Ok (pd_DataFrame (to_dict taz <$> rows taz))) as Hnearest.
  { unfold find_nearest_scc_nodes, where_eq, has_column.
    rewrite bool_decide_eq_true_2
      by (unfold annotated, df_setcol, has_column; cbn [columns];
          case_bool_decide; [done | apply elem_of_app; right; left]).
    cbn [mbind result_bind].
    rewrite nearest_loop_no_core; [done | | | | | done | done];
      cbn [rows columns]; try by apply columns_df_setcol.
    apply filter_none. intros r Hr. rewrite (Hall r Hr). done. }
  exists annotated, (pd_DataFrame (to_dict taz <$> rows taz)).
  split; [done|]. split; [done|]. split; [done|].
  intros Hne c. by apply elem_of_columns_to_dict_frame.
Qed.

(** ** [network_io.py]: the check of the columns *)

Lemma filter_missing_nil (cols req : list string) :
  filter (λ col, col ∉ cols) req = [] ↔ req ⊆ cols.
Proof.
  split.
  - intros Hnil col Hcol. destruct (decide (col ∈ cols)) as [|Hnot]; [done|].
    assert (col ∈ filter (λ col, col ∉ cols) req) as Hin
      by by apply list_elem_of_filter.
    rewrite Hnil in Hin. by apply elem_of_nil in Hin.
  - intros Hsub. apply filter_none. intros col Hcol Hnot. by apply Hnot, Hsub.
Qed.

Lemma validate_columns_Loaded (df : Frame) (req : list string) name :
  network_io.validate_columns df req name
  = match filter (λ col, col ∉ columns df) req with
    | [] => network_io.Loaded tt
    | missing =>
        network_io.ValueError
          (name +:+ " is missing required columns: " +:+ network_io.repr missing)
    end.
Proof. unfold network_io.validate_columns. by destruct (filter _ req). Qed.

(** [load_node_link_layers] checks the four tables in the order meso nodes,
    meso links, micro nodes, micro links.  It returns the four frames as
    they were read when each has its required columns; otherwise it raises
    [ValueError] for the first table that lacks one, and the message names
    that table and lists the columns it lacks, in the order of the
    requirement. *)
Theorem load_node_link_layers_checks (meso_nodes meso_links micro_nodes micro_links
    : Frame) :
  let checks :=
    [(meso_nodes, ["node_id"; "x_coord"; "y_coord"], "Meso Node CSV");
     (meso_links, ["link_id"; "from_node_id"; "to_node_id"], "Meso Link CSV");
     (micro_nodes, ["node_id"; "x_coord"; "y_coord"; "meso_link_id"; "lane_no"],
      "Micro Node CSV");
     (micro_links,
      ["link_id"; "from_node_id"; "to_node_id"; "meso_link_id"; "lane_no"],
      "Micro Link CSV")] in
  match network_io.load_node_link_layers meso_nodes meso_links micro_nodes
          micro_links with
  | network_io.Loaded l =>
      l = network_io.mkLayers meso_nodes meso_links micro_nodes micro_links ∧
      Forall (λ check : Frame * list string * string,
                check.1.2 ⊆ columns check.1.1) checks
  | network_io.ValueError msg =>
      ∃ (i : nat) df req name,
        checks !! i = Some (df, req, name) ∧
        Forall (λ check : Frame * list string * string,
                  check.1.2 ⊆ columns check.1.1) (take i checks) ∧
        filter (λ col, col ∉ columns df) req ≠ [] ∧
        msg = name +:+ " is missing required columns: "
                +:+ network_io.repr (filter (λ col, col ∉ columns df) req)
  end.
Proof.
  cbn zeta. unfold network_io.load_node_link_layers.
  rewrite !validate_columns_Loaded.
  destruct (filter _ ["node_id"; "x_coord"; "y_coord"]) as [|m1 ms1] eqn:H1;
    cbn [network_io.then_].
  2: { exists 0%nat, meso_nodes, ["node_id"; "x_coord"; "y_coord"], "Meso Node CSV".
       split; [done|]. split; [constructor|]. by rewrite H1. }
  apply filter_missing_nil in H1.
  destruct (filter _ ["link_id"; "from_node_id"; "to_node_id"]) as [|m2 ms2] eqn:H2;
    cbn [network_io.then_].
  2: { exists 1%nat, meso_links, ["link_id"; "from_node_id"; "to_node_id"],
         "Meso Link CSV".
       split; [done|]. split; [by repeat constructor|]. by rewrite H2. }
  apply filter_missing_nil in H2.
  destruct (filter _ ["node_id"; "x_coord"; "y_coord"; "meso_link_id"; "lane_no"])
    as [|m3 ms3] eqn:H3; cbn [network_io.then_].
  2: { exists 2%nat, micro_nodes,
         ["node_id"; "x_coord"; "y_coord"; "meso_link_id"; "lane_no"],
         "Micro Node CSV".
       split; [done|]. split; [by repeat constructor|]. by rewrite H3. }
  apply filter_missing_nil in H3.
  destruct (filter _ ["link_id"; "from_node_id"; "to_node_id"; "meso_link_id";
                      "lane_no"]) as [|m4 ms4] eqn:H4; cbn [network_io.then_].
  2: { exists 3%nat, micro_links,
         ["link_id"; "from_node_id"; "to_node_id"; "meso_link_id"; "lane_no"],
         "Micro Link CSV".
       split; [done|]. split; [by repeat constructor|]. by rewrite H4. }
  apply filter_missing_nil in H4.
  split; [done|]. by repeat constructor.
Qed.

Lemma load_node_link_layers_Loaded (meso_nodes meso_links micro_nodes micro_links
    : Frame) l :
  network_io.load_node_link_layers meso_nodes meso_links micro_nodes micro_links
    = network_io.Loaded l →
  l = network_io.mkLayers meso_nodes meso_links micro_nodes micro_links ∧
  ["node_id"; "x_coord"; "y_coord"] ⊆ columns meso_nodes ∧
  ["link_id"; "from_node_id"; "to_node_id"] ⊆ columns meso_links ∧
  ["node_id"; "x_coord"; "y_coord"; "meso_link_id"; "lane_no"]
    ⊆ columns micro_nodes ∧
  ["link_id"; "from_node_id"; "to_node_id"; "meso_link_id"; "lane_no"]
    ⊆ columns micro_links.
Proof.
  unfold network_io.load_node_link_layers. rewrite !validate_columns_Loaded.
  destruct (filter _ ["node_id"; "x_coord"; "y_coord"]) eqn:H1; [|done].
  destruct (filter _ ["link_id"; "from_node_id"; "to_node_id"]) eqn:H2; [|done].
  destruct (filter _ ["node_id"; "x_coord"; "y_coord"; "meso_link_id"; "lane_no"])
    eqn:H3; [|done].
  destruct (filter _ ["link_id"; "from_node_id"; "to_node_id"; "meso_link_id";
                      "lane_no"]) eqn:H4; [|done].
  cbn [network_io.then_]. intros [= <-].
  apply filter_missing_nil in H1, H2, H3, H4. done.
Qed.

(** Tables that pass the loader's check pass step 2 of [main] as well:
    [assign_and_export_scc] returns, with one row for every meso node and
    the columns that step 3 reads from the meso nodes. *)
Theorem loaded_tables_pass_scc (meso_nodes meso_links micro_nodes micro_links
    : Frame) l :
  network_io.load_node_link_layers meso_nodes meso_links micro_nodes micro_links
    = network_io.Loaded l →
  ∃ annotated,
    scc.assign_and_export_scc (network_io.meso_links l) (network_io.meso_nodes l)
      = Ok annotated ∧
    length (rows annotated) = length (rows meso_nodes) ∧
    ["node_id"; "x_coord"; "y_coord"; "scc_id"] ⊆ columns annotated.
Proof.
  intros (-> & Hmn & Hml & _ & _)%load_node_link_layers_Loaded.
  cbn [network_io.meso_links network_io.meso_nodes].
  assert (∃ G, scc.add_edges meso_links = Ok G) as [G HG].
  { unfold scc.add_edges. apply mapM_result_total. intros row _.
    rewrite !getitem_present by (apply Hml; compute_done). by eexists. }
  unfold scc.assign_and_export_scc, scc.compute_scc_id_mapping.
  rewrite HG. cbn [mbind result_bind]. unfold scc.annotate_nodes_with_scc.
  rewrite getcol_present by (apply Hmn; compute_done). cbn [mbind result_bind].
  eexists. split; [reflexivity|]. split.
  - symmetry. eapply Forall2_length. apply rows_df_setcol_fmap.
  - intros col Hcol. unfold df_setcol, has_column. cbn [columns].
    case_bool_decide as Hscc.
    + apply elem_of_cons in Hcol as [->|Hcol]; [apply Hmn; compute_done|].
      apply elem_of_cons in Hcol as [->|Hcol]; [apply Hmn; compute_done|].
      apply elem_of_cons in Hcol as [->|Hcol]; [apply Hmn; compute_done|].
      by apply list_elem_of_singleton in Hcol as ->.
    + apply elem_of_app.
      apply elem_of_cons in Hcol as [->|Hcol]; [left; apply Hmn; compute_done|].
      apply elem_of_cons in Hcol as [->|Hcol]; [left; apply Hmn; compute_done|].
      apply elem_of_cons in Hcol as [->|Hcol]; [left; apply Hmn; compute_done|].
      by right.
Qed.

End scc_properties.

End Properties.

(** * The examples, run *)

Module Runs.
Import Examples.

(** Names the result of a computation that returns, without writing it out. *)
Ltac returned m x Hx :=
  let Hok := fresh "Hok" in
  assert (is_ok m = true) as Hok by (vm_compute; reflexivity);
  destruct m as [x|?] eqn:Hx; [clear Hok | discriminate Hok].

(** Reads a value off the result of a computation that returned, by running
    the computation. *)
Ltac ran Hx f v H :=
  match type of Hx with
  | ?m = Ok _ =>
      assert (f <$> m = Ok v) as H by (vm_compute; reflexivity);
      rewrite Hx in H; cbv [fmap result_fmap] in H; injection H as H
  end.

(** C1, the failing input: the first network with its micro nodes numbered
    from 0.  The ids of every table are pairwise distinct integers, none
    negative; the run completes, and the meso node 4 and the micro node 0
    both get the id 6. *)
Lemma micro_node_0_takes_a_meso_id_witness :
  ∃ final_links final_nodes σ',
    main 0 1 2 3 4
      [taz_df; meso_nodes; meso_links; micro_nodes_from_0; micro_links_from_0]
    = Ok ((final_links, final_nodes), σ') ∧
    (column taz_df "TAZ_clean" = VInt <$> [1] ∧
     column meso_nodes "node_id" = VInt <$> [1; 2; 3; 4] ∧
     column micro_nodes_from_0 "node_id" = VInt <$> [0; 1; 2] ∧
     column meso_links "link_id" = VInt <$> [1; 2; 3] ∧
     column micro_links_from_0 "link_id" = VInt <$> [1; 2] ∧
     NoDup [1; 2; 3; 4] ∧ NoDup [0; 1; 2] ∧ NoDup [1; 2; 3] ∧ NoDup [1; 2]) ∧
    column final_nodes "node_id" = VInt <$> [1; 3; 4; 5; 6; 6; 7; 8] ∧
    ¬ NoDup (column final_nodes "node_id").
Proof.
  returned (main 0 1 2 3 4
              [taz_df; meso_nodes; meso_links; micro_nodes_from_0;
               micro_links_from_0]) out Hrun.
  destruct out as [[fl fn] σ'].
  destruct (micro_node_0_takes_a_meso_id taz_df meso_nodes meso_links
              micro_nodes_from_0 micro_links_from_0 fl fn σ'
              [1] [1; 2; 3; 4] [0; 1; 2] Hrun)
    as (max_taz & max_meso & i & j & _ & _ & _ & _ & _ & _ & _ & Hrepeat);
    [vm_compute; reflexivity.. | compute_done |].
  exists fl, fn, σ'. split; [reflexivity|]. split.
  { repeat split; try (vm_compute; reflexivity); compute_done. }
  split; [|exact Hrepeat].
  ran Hrun (λ out : @DataFrame Z * @DataFrame Z * @store Z,
              column out.1.2 "node_id")
    (@VInt Z <$> [1; 3; 4; 5; 6; 6; 7; 8]) Hcol.
  exact Hcol.
Defined.

(** The first network, whose micro nodes are numbered from 1. *)
Lemma final_ids_unique_witness :
  ∃ final_links final_nodes σ',
    main 0 1 2 3 4 loaded = Ok ((final_links, final_nodes), σ') ∧
    NoDup (column final_links "link_id") ∧ NoDup (column final_nodes "node_id").
Proof.
  returned (main 0 1 2 3 4 loaded) out Hrun. destruct out as [[fl fn] σ'].
  exists fl, fn, σ'. split; [reflexivity|].
  apply (final_ids_unique taz_df meso_nodes meso_links micro_nodes micro_links
           fl fn σ' [1] [1; 2; 3; 4] [1; 2; 3] [1; 2; 3] [1; 2] Hrun);
    try (vm_compute; reflexivity); compute_done.
Defined.

(** C2, counterexample: in the first network the meso connectors end on the
    ids 1 and 2 and the meso links on 4, 5 and 6: no meso connector id is
    greater than the largest meso link id. *)
Lemma meso_connectors_not_above_meso_links :
  (λ '(final_links, _, _),
     (link_ids_where meso_connector final_links,
      link_ids_where meso_link final_links))
    <$> main 0 1 2 3 4 loaded
  = Ok (VInt <$> [1; 2], VInt <$> [4; 5; 6])
  ∧ ¬ Forall (λ connector_id, 6 < connector_id) [1; 2].
Proof.
  split; [vm_compute; reflexivity | compute_done].
Qed.

Lemma link_id_blocks_witness :
  ∃ final_links final_nodes σ' (n : nat) (top : Z),
    main 0 1 2 3 4 loaded = Ok ((final_links, final_nodes), σ') ∧
    column final_links "link_id"
      ≡ₚ VInt <$> (seqZ 1 (2 * len taz_df)
                    ++ ((λ z, z + (2 * len taz_df + 1)) <$> [1; 2; 3])
                    ++ seqZ (top + 1) (2 * Z.of_nat n)
                    ++ ((λ z, z + (top + 2 * Z.of_nat n + 1)) <$> [1; 2])).
Proof.
  returned (main 0 1 2 3 4 loaded) out Hrun. destruct out as [[fl fn] σ'].
  destruct (link_id_blocks taz_df meso_nodes meso_links micro_nodes micro_links
              fl fn σ' [1; 2; 3] [1; 2] Hrun)
    as (n & top & mc & mesol' & uc' & microl' & _ & _ & _ & _
        & _ & _ & _ & _ & Hperm & _);
    [vm_compute; reflexivity | compute_done
    | vm_compute; reflexivity | compute_done |].
  exists fl, fn, σ', n, top. split; [reflexivity | exact Hperm].
Defined.

(** C8, at the connector frames of the first network. *)
Lemma connectors_are_reverse_pairs_witness :
  ∃ meso_connectors micro_connectors,
    generate_meso_connectors candidates_1 updated_meso_1 "candidate_node_id_1"
      "TAZ_clean" (VInt 2) = Ok meso_connectors ∧
    generate_micro_connectors candidates_1 taz_micro_map_1 micro_nodes
      "TAZ_clean" (VInt 6) 1 = Ok micro_connectors ∧
    (Nat.Even (length (rows meso_connectors)) ∧ paired (rows meso_connectors)) ∧
    (Nat.Even (length (rows micro_connectors)) ∧ paired (rows micro_connectors)).
Proof.
  returned (generate_meso_connectors candidates_1 updated_meso_1
              "candidate_node_id_1" "TAZ_clean" (VInt 2)) mc Hmc.
  returned (generate_micro_connectors candidates_1 taz_micro_map_1 micro_nodes
              "TAZ_clean" (VInt 6) 1) uc Huc.
  exists mc, uc. split; [reflexivity|]. split; [reflexivity|]. split.
  - apply connectors_are_reverse_pairs. left.
    exists candidates_1, updated_meso_1, "candidate_node_id_1", "TAZ_clean", (VInt 2).
    exact Hmc.
  - apply connectors_are_reverse_pairs. right.
    exists candidates_1, taz_micro_map_1, micro_nodes, "TAZ_clean", (VInt 6), 1.
    exact Huc.
Defined.

(** C9, at the first network. *)
Lemma meso_connector_ids_stay_below_meso_links_witness :
  ∃ final_links final_nodes σ' connectors mesol',
    main 0 1 2 3 4 loaded = Ok ((final_links, final_nodes), σ') ∧
    σ' !! 10%nat = Some connectors ∧ σ' !! 2%nat = Some mesol' ∧
    column connectors "link_id" = VInt <$> seqZ 1 (2 * len taz_df) ∧
    Forall2 (λ old new, vadd old (VInt (2 * len taz_df + 1)) = Ok new)
      (column meso_links "link_id") (column mesol' "link_id").
Proof.
  returned (main 0 1 2 3 4 loaded) out Hrun. destruct out as [[fl fn] σ'].
  destruct meso_connector_ids_stay_below_meso_links as (_ & _ & Hmain).
  destruct (Hmain _ _ _ _ _ _ _ _ Hrun)
    as (connectors & mesol' & H10 & H2 & Hids & Hshift & _).
  exists fl, fn, σ', connectors, mesol'.
  split; [reflexivity|]. split; [exact H10|]. split; [exact H2|].
  split; [exact Hids | exact Hshift].
Defined.

(** A property of every row of a frame that is written out. *)
Ltac each_row df tac :=
  unfold df, frame; cbn [rows fmap list_fmap];
  repeat first [ apply Forall_nil_2 | apply Forall_cons_2; [tac|] ].

(** C3: the final node table of the first network.  The TAZ row has its
    coordinates; in the rows of the meso and of the micro layer the columns
    [x] and [y] hold the missing value: these tables carry their coordinates
    as [x_coord] and [y_coord], which the projection drops. *)
Lemma final_nodes_lose_coordinates :
  (λ '(_, final_nodes, _),
     (columns final_nodes, cells_of ["node_id"; "x"; "y"; "layer"] final_nodes))
    <$> main 0 1 2 3 4 loaded
  = Ok (["node_id"; "x"; "y"; "zone_id"; "layer"],
        [[VInt 1; VNum 0; VNum 0; VStr "taz"];
         [VInt 3; NaN; NaN; VStr "meso"];
         [VInt 4; NaN; NaN; VStr "meso"];
         [VInt 5; NaN; NaN; VStr "meso"];
         [VInt 6; NaN; NaN; VStr "meso"];
         [VInt 7; NaN; NaN; VStr "micro"];
         [VInt 8; NaN; NaN; VStr "micro"];
         [VInt 9; NaN; NaN; VStr "micro"]]).
Proof. vm_compute. reflexivity. Qed.

(** C4: after the run of the first network the loader's meso link and micro
    link frames (references 2 and 4) hold shifted ids and a [layer] column,
    and the micro connector frame (reference 11) no longer holds the ids 1
    and 2 that [generate_micro_connectors] gave it. *)
Lemma merge_network_layers_updates_in_place :
  cells_of meso_link_cols meso_links
    = [[VInt 1; VInt 1; VInt 2]; [VInt 2; VInt 2; VInt 3]; [VInt 3; VInt 3; VInt 1]]
  ∧ column micro_links "link_id" = [VInt 1; VInt 2]
  ∧ (λ df, column df "link_id")
      <$> generate_micro_connectors candidates_1 taz_micro_map_1 micro_nodes
            "TAZ_clean" (VInt 6) 1
    = Ok [VInt 1; VInt 2]
  ∧ (λ '(_, _, σ'),
       ((λ df, (columns df, cells_of meso_link_cols df)) <$> σ' !! 2%nat,
        (λ df, column df "link_id") <$> σ' !! 4%nat,
        (λ df, column df "link_id") <$> σ' !! 11%nat))
      <$> main 0 1 2 3 4 loaded
    = Ok (Some (meso_link_cols ++ ["layer"],
                [[VInt 4; VInt 3; VInt 4]; [VInt 5; VInt 4; VInt 5];
                 [VInt 6; VInt 5; VInt 3]]),
          Some [VInt 10; VInt 11],
          Some [VInt 7; VInt 8]).
Proof. repeat split; vm_compute; reflexivity. Qed.

(** The order of the integer instance. *)
Lemma fle_Z_total (x y : Z) : fle x y = true ∨ fle y x = true.
Proof.
  simpl. destruct (Z.leb_spec x y); [by left | right]. apply Z.leb_le. lia.
Qed.

Lemma fle_Z_trans (x y z : Z) : fle x y = true → fle y z = true → fle x z = true.
Proof. simpl. rewrite !Z.leb_le. lia. Qed.

(** C5, at the first network with two candidates: the TAZ at the origin gets
    the meso nodes 1 and 2, at the distances 1 and 5. *)
Lemma find_nearest_scc_nodes_k_nearest_witness :
  ∃ cands,
    find_nearest_scc_nodes taz_df meso_nodes 2 = Ok cands ∧
    cells_of ["candidate_node_id_1"; "candidate_node_id_2"] cands
      = [[VInt 1; VInt 2]] ∧
    Forall (λ out, ∃ ds picks,
        k_nearest ds 2 picks ∧
        ∀ j i, picks !! j = Some i →
               ∃ r, r ∈ rows meso_nodes ∧
                    veqb (cell r "scc_id") (VInt 0) = true ∧
                    cell out (candidate_column j) = cell r "node_id")
      (rows cands).
Proof.
  returned (find_nearest_scc_nodes taz_df meso_nodes 2) cands Hrun.
  exists cands. split; [reflexivity|]. split.
  { revert Hrun. vm_compute. intros [= <-]. reflexivity. }
  pose proof (find_nearest_scc_nodes_k_nearest fle_Z_total fle_Z_trans
                taz_df meso_nodes cands 2 Hrun) as Hnearest.
  cbn zeta in Hnearest.
  assert (Forall (λ r : gmap string (@value Z),
                    is_number (cell r "x_coord") = true
                    ∧ is_number (cell r "y_coord") = true)
            (filter (λ r, veqb (cell r "scc_id") (VInt 0) = true)
               (rows meso_nodes))) as Hmeso.
  { apply Forall_forall. intros r [_ Hr]%list_elem_of_filter. revert r Hr.
    apply Forall_forall.
    each_row meso_nodes ltac:(split; vm_compute; reflexivity). }
  assert (Forall (λ taz : gmap string (@value Z),
                    is_number (cell taz "x_coord") = true
                    ∧ is_number (cell taz "y_coord") = true)
            (rows taz_df)) as Htaz.
  { each_row taz_df ltac:(split; vm_compute; reflexivity). }
  specialize (Hnearest Hmeso Htaz). clear Hmeso Htaz.
  induction Hnearest
    as [|taz out tazs outs (ds & picks & _ & Hpicks & _ & Hcols & _) _ IH];
    [constructor|].
  constructor; [|exact IH].
  exists ds, picks. split; [exact Hpicks|].
  intros j i Hj. destruct (Hcols j i Hj) as (r & Hr & Hcell).
  apply list_elem_of_lookup_2, list_elem_of_filter in Hr as [Hscc Hr].
  exists r. split; [exact Hr|]. split; [exact Hscc | exact Hcell].
Defined.

(** C6, at node 1 of the first network: the two micro links that divide meso
    link 1 run 1 -> 2 -> 3, and node 1 is the only start node. *)
Lemma find_start_micro_nodes_exact_witness :
  find_start_micro_nodes (VInt 1) meso_links micro_links = Ok [VInt 1] ∧
  NoDup [@VInt Z 1] ∧
  (∃ r, outgoing_micro_link (VInt 1) meso_links micro_links r ∧
        cell r "from_node_id" = VInt 1) ∧
  ¬ (∃ r, outgoing_micro_link (VInt 1) meso_links micro_links r ∧
          cell r "to_node_id" = VInt 1).
Proof.
  assert (find_start_micro_nodes (VInt 1) meso_links micro_links = Ok [VInt 1])
    as Hrun by (vm_compute; reflexivity).
  split; [exact Hrun|].
  destruct (find_start_micro_nodes_exact _ _ _ _ Hrun) as (_ & _ & Hexact).
  destruct Hexact as [Hnd Hiff].
  { intros r [Hr _]. revert r Hr. apply Forall_forall.
    each_row micro_links ltac:(eexists _, _; split; vm_compute; reflexivity). }
  split; [exact Hnd|].
  destruct (proj1 (Hiff (VInt 1))) as (n & [= <-] & Hfrom & Hto); [left|].
  split; [exact Hfrom | exact Hto].
Defined.

(** C7, counterexample: with no meso node in component 0 the finder returns
    the TAZ row as it is, and the pipeline stops with a [KeyError]. *)
Lemma no_core_pipeline_raises :
  (λ df, (columns df, cells_of taz_cols df))
    <$> find_nearest_scc_nodes taz_df meso_nodes_no_core 1
  = Ok (taz_cols, [[VInt 1; VNum 0; VNum 0]])
  ∧ main 0 1 2 3 4 [taz_df; meso_nodes_no_core; meso_links; micro_nodes; micro_links]
    = Raise (KeyError "candidate_node_id_1").
Proof. split; vm_compute; reflexivity. Qed.

Lemma no_core_no_candidates_witness :
  ∃ cands,
    find_nearest_scc_nodes taz_df meso_nodes_no_core 1 = Ok cands ∧
    map_taz_to_micro_nodes cands meso_links micro_links micro_nodes
      "candidate_node_id_1" = Raise (KeyError "candidate_node_id_1").
Proof.
  destruct (no_core_no_candidates taz_df meso_nodes_no_core 1)
    as (cands & Hfind & _ & _ & Hdown);
    [apply Forall_forall;
     each_row meso_nodes_no_core ltac:(vm_compute; reflexivity)
    | compute_done..|].
  exists cands. split; [exact Hfind|].
  destruct Hdown as (Hmap & _ & _); [compute_done..|].
  apply Hmap.
Defined.

(** C10, at the first network. *)
Lemma micro_map_rows_come_from_micro_nodes_witness :
  ∃ tmap,
    map_taz_to_micro_nodes candidates_1 meso_links micro_links micro_nodes
      "candidate_node_id_1" = Ok tmap ∧
    ∀ out, out ∈ rows tmap →
      ∃ node, node ∈ rows micro_nodes ∧
              cell out "micro_node_id" = cell node "node_id".
Proof.
  destruct (micro_map_rows_come_from_micro_nodes candidates_1 meso_links
              micro_links micro_nodes "candidate_node_id_1") as [Honly Hreturns].
  destruct Hreturns as [tmap Htmap]; [compute_done..|].
  exists tmap. split; [exact Htmap|].
  intros out Hout.
  destruct (Honly tmap Htmap out Hout)
    as (row & sn & node & _ & _ & Hnode & _ & _ & Hid & _).
  exists node. split; [exact Hnode | exact Hid].
Defined.

End Runs.

(** * More examples, run *)

Module Checks.
Import Examples MoreExamples.

Ltac returned m x Hx :=
  let Hok := fresh "Hok" in
  assert (is_ok m = true) as Hok by (vm_compute; reflexivity);
  destruct m as [x|?] eqn:Hx; [clear Hok | discriminate Hok].

Ltac each_row df tac :=
  unfold df, frame; cbn [rows fmap list_fmap];
  repeat first [ apply Forall_nil_2 | apply Forall_cons_2; [tac|] ].

(** Reads a value off the result of a computation that returned, by running
    the computation. *)
Ltac ran Hx f v H :=
  match type of Hx with
  | ?m = Ok _ =>
      assert (f <$> m = Ok v) as H by (vm_compute; reflexivity);
      rewrite Hx in H; cbv [fmap result_fmap] in H; injection H as H
  end.

(** Finds an element in a list that is written out. *)
Ltac find_elem :=
  first [ apply list_elem_of_here | apply list_elem_of_further; find_elem ].

(** A TAZ table without rows, with the other tables of the first network. *)
Lemma empty_taz_table_raises_witness :
  main 0 1 2 3 4 [no_taz; meso_nodes; meso_links; micro_nodes; micro_links]
  = Raise (KeyError "TAZ_clean").
Proof.
  apply (empty_taz_table_raises no_taz meso_nodes meso_links micro_nodes
           micro_links); [reflexivity | compute_done].
Defined.

(** The first network: its map has a row and it gets two micro connectors. *)
Lemma completed_run_has_connectors_witness :
  ∃ final_links final_nodes σ' tmap micro_connectors,
    main 0 1 2 3 4 loaded = Ok ((final_links, final_nodes), σ') ∧
    σ' !! 6%nat = Some tmap ∧ σ' !! 11%nat = Some micro_connectors ∧
    rows tmap ≠ [] ∧ (2 ≤ length (rows micro_connectors))%nat.
Proof.
  returned (main 0 1 2 3 4 loaded) out Hrun. destruct out as [[fl fn] σ'].
  destruct (completed_run_has_connectors taz_df meso_nodes meso_links
              micro_nodes micro_links fl fn σ' Hrun)
    as (tmap & uc & H6 & H11 & Htmap & Huc & _).
  exists fl, fn, σ', tmap, uc.
  split; [reflexivity|]. split; [exact H6|]. split; [exact H11|].
  split; [exact Htmap | exact Huc].
Defined.

(** Two TAZs: two pairs of meso connectors. *)
Lemma meso_connectors_one_pair_per_taz_witness :
  ∃ conn chunks,
    generate_meso_connectors two_candidates updated_meso_1 "candidate_node_id_1"
      "TAZ_clean" (VInt 2) = Ok conn ∧
    rows conn = list_to_map <$> concat chunks ∧ length chunks = 2%nat.
Proof.
  returned (generate_meso_connectors two_candidates updated_meso_1
              "candidate_node_id_1" "TAZ_clean" (VInt 2)) conn Hconn.
  destruct (meso_connectors_one_pair_per_taz two_candidates updated_meso_1 conn
              "candidate_node_id_1" "TAZ_clean" (VInt 2) Hconn)
    as (chunks & Hrows & Hall).
  exists conn, chunks. split; [reflexivity|]. split; [exact Hrows|].
  apply Forall2_length in Hall. symmetry. exact Hall.
Defined.

(** The candidate 1 is found among the shifted meso nodes; the candidate 9
    is not. *)
Lemma generate_meso_connectors_IndexError_witness :
  (∃ conn,
     generate_meso_connectors candidates_1 updated_meso_1 "candidate_node_id_1"
       "TAZ_clean" (VInt 2) = Ok conn) ∧
  generate_meso_connectors lost_candidate updated_meso_1 "candidate_node_id_1"
    "TAZ_clean" (VInt 2) = Raise IndexError.
Proof.
  split.
  - apply (generate_meso_connectors_IndexError candidates_1 updated_meso_1
             "candidate_node_id_1" "TAZ_clean" 2); [compute_done..| |].
    + each_row candidates_1 ltac:(exists 1; vm_compute; reflexivity).
    + each_row candidates_1
        ltac:(exists 1, (list_to_map (zip (meso_node_cols ++ ["zone_id"])
                                        [VInt 3; VNum 1; VNum 0; VInt 0; VStr ""]));
              split; [vm_compute; reflexivity|];
              split; [left | vm_compute; reflexivity]).
  - apply (generate_meso_connectors_IndexError lost_candidate updated_meso_1
             "candidate_node_id_1" "TAZ_clean" 2); [compute_done..| |].
    + each_row lost_candidate ltac:(exists 9; vm_compute; reflexivity).
    + unfold lost_candidate, frame. cbn [rows fmap list_fmap].
      apply Exists_cons_hd. exists 9. split; [vm_compute; reflexivity|].
      apply Forall_forall.
      each_row updated_meso_1 ltac:(vm_compute; reflexivity).
Defined.

(** Micro node 1 is listed for both TAZs and is connected to TAZ 1 only. *)
Lemma micro_connectors_once_per_node_witness :
  ∃ uc ends,
    generate_micro_connectors two_candidates shared_map micro_nodes "TAZ_clean"
      (VInt 6) 1 = Ok uc ∧
    column uc "to_node_id" = ends ≫= (λ e, [VInt e.2; e.1]) ∧
    NoDup ends.*2 ∧
    column uc "to_node_id" = [VInt 7; VInt 1; VInt 8; VInt 2].
Proof.
  returned (generate_micro_connectors two_candidates shared_map micro_nodes
              "TAZ_clean" (VInt 6) 1) uc Huc.
  destruct (micro_connectors_once_per_node two_candidates shared_map micro_nodes
              uc "TAZ_clean" 6 1 [1; 1; 2] Huc)
    as (ends & _ & Hto & Hnd & _); [vm_compute; reflexivity|].
  exists uc, ends. split; [reflexivity|]. split; [exact Hto|].
  split; [exact Hnd|].
  ran Huc (λ uc : @DataFrame Z, column uc "to_node_id")
    (@VInt Z <$> [7; 1; 8; 2]) Hcol.
  exact Hcol.
Defined.

(** The final node table of the first network: one row for its TAZ, four
    for its meso nodes and three for its micro nodes. *)
Lemma final_nodes_rows_witness :
  ∃ final_links final_nodes σ' taz_rows meso_rows micro_rows,
    main 0 1 2 3 4 loaded = Ok ((final_links, final_nodes), σ') ∧
    columns final_nodes = ["node_id"; "x"; "y"; "zone_id"; "layer"] ∧
    rows final_nodes ≡ₚ taz_rows ++ meso_rows ++ micro_rows ∧
    length taz_rows = 1%nat ∧ length meso_rows = 4%nat ∧
    length micro_rows = 3%nat.
Proof.
  returned (main 0 1 2 3 4 loaded) out Hrun. destruct out as [[fl fn] σ'].
  destruct (final_nodes_rows taz_df meso_nodes meso_links micro_nodes
              micro_links fl fn σ' Hrun)
    as (cands & s1 & s2 & ls & taz_rows & meso_rows & micro_rows
        & _ & _ & Hcols & Hperm & Htaz & Hmeso & Hmicro).
  exists fl, fn, σ', taz_rows, meso_rows, micro_rows.
  split; [reflexivity|]. split; [exact Hcols|]. split; [exact Hperm|].
  apply Forall2_length in Htaz, Hmeso, Hmicro.
  split; [|split]; symmetry; [exact Htaz | exact Hmeso | exact Hmicro].
Defined.

(** The links of the first network end on nodes of the network. *)
Lemma final_links_resolve_witness :
  ∃ final_links final_nodes σ',
    main 0 1 2 3 4 loaded = Ok ((final_links, final_nodes), σ') ∧
    ∀ row, row ∈ rows final_links →
      cell row "from_node_id" ∈ column final_nodes "node_id" ∧
      cell row "to_node_id" ∈ column final_nodes "node_id".
Proof.
  returned (main 0 1 2 3 4 loaded) out Hrun. destruct out as [[fl fn] σ'].
  exists fl, fn, σ'. split; [reflexivity|].
  apply (final_links_resolve taz_df meso_nodes meso_links micro_nodes
           micro_links fl fn σ' Hrun).
  - compute_done.
  - apply Forall_forall.
    each_row meso_links ltac:(split; vm_compute; find_elem).
  - apply Forall_forall.
    each_row micro_links ltac:(split; vm_compute; find_elem).
Defined.

Lemma final_links_rows_witness :
  ∃ final_links final_nodes σ',
    main 0 1 2 3 4 loaded = Ok ((final_links, final_nodes), σ') ∧
    length (rows final_links) = 9%nat ∧
    take 5 (columns final_links) = ordered_cols.
Proof.
  returned (main 0 1 2 3 4 loaded) out Hrun. destruct out as [[fl fn] σ'].
  destruct (final_links_rows taz_df meso_nodes meso_links micro_nodes
              micro_links fl fn σ' Hrun)
    as (mc & uc & H10 & H11 & Hmc & Hlen & _ & Hcols & _).
  exists fl, fn, σ'. split; [reflexivity|]. split; [|exact Hcols].
  rewrite Hlen, Hmc.
  ran Hrun (λ out : @DataFrame Z * @DataFrame Z * @store Z,
              length ∘ rows <$> out.2 !! 11%nat) (Some 2%nat) Huc.
  cbn [snd] in Huc. rewrite H11 in Huc. injection Huc as Huc.
  cbn [compose] in Huc. rewrite Huc. reflexivity.
Defined.

Lemma final_nodes_sorted_witness :
  ∃ final_links final_nodes σ' zs,
    main 0 1 2 3 4 loaded = Ok ((final_links, final_nodes), σ') ∧
    column final_nodes "node_id" = VInt <$> zs ∧ StronglySorted Z.le zs.
Proof.
  returned (main 0 1 2 3 4 loaded) out Hrun. destruct out as [[fl fn] σ'].
  destruct (final_nodes_sorted taz_df meso_nodes meso_links micro_nodes
              micro_links fl fn σ' [1] [1; 2; 3; 4] [1; 2; 3] Hrun)
    as (zs & Hzs & Hsorted); [vm_compute; reflexivity..|].
  exists fl, fn, σ', zs. split; [reflexivity|]. split; [exact Hzs | exact Hsorted].
Defined.

Lemma final_links_sorted_witness :
  ∃ final_links final_nodes σ' ends,
    main 0 1 2 3 4 loaded = Ok ((final_links, final_nodes), σ') ∧
    column final_links "from_node_id" = VInt <$> ends.*1 ∧
    column final_links "to_node_id" = VInt <$> ends.*2 ∧
    StronglySorted lex_le ends.
Proof.
  returned (main 0 1 2 3 4 loaded) out Hrun. destruct out as [[fl fn] σ'].
  destruct (final_links_sorted taz_df meso_nodes meso_links micro_nodes
              micro_links fl fn σ' [1] [1; 2; 3; 4] [1; 2; 3]
              [1; 2; 3] [2; 3; 1] [1; 2] [2; 3] Hrun)
    as (ends & Hfrom & Hto & Hsorted);
    [compute_done | vm_compute; reflexivity..|].
  exists fl, fn, σ', ends. split; [reflexivity|]. split; [exact Hfrom|].
  split; [exact Hto | exact Hsorted].
Defined.

(** [reindex_nodes] on a store that holds the node tables of the first
    network. *)
Lemma reindex_nodes_shifts_copies_witness :
  ∃ meso' micro',
    (snd <$> reindex_nodes 0 1 (VInt 2) (VInt 6) (VInt 3) [meso_nodes; micro_nodes])
    = Ok [meso_nodes; micro_nodes; meso'; micro'].
Proof.
  returned (reindex_nodes 0 1 (VInt 2) (VInt 6) (VInt 3) [meso_nodes; micro_nodes])
    out Hrun.
  destruct out as [[m u] σ'].
  destruct (reindex_nodes_shifts_copies 0%nat 1%nat (VInt 2) (VInt 6) (VInt 3)
              [meso_nodes; micro_nodes] σ' meso_nodes micro_nodes m u
              eq_refl eq_refl Hrun) as (meso' & micro' & -> & _).
  exists meso', micro'. reflexivity.
Defined.

Lemma meso_link_references_kept_witness :
  ∃ final_links final_nodes σ' mesol' microl',
    main 0 1 2 3 4 loaded = Ok ((final_links, final_nodes), σ') ∧
    σ' !! 2%nat = Some mesol' ∧ σ' !! 4%nat = Some microl' ∧
    Forall2 (λ v w, vadd v (VInt (2 * len taz_df + 1)) = Ok w)
      (column micro_links "meso_link_id") (column microl' "meso_link_id").
Proof.
  returned (main 0 1 2 3 4 loaded) out Hrun. destruct out as [[fl fn] σ'].
  destruct (meso_link_references_kept taz_df meso_nodes meso_links micro_nodes
              micro_links fl fn σ' Hrun)
    as (mesol' & microl' & micro' & H2 & H4 & _ & _ & Hmicrol & _).
  exists fl, fn, σ', mesol', microl'.
  split; [reflexivity|]. split; [exact H2|]. split; [exact H4 | exact Hmicrol].
Defined.

(** The two cycles: networkx lists the small one first, and the large one
    gets index 0. *)
Lemma scc_ids_by_size_witness :
  ∃ node_to_scc,
    scc.compute_scc_id_mapping two_cycles = Ok node_to_scc ∧
    scc.node_dict_get node_to_scc (VInt 2) = Some 0 ∧
    scc.node_dict_get node_to_scc (VInt 5) = Some 1 ∧
    scc.node_dict_get node_to_scc (VInt 4) = None.
Proof.
  returned (scc.compute_scc_id_mapping two_cycles) d Hd. exists d.
  split; [reflexivity|].
  destruct (scc_ids_by_size two_cycles d Hd)
    as (G & sccs & HG & Hperm & Hsize & Hids).
  ran HG (λ G : list (@value Z * @value Z), G)
    [(@VInt Z 5, @VInt Z 6); (VInt 6, VInt 5); (VInt 1, VInt 2);
     (VInt 2, VInt 3); (VInt 3, VInt 1); (VInt 3, VInt 5)] HG'.
  subst G. destruct Hids as (_ & Hnone & _).
  { vm_compute. repeat constructor. }
  split; [|split].
  - ran Hd (λ d : @scc.node_dict Z, scc.node_dict_get d (VInt 2)) (Some 0) H2.
    exact H2.
  - ran Hd (λ d : @scc.node_dict Z, scc.node_dict_get d (VInt 5)) (Some 1) H5.
    exact H5.
  - apply Hnone. apply Forall_forall. vm_compute.
    repeat constructor; intros Hin; repeat (apply elem_of_cons in Hin as [[=]|Hin]);
      by apply elem_of_nil in Hin.
Defined.

(** Step 2 on the first network: the nodes of the cycle get 0, the node
    without a link gets -1. *)
Lemma assign_and_export_scc_ids_witness :
  ∃ annotated,
    scc.assign_and_export_scc meso_links meso_nodes_read = Ok annotated ∧
    column annotated "scc_id" = [VInt 0; VInt 0; VInt 0; VInt (-1)] ∧
    "scc_id" ∈ columns annotated.
Proof.
  returned (scc.assign_and_export_scc meso_links meso_nodes_read) annotated Hrun.
  destruct (assign_and_export_scc_ids meso_links meso_nodes_read annotated Hrun)
    as (G & sccs & _ & _ & _ & Hscc & _).
  exists annotated. split; [reflexivity|]. split; [|exact Hscc].
  ran Hrun (λ annotated : @DataFrame Z, column annotated "scc_id")
    (@VInt Z <$> [0; 0; 0; -1]) Hcol.
  exact Hcol.
Defined.

(** Steps 2 and 3 on the first network: the candidate of the TAZ is a node
    of the cycle. *)
Lemma candidates_in_largest_component_witness :
  ∃ annotated cands,
    scc.assign_and_export_scc meso_links meso_nodes_read = Ok annotated ∧
    find_nearest_scc_nodes taz_df annotated 1 = Ok cands ∧
    ∀ row, row ∈ rows cands →
      cell row "candidate_node_id_1" = NaN ∨
      ∃ n, cell row "candidate_node_id_1" = VInt n
           ∧ VInt n ∈ column meso_nodes_read "node_id".
Proof.
  returned (annotated ← scc.assign_and_export_scc meso_links meso_nodes_read;
            cands ← find_nearest_scc_nodes taz_df annotated 1;
            Ok (annotated, cands)) out Hout.
  apply bind_Ok in Hout as (annotated & Hrun & Hout).
  apply bind_Ok in Hout as (cands & Hcands & _).
  exists annotated, cands. split; [exact Hrun|]. split; [exact Hcands|].
  destruct (candidates_in_largest_component taz_df meso_links meso_nodes_read
              annotated cands [1; 2; 3; 4] Hrun Hcands)
    as (G & HG & Hall); [compute_done | vm_compute; reflexivity|].
  ran HG (λ G : list (@value Z * @value Z), G)
    [(@VInt Z 1, @VInt Z 2); (VInt 2, VInt 3); (VInt 3, VInt 1)] HG'.
  subst G.
  intros row Hrow. destruct (Hall ltac:(vm_compute; repeat constructor) row Hrow)
    as [Hnan|(n & largest & Hn & Hin & _)]; [left; exact Hnan | right].
  exists n. split; [exact Hn | exact Hin].
Defined.

(** The first network without its meso links. *)
Lemma no_links_no_component_witness :
  ∃ annotated cands,
    scc.assign_and_export_scc no_links meso_nodes_read = Ok annotated ∧
    (∀ r, r ∈ rows annotated → cell r "scc_id" = VInt (-1)) ∧
    find_nearest_scc_nodes taz_df annotated 1 = Ok cands.
Proof.
  destruct (no_links_no_component taz_df no_links meso_nodes_read 1)
    as (annotated & cands & Hrun & Hall & Hcands & _);
    [reflexivity | reflexivity | compute_done..|].
  exists annotated, cands. split; [exact Hrun|]. split; [exact Hall | exact Hcands].
Defined.

(** The tables of the first network pass the loader and step 2. *)
Lemma loaded_tables_pass_scc_witness :
  ∃ l annotated,
    network_io.load_node_link_layers meso_nodes_read meso_links micro_nodes
      micro_links = network_io.Loaded l ∧
    scc.assign_and_export_scc (network_io.meso_links l) (network_io.meso_nodes l)
      = Ok annotated ∧
    length (rows annotated) = 4%nat.
Proof.
  assert (network_io.load_node_link_layers meso_nodes_read meso_links micro_nodes
            micro_links
          = network_io.Loaded
              (network_io.mkLayers meso_nodes_read meso_links micro_nodes
                 micro_links)) as Hload by (vm_compute; reflexivity).
  destruct (loaded_tables_pass_scc _ _ _ _ _ Hload) as (annotated & Hrun & Hlen & _).
  eexists _, annotated. split; [exact Hload|]. split; [exact Hrun | exact Hlen].
Defined.

End Checks.
